(** * Obj2Seq (Paddle port): the prompt indicator and its retention policy

    A shallow embedding of [models/transformer/prompt_indicator.py]:
    - [RetentionPolicy.forward], the per-image selection of class indices;
    - [PromptIndicator._init_class_prompts], the construction of the class
      prompts;
    - [PromptIndicator.forward], the slicing of the preserved levels, the
      refinement loop and the assembling of the outputs;
    of the head in [models/transformer/transformer.py] and of the
    construction of the network in [models/backbone/_resnet.py].

    Conventions.
    - A dense tensor of shape (B, K) is an index function [nat -> nat -> A]
      read on [b < B] and [c < K]; a tensor of shape (B,) is [nat -> A].
      The shape is carried next to the tensor, so every tensor met by the
      retention policy has the shape the code expects.  The tensors the
      prompt indicator builds from the targets are given by their rows, one
      per record, and are checked against the batch before the policy
      reads them.
    - Probabilities and thresholds are rationals [Q]; the logistic function
      of the framework is a parameter [sigmoid] of the model.
    - Integer counts are [Z] (Python integers, and 64-bit tensors far from
      their bounds).
    - Python exceptions are values of [exn]; a function that may raise
      returns [exn + A]. *)

From Stdlib Require Import String.
From Stdlib Require Import List Arith ZArith QArith Qabs Bool Lia Lqa.
From Stdlib Require Import Permutation Sorted.
Import ListNotations.

Set Implicit Arguments.
Open Scope nat_scope.

(** ** Generic list helpers *)

Module PyList.

(** Python's [l[:n]] for an integer [n]: a negative [n] counts from the
    end, and the bound is clamped to the length of the list. *)
Definition slice_to {A : Type} (l : list A) (n : Z) : list A :=
  if (n <? 0)%Z
  then firstn (Z.to_nat (Z.of_nat (length l) + n)) l
  else firstn (Z.to_nat n) l.

(** Python's [l[-2]]: the element before the last one, [None] (IndexError)
    when the list has fewer than two elements. *)
Definition index_neg2 {A : Type} (l : list A) : option A :=
  nth_error (rev l) 1.

(** Python's [l[:-1]]. *)
Definition drop_last {A : Type} (l : list A) : list A := removelast l.

(** Python's [s[-3:]] on a string: its last three characters, the whole
    string when it is shorter. *)
Definition last3 (s : string) : string :=
  substring (String.length s - 3) 3 s.

Section Sort.

Variable A : Type.
Variable leb : A -> A -> bool.

Fixpoint insert (x : A) (l : list A) : list A :=
  match l with
  | [] => [x]
  | y :: l' => if leb x y then x :: l else y :: insert x l'
  end.

(** A sort by insertion along [leb]. *)
Definition sort (l : list A) : list A := fold_right insert [] l.

End Sort.

End PyList.

(** ** The retention policy *)

Module RetentionPolicy.

Import PyList.

(** [RetentionPolicy.__init__]: the six scalars of
    MODEL.PROMPT_INDICATOR.RETENTION_POLICY, and the layer's [training]
    flag. *)
Record Policy : Type := {
  training : bool;
  train_min_classes : Z;
  train_max_classes : Z;
  train_class_thr : Q;
  eval_min_classes : Z;
  eval_max_classes : Z;
  eval_class_thr : Q
}.

(** [x >= y] on probabilities. *)
Definition Qge_bool (x y : Q) : bool := Qle_bool y x.

(** Modelled from the spec: the framework's [argsort(axis=1, descending=True)]
    on one row is not code of the repository.  Section 4.3, step 6, fixes it
    as a stable sort on descending probability: class [i] is ranked before
    class [j] when its probability is larger, or equal with [i <= j]. *)
Definition ranked_before (p : nat -> Q) (i j : nat) : bool :=
  negb (Qle_bool (p i) (p j)) || (Qeq_bool (p i) (p j) && (i <=? j)).

(** Modelled from the spec: [argsort(axis=1, descending=True)] on the row
    [p] of [K] classes, the class indices sorted along [ranked_before].
    Apart from the order of equal probabilities, the properties below use
    only that it is a permutation of [0, ..., K-1]. *)
Definition argsort_descending (K : nat) (p : nat -> Q) : list nat :=
  sort (ranked_before p) (seq 0 K).

(** The framework's ascending [sort()] of a vector of class indices. *)
Definition sort_ascending (l : list nat) : list nat := sort Nat.leb l.

(** The framework's [x.clip(min, max)] on an integer, by its documented
    formula [Out = MIN(MAX(x, min), max)]. *)
Definition clip (x lo hi : Z) : Z := Z.min (Z.max x lo) hi.

(** [paddle.where(cond, x, y)] on one element. *)
Definition where_ {A : Type} (cond : bool) (x y : A) : A :=
  if cond then x else y.

(** [paddle.full_like(v, fill_value)] on a vector of indices. *)
Definition full_like (v : list nat) (fill_value : nat) : list nat :=
  repeat fill_value (length v).

(** The scalar bounds of the current mode: [self.train_min_classes] and
    [self.train_max_classes] when training, the [eval_] ones otherwise. *)
Definition configured_min (self : Policy) : Z :=
  if training self then train_min_classes self else eval_min_classes self.

Definition configured_max (self : Policy) : Z :=
  if training self then train_max_classes self else eval_max_classes self.

Section Forward.

Context {logit : Type}.
Variable sigmoid : logit -> Q.
Variable self : Policy.

(** [label_logits] has shape bs * K. *)
Variables bs K : nat.
Variable label_logits : nat -> nat -> logit.
Variable force_sample_probs : option (nat -> nat -> Q).
Variable num_classes : option (nat -> Z).

(** Lines 33-36: the probabilities the policy works on. *)
Definition label_prob : nat -> nat -> Q :=
  let label_prob := fun b c => sigmoid (label_logits b c) in
  if training self then
    match force_sample_probs with
    | Some forced =>
        fun b c =>
          where_ (Qge_bool (forced b c) 0%Q) (forced b c) (label_prob b c)
    | None => label_prob
    end
  else label_prob.

(** Lines 37-38 and 41-42: [num_classes.clip(max=...)] when [num_classes]
    is given, the configured scalar otherwise. *)
Definition min_classes (b : nat) : Z :=
  match num_classes with
  | Some nc => Z.min (nc b) (configured_min self)
  | None => configured_min self
  end.

Definition max_classes (b : nat) : Z :=
  match num_classes with
  | Some nc => Z.min (nc b) (configured_max self)
  | None => configured_max self
  end.

Definition class_thr : Q :=
  if training self then train_class_thr self else eval_class_thr self.

(** Line 44: [(label_prob >= class_thr).sum(axis=1)]. *)
Definition num_above_thr (b : nat) : Z :=
  Z.of_nat
    (length (filter (fun c => Qge_bool (label_prob b c) class_thr) (seq 0 K))).

(** Lines 45-50: the bounds are tensors exactly when [num_classes] is
    given; the tensor branch is two [where]s, the scalar branch a clip. *)
Definition num_train (b : nat) : Z :=
  match num_classes with
  | Some _ =>
      let num_train :=
        where_ (num_above_thr b >? min_classes b)%Z
               (num_above_thr b) (min_classes b) in
      where_ (num_above_thr b <? max_classes b)%Z num_train (max_classes b)
  | None => clip (num_above_thr b) (min_classes b) (max_classes b)
  end.

(** Line 51, one row of [sorted_idxs]. *)
Definition sorted_idxs (b : nat) : list nat :=
  argsort_descending K (label_prob b).

(** Line 55: [sorted_idx[:n_train].sort()]. *)
Definition selected (b : nat) : list nat :=
  sort_ascending (slice_to (sorted_idxs b) (num_train b)).

(** Lines 52-56: the loop over the images, with its two accumulators. *)
Definition loop_body (acc : list (list nat) * list (list nat)) (id_b : nat)
  : list (list nat) * list (list nat) :=
  let '(bs_idx, cls_idx) := acc in
  let picked := selected id_b in
  (bs_idx ++ [full_like picked id_b], cls_idx ++ [picked]).

(** Line 57: both lists are concatenated; [concat] is the concatenation of
    the vectors in order. *)
Definition forward : list nat * list nat :=
  let '(bs_idx, cls_idx) := fold_left loop_body (seq 0 bs) ([], []) in
  (concat bs_idx, concat cls_idx).

End Forward.

(** The class indices of image [b] in a flat result: the entries of
    [class_index] at the positions where [batch_index] is [b]. *)
Definition classes_of (b : nat) (result : list nat * list nat) : list nat :=
  map snd (filter (fun p => fst p =? b) (combine (fst result) (snd result))).

(** A (B, K) tensor given by its rows. *)
Definition tensor_of_rows {A : Type} (d : A) (rows : list (list A))
  : nat -> nat -> A :=
  fun b c => nth c (nth b rows []) d.

End RetentionPolicy.

(** ** The prompt indicator *)

Module PromptIndicator.

Import PyList.

(** The Python exceptions the modelled code can raise.  [FrameworkError]
    stands for an exception raised inside a call of the framework on
    tensors it rejects (no tensor to concatenate, shapes that do not
    broadcast); its Python class is the framework's and is not modelled. *)
Inductive exn : Type :=
| IndexError
| TypeError
| AssertionError
| KeyError
| NameError
| AttributeError
| FrameworkError.

(** A small error monad: [inl e] is a raised exception. *)
Definition bind {A B : Type} (m : exn + A) (k : A -> exn + B) : exn + B :=
  match m with
  | inl e => inl e
  | inr a => k a
  end.

Notation "x <- m ;; k" := (bind m (fun x => k))
  (at level 61, m at next level, right associativity).

Definition raise {A : Type} (e : exn) : exn + A := inl e.
Definition ret {A : Type} (a : A) : exn + A := inr a.

(** *** Construction of the class prompts *)

Module CLASS_PROMPTS.

(** MODEL.PROMPT_INDICATOR.CLASS_PROMPTS.  [init_vectors] is the path of
    the file of initial vectors; [None] and the empty string are falsy. *)
Record args : Type := {
  init_vectors : option string;
  fix_class_prompts : bool;
  num_classes : nat
}.

End CLASS_PROMPTS.

(** A prompt matrix: its shape and its entries. *)
Record Matrix : Type := {
  shape : nat * nat;
  entry : nat -> nat -> Q
}.

(** How the prompts are held by the layer: [Fixed] for a registered buffer,
    [Trainable] for a parameter. *)
Inductive Held : Type :=
| Fixed (class_prompts : Matrix)
| Trainable (class_prompts : Matrix).

(** What [_init_class_prompts] leaves on [self]: the prompts, and the
    projection to the model dimension ([None] when the dimensions agree,
    the input and output dimensions of the linear map otherwise). *)
Record Store : Type := {
  class_prompts : Held;
  convert_vector : option (nat * nat)
}.

(** Truth value of [args.init_vectors]. *)
Definition truthy (s : option string) : option string :=
  match s with
  | Some path => if String.eqb path EmptyString then None else Some path
  | None => None
  end.

(** The extension [args.init_vectors[-3:]] of the file named by [args],
    [None] when no file is named. *)
Definition extension (args : CLASS_PROMPTS.args) : option string :=
  option_map last3 (truthy (CLASS_PROMPTS.init_vectors args)).

Definition zeros (n d : nat) : Matrix :=
  {| shape := (n, d); entry := fun _ _ => 0%Q |}.

Section Init.

(** [np.load] followed by [paddle.to_tensor]: the contents of a file. *)
Variable np_load : string -> Matrix.
(** [nn.init.normal_]: the random initial values of a matrix of a shape. *)
Variable normal_ : Matrix -> Matrix.

(** Lines 85-113.  The module never imports [torch], so the ["pth"] branch
    stops on the unbound name.  The calls into the framework
    ([register_buffer], [create_parameter], [register_parameter], ...) are
    taken to succeed. *)
Definition _init_class_prompts (d_model : nat) (args : CLASS_PROMPTS.args)
  : exn + Store :=
  loaded <-
    match truthy (CLASS_PROMPTS.init_vectors args) with
    | Some path =>
        class_prompts <-
          (if String.eqb (last3 path) "pth" then raise NameError
           else if String.eqb (last3 path) "npy" then ret (np_load path)
           else raise KeyError) ;;
        if CLASS_PROMPTS.fix_class_prompts args
        then ret (class_prompts, Fixed class_prompts)
        else ret (class_prompts, Trainable class_prompts)
    | None =>
        let class_prompts := zeros (CLASS_PROMPTS.num_classes args) d_model in
        if negb (Bool.eqb (CLASS_PROMPTS.fix_class_prompts args) false)
        then raise AssertionError
        else ret (class_prompts, Trainable (normal_ class_prompts))
    end ;;
  let '(class_prompts, held) := loaded in
  if negb (snd (shape class_prompts) =? d_model)
  then ret {| class_prompts := held;
              convert_vector := Some (snd (shape class_prompts), d_model) |}
  else ret {| class_prompts := held; convert_vector := None |}.

End Init.

(** *** The forward pass *)

Module Target.

(** One record of [targets]: [t["force_sample_probs"]], of shape (K,), and
    [t["num_classes"]]. *)
Record t : Type := {
  force_sample_probs : nat -> Q;
  num_classes : Z
}.

End Target.

(** Lines 121-136: the slicing of the preserved levels, on tensors that
    are sliced along their second axis by [slice_srcs] and [slice_mask]:
    [x[:, a:b]] for the bounds [(a, Some b)] and [x[:, a:]] for
    [(a, None)].  Slicing a tensor raises nothing. *)
Section Slicing.

Context {Srcs Mask : Type}.
Variable slice_srcs : Srcs -> nat -> option nat -> Srcs.
Variable slice_mask : Mask -> nat -> option nat -> Mask.

(** Lines 127-132: the bounds of the slice of level [lvl].  Reading the
    start index at a position that is not below its length is an
    IndexError. *)
Definition level_bounds (src_level_start_index : list nat) (lvl : nat)
  : exn + (nat * option nat) :=
  let num_level := length src_level_start_index in
  if lvl <? num_level - 1 then
    match nth_error src_level_start_index lvl,
          nth_error src_level_start_index (lvl + 1) with
    | Some a, Some b => ret (a, Some b)
    | _, _ => raise IndexError
    end
  else
    match nth_error src_level_start_index lvl with
    | Some a => ret (a, None)
    | None => raise IndexError
    end.

(** Lines 125-132: the loop over [level_preserve]. *)
Fixpoint preserve_loop (src_level_start_index : list nat)
  (srcs : Srcs) (mask : Mask) (level_preserve : list nat)
  (new_srcs : list Srcs) (new_mask : list Mask)
  : exn + (list Srcs * list Mask) :=
  match level_preserve with
  | [] => ret (new_srcs, new_mask)
  | lvl :: rest =>
      bounds <- level_bounds src_level_start_index lvl ;;
      let s := slice_srcs srcs (fst bounds) (snd bounds) in
      bounds <- level_bounds src_level_start_index lvl ;;
      let m := slice_mask mask (fst bounds) (snd bounds) in
      preserve_loop src_level_start_index srcs mask rest
        (new_srcs ++ [s]) (new_mask ++ [m])
  end.

(** Lines 123-136.  After the loop, line 133 calls [paddle.to_tensor]
    with the keyword [device=src_level_start_index.device], a leftover of
    the PyTorch original.  The arguments are evaluated first: a tensor
    without an attribute [device] stops there with an AttributeError;
    otherwise the call is made, and [paddle.to_tensor], whose parameters
    are [data], [dtype], [place] and [stop_gradient], rejects the keyword
    with a TypeError.  Lines 134-136 are never reached, so the slicing has
    a result of no particular type. *)
Definition slice_levels {R : Type} (tensor_has_device : bool)
  (level_preserve : list nat) (srcs : Srcs) (mask : Mask)
  (src_level_start_index : list nat) : exn + R :=
  pieces <- preserve_loop src_level_start_index srcs mask level_preserve
              [] [] ;;
  if tensor_has_device then raise TypeError else raise AttributeError.

End Slicing.

Section Forward.

Context {logit Prompts Feat Srcs Mask Kwargs Loss : Type}.

(** A (bs, K) tensor of logits. *)
Definition Logits : Type := nat -> nat -> logit.

(** The [outputs] dictionary; ['bs_idx'] and ['cls_idx'] are present only
    when classes are selected. *)
Record Outputs : Type := {
  tgt_class : Feat;
  cls_label_logits : Logits;
  cls_output_feats : Feat;
  bs_idx : option (list nat);
  cls_idx : option (list nat)
}.

(** The layer and its collaborators: the decoder blocks, the classifiers,
    the criterion and the tensor primitives are external to the module and
    stand as fields. *)
Record Layer : Type := {
  training : bool;
  sigmoid : logit -> Q;
  (** number of class prompts, the second dimension of the logits *)
  K : nat;
  class_prompts_ : Prompts;
  convert_vector_ : option (Prompts -> Prompts);
  vector_ln : Prompts -> Prompts;
  (** [class_prompts.unsqueeze(0).tile([bs, 1, 1])] *)
  tile : Prompts -> nat -> Feat;
  (** [args.level_preserve]: the levels to keep, counted from 0 *)
  level_preserve : list nat;
  (** [kwargs['src_level_start_index']], [None] when the key is not in
      [kwargs] *)
  src_level_start_index : Kwargs -> option (list nat);
  (** whether the tensors of the framework have an attribute [device] *)
  tensor_has_device : bool;
  (** [srcs[:, a:b, :]], [srcs[:, a:, :]] and the same on the mask *)
  slice_srcs : Srcs -> nat -> option nat -> Srcs;
  slice_mask : Mask -> nat -> option nat -> Mask;
  (** [srcs.shape[0]] *)
  shape0 : Srcs -> nat;
  (** [self.prompt_blocks], [num_blocks] decoder layers *)
  prompt_blocks : list (Feat -> Srcs -> Mask -> Kwargs -> Feat);
  (** [self.classifier_label[lid](tgt_class, class_vector=...)], reshaped
      to [bs, -1] *)
  classifier_label : nat -> Feat -> Feat -> Logits;
  (** [self.criterion(outputs, aux_outputs, targets)] *)
  criterion : Outputs -> list Logits -> list Target.t -> Loss;
  retention_policy : option RetentionPolicy.Policy;
  (** [tgt_class[bs_idxs, cls_idxs]] *)
  gather : Feat -> list nat -> list nat -> Feat
}.

(** Python's [enumerate]. *)
Definition enumerate {A : Type} (l : list A) : list (nat * A) :=
  combine (seq 0 (length l)) l.

(** The variables the refinement loop updates: [tgt_class], [label_logits]
    (unbound before the first iteration), [output_label_logits] and
    [output_feats]. *)
Record LoopState : Type := {
  ls_tgt_class : Feat;
  ls_label_logits : option Logits;
  output_label_logits : list Logits;
  output_feats : list Feat
}.

(** Lines 149-154: one iteration. *)
Definition refine (self : Layer) (srcs : Srcs) (mask : Mask) (kwargs : Kwargs)
  (origin_class_vector : Feat) (st : LoopState)
  (it : nat * (Feat -> Srcs -> Mask -> Kwargs -> Feat)) : LoopState :=
  let '(lid, layer) := it in
  let tgt_class := layer (ls_tgt_class st) srcs mask kwargs in
  let label_logits := classifier_label self lid tgt_class origin_class_vector in
  {| ls_tgt_class := tgt_class;
     ls_label_logits := Some label_logits;
     output_label_logits := output_label_logits st ++ [label_logits];
     output_feats := output_feats st ++ [tgt_class] |}.

(** Line 166: [paddle.stack] of the forced probabilities of the records,
    a tensor with one row per record, given by its rows.  The framework
    rejects an empty list of tensors. *)
Definition stack_force_sample_probs (targets : list Target.t)
  : exn + list (nat -> Q) :=
  match targets with
  | [] => raise FrameworkError
  | _ :: _ => ret (map Target.force_sample_probs targets)
  end.

(** Line 167: [paddle.concat] of the [num_classes] of the records, a
    tensor with one entry per record.  The framework rejects an empty list
    of tensors. *)
Definition concat_num_classes (targets : list Target.t) : exn + list Z :=
  match targets with
  | [] => raise FrameworkError
  | _ :: _ => ret (map Target.num_classes targets)
  end.

(** Line 168: a tensor of the targets, given by its rows, as the
    retention policy meets it in its elementwise operations with the [bs]
    rows of the logits.  With one row per image, image [b] reads row [b];
    a single row is broadcast to every image; other numbers of rows are
    shapes the elementwise operations reject.  (A batch of one image with
    several records is not covered by the model, and is rejected too.)
    The value [d] is never read on an image of the batch. *)
Definition along_batch {A : Type} (bs : nat) (d : A) (rows : list A)
  : exn + (nat -> A) :=
  if length rows =? bs then ret (fun b => nth b rows d)
  else
    match rows with
    | [row] => ret (fun _ => row)
    | _ => raise FrameworkError
    end.

(** Lines 176-180. *)
Definition aux_outputs (output_label_logits : list Logits) : list Logits :=
  if 1 <? length output_label_logits
  then drop_last output_label_logits
  else [].

(** Lines 121-136: the sources, the mask and the keyword arguments the
    blocks run on.  The slicing is entered when levels are listed and the
    start index is among the keyword arguments; they are unchanged
    otherwise. *)
Definition level_inputs (self : Layer) (srcs : Srcs) (mask : Mask)
  (kwargs : Kwargs) : exn + (Srcs * Mask * Kwargs) :=
  if 0 <? length (level_preserve self) then
    match src_level_start_index self kwargs with
    | Some start =>
        slice_levels (slice_srcs self) (slice_mask self)
          (tensor_has_device self) (level_preserve self) srcs mask start
    | None => ret (srcs, mask, kwargs)
    end
  else ret (srcs, mask, kwargs).

(** Lines 139-144: the class prompts, tiled over the batch. *)
Definition tiled_prompts (self : Layer) (bs : nat) : Feat :=
  let class_prompts :=
    match convert_vector_ self with
    | Some convert_vector => vector_ln self (convert_vector (class_prompts_ self))
    | None => class_prompts_ self
    end in
  tile self class_prompts bs.

(** Lines 147-154: the refinement loop. *)
Definition refinement (self : Layer) (srcs : Srcs) (mask : Mask)
  (kwargs : Kwargs) (tgt_class : Feat) : LoopState :=
  let origin_class_vector := tgt_class in
  fold_left (refine self srcs mask kwargs origin_class_vector)
    (enumerate (prompt_blocks self))
    {| ls_tgt_class := tgt_class; ls_label_logits := None;
       output_label_logits := []; output_feats := [] |}.

(** Lines 120-180: everything up to the auxiliary outputs. *)
Definition organize (self : Layer) (srcs : Srcs) (mask : Mask)
  (targets : option (list Target.t)) (kwargs : Kwargs)
  : exn + (Outputs * list Logits) :=
  let bs := shape0 self srcs in
  sliced <- level_inputs self srcs mask kwargs ;;
  let '(srcs, mask, kwargs) := sliced in
  let tgt_class := tiled_prompts self bs in
  let st := refinement self srcs mask kwargs tgt_class in
  let tgt_class := ls_tgt_class st in
  main <- match index_neg2 (output_label_logits st) with
          | Some l => ret l
          | None => raise IndexError
          end ;;
  let outputs :=
    {| tgt_class := tgt_class; cls_label_logits := main;
       cls_output_feats := tgt_class; bs_idx := None; cls_idx := None |} in
  outputs <-
    match retention_policy self with
    | Some policy =>
        targets <- match targets with
                   | Some ts => ret ts
                   | None => raise TypeError
                   end ;;
        force_sample_probs <-
          (if training self
           then rows <- stack_force_sample_probs targets ;; ret (Some rows)
           else ret None) ;;
        num_classes <- concat_num_classes targets ;;
        label_logits <- match ls_label_logits st with
                        | Some l => ret l
                        | None => raise NameError
                        end ;;
        force_sample_probs <-
          match force_sample_probs with
          | Some rows =>
              forced <- along_batch bs (fun _ => 0%Q) rows ;;
              ret (Some forced)
          | None => ret None
          end ;;
        num_classes <- along_batch bs 0%Z num_classes ;;
        let '(bs_idxs, cls_idxs) :=
          RetentionPolicy.forward (sigmoid self) policy bs (K self)
            label_logits force_sample_probs (Some num_classes) in
        let return_tgts := gather self tgt_class bs_idxs cls_idxs in
        ret {| tgt_class := return_tgts; cls_label_logits := main;
               cls_output_feats := tgt_class;
               bs_idx := Some bs_idxs; cls_idx := Some cls_idxs |}
    | None => ret outputs
    end ;;
  ret (outputs, aux_outputs (output_label_logits st)).

(** Lines 115-187. *)
Definition forward (self : Layer) (srcs : Srcs) (mask : Mask)
  (targets : option (list Target.t)) (kwargs : Kwargs)
  : exn + (Outputs * Loss) :=
  packaged <- organize self srcs mask targets kwargs ;;
  let '(outputs, aux_outputs) := packaged in
  targets <- match targets with
             | Some ts => ret ts
             | None => raise AssertionError
             end ;;
  let loss_dict := criterion self outputs aux_outputs targets in
  ret (outputs, loss_dict).

(** *** Vocabulary: the refinement layers one by one *)

(** The slicing of the levels is not entered. *)
Definition slicing_skipped (self : Layer) (kwargs : Kwargs) : Prop :=
  level_preserve self = [] \/ src_level_start_index self kwargs = None.

(** The exception of the slicing, once entered with the start index
    [start]: IndexError when a listed level is not below the number of
    levels, the exception of line 133 otherwise. *)
Definition slicing_error (self : Layer) (start : list nat) : exn :=
  if existsb (fun lvl => length start <=? lvl) (level_preserve self)
  then IndexError
  else if tensor_has_device self then TypeError else AttributeError.

(** The targets hold one record per image of the batch. *)
Definition one_record_per_image (self : Layer) (srcs : Srcs)
  (targets : list Target.t) : Prop :=
  targets <> [] /\ length targets = shape0 self srcs.

(** The class vectors after the first [n] blocks, run on the sources, the
    mask and the keyword arguments as they are given. *)
Definition feats_after (self : Layer) (srcs : Srcs) (mask : Mask)
  (kwargs : Kwargs) (n : nat) : Feat :=
  fold_left (fun x layer => layer x srcs mask kwargs)
    (firstn n (prompt_blocks self))
    (tiled_prompts self (shape0 self srcs)).

(** The logits of refinement layer [lid], counted from 0: the classifier
    of that layer on the vectors the layer produced. *)
Definition layer_logits (self : Layer) (srcs : Srcs) (mask : Mask)
  (kwargs : Kwargs) (lid : nat) : Logits :=
  classifier_label self lid (feats_after self srcs mask kwargs (S lid))
    (tiled_prompts self (shape0 self srcs)).


(** The retention policy run on the logits of layer [lid], image [b]
    reading the forced probabilities (in training mode) and the
    [num_classes] of record [b] of the targets. *)
Definition selection_from (self : Layer) (srcs : Srcs) (mask : Mask)
  (kwargs : Kwargs) (lid : nat) (policy : RetentionPolicy.Policy)
  (targets : list Target.t) : list nat * list nat :=
  RetentionPolicy.forward (sigmoid self) policy (shape0 self srcs) (K self)
    (layer_logits self srcs mask kwargs lid)
    (if training self
     then Some (fun b => nth b (map Target.force_sample_probs targets)
                          (fun _ => 0%Q))
     else None)
    (Some (fun b => nth b (map Target.num_classes targets) 0%Z)).



End Forward.

End PromptIndicator.

(** ** Vocabulary and concrete inputs *)

Module Scenarios.

Import RetentionPolicy.

(** Class [i] comes before class [j] in the ranking of the row [p]: a
    larger probability first, the smaller index first among equals. *)
Definition ranks_before (p : nat -> Q) (i j : nat) : Prop :=
  (p j < p i)%Q \/ ((p i == p j)%Q /\ i <= j).

(** The sum of [n b] over the images [b < bs]. *)
Definition total (n : nat -> Z) (bs : nat) : Z :=
  fold_right Z.add 0%Z (map n (seq 0 bs)).

(** A rational stand-in for the logistic function on concrete inputs:
    increasing, with values strictly between 0 and 1, and equal to the
    logistic function at the logit 0, where both are 1/2. *)
Definition rational_sigmoid (x : Q) : Q :=
  ((1 # 2) + x / (2 * (1 + Qabs x)))%Q.

(** A tensor of logits that are all 0: every probability is 1/2. *)
Definition zero_logits : nat -> nat -> Q := fun _ _ => 0%Q.

(** The end-to-end scenario of the specification: B = 2, C = 5,
    threshold 0.5, min 1, max 3 in both modes. *)
Definition scenario_policy (training : bool) : Policy :=
  {| training := training;
     train_min_classes := 1; train_max_classes := 3;
     train_class_thr := 1 # 2;
     eval_min_classes := 1; eval_max_classes := 3;
     eval_class_thr := 1 # 2 |}.

Definition scenario_probs : nat -> nat -> Q :=
  tensor_of_rows 0%Q
    [[9 # 10; 1 # 10; 6 # 10; 4 # 10; 2 # 10];
     [5 # 100; 5 # 100; 5 # 100; 5 # 100; 5 # 100]]%Q.

(** Logits that [rational_sigmoid] sends to [scenario_probs]. *)
Definition scenario_logits : nat -> nat -> Q :=
  tensor_of_rows 0%Q
    [[4; -4; 1 # 4; - (1 # 4); - (3 # 2)];
     [-9; -9; -9; -9; -9]]%Q.

(** A policy whose configured minimum exceeds its maximum. *)
Definition inverted_policy : Policy :=
  {| training := true;
     train_min_classes := 3; train_max_classes := 1;
     train_class_thr := 1 # 2;
     eval_min_classes := 3; eval_max_classes := 1;
     eval_class_thr := 1 # 2 |}.

(** A [num_classes] tensor that gives every image five classes. *)
Definition five_classes : option (nat -> Z) := Some (fun _ => 5%Z).

(** A policy that keeps [m] classes whatever the logits, in both modes. *)
Definition pinned_policy (training : bool) (m : Z) : Policy :=
  {| training := training;
     train_min_classes := m; train_max_classes := m;
     train_class_thr := 1 # 2;
     eval_min_classes := m; eval_max_classes := m;
     eval_class_thr := 1 # 2 |}.

(** Forced probabilities that put all the weight on one class. *)
Definition force_class (k : nat) : nat -> nat -> Q :=
  fun _ c => if c =? k then 1%Q else 0%Q.

(** Forced probabilities that rule class 0 out, bring class 1 in and
    leave the other classes to the model. *)
Definition force_swap : nat -> nat -> Q :=
  fun _ c =>
    match c with
    | 0 => 0%Q
    | 1 => 1%Q
    | _ => (- (1))%Q
    end.

Import PromptIndicator.

(** A small prompt indicator over two classes.  The class vectors are the
    number of blocks they went through; the classifier of layer [lid]
    favours class [lid]; the loss is the number of auxiliary outputs. *)
Definition toy_layer (mode : bool) (policy : option Policy) (num_blocks : nat)
  : @Layer Q unit nat nat unit unit nat :=
  {| PromptIndicator.training := mode;
     sigmoid := rational_sigmoid;
     K := 2;
     class_prompts_ := tt;
     convert_vector_ := None;
     vector_ln := fun p => p;
     tile := fun _ _ => 0;
     level_preserve := [];
     src_level_start_index := fun _ => None;
     tensor_has_device := false;
     slice_srcs := fun srcs _ _ => srcs;
     slice_mask := fun mask _ _ => mask;
     shape0 := fun srcs => srcs;
     prompt_blocks := repeat (fun x _ _ _ => S x) num_blocks;
     classifier_label :=
       fun lid _ _ => fun _ c => if c =? lid then 4%Q else (- (4))%Q;
     criterion := fun _ aux _ => length aux;
     retention_policy := policy;
     gather := fun x _ _ => x |}.

(** The same prompt indicator with preserved levels; its keyword
    arguments are the start index of the levels, when there is one. *)
Definition level_layer (levels : list nat) (has_device : bool)
  (num_blocks : nat) : @Layer Q unit nat nat unit (option (list nat)) nat :=
  {| PromptIndicator.training := false;
     sigmoid := rational_sigmoid;
     K := 2;
     class_prompts_ := tt;
     convert_vector_ := None;
     vector_ln := fun p => p;
     tile := fun _ _ => 0;
     level_preserve := levels;
     src_level_start_index := fun kwargs => kwargs;
     tensor_has_device := has_device;
     slice_srcs := fun srcs _ _ => srcs;
     slice_mask := fun mask _ _ => mask;
     shape0 := fun srcs => srcs;
     prompt_blocks := repeat (fun x _ _ _ => S x) num_blocks;
     classifier_label :=
       fun lid _ _ => fun _ c => if c =? lid then 4%Q else (- (4))%Q;
     criterion := fun _ aux _ => length aux;
     retention_policy := None;
     gather := fun x _ _ => x |}.

(** One target record per image, with no forced class. *)
Definition toy_target : Target.t :=
  {| Target.force_sample_probs := fun _ => (- (1))%Q;
     Target.num_classes := 2%Z |}.

Definition toy_targets : list Target.t := [toy_target; toy_target].

(** A configuration of the class prompts that names a file of the first
    recognised format. *)
Definition pth_args (fixed : bool) (num_classes : nat) : CLASS_PROMPTS.args :=
  {| CLASS_PROMPTS.init_vectors := Some "class_prompts.pth"%string;
     CLASS_PROMPTS.fix_class_prompts := fixed;
     CLASS_PROMPTS.num_classes := num_classes |}.

End Scenarios.

(** ** Multi-scale levels: flattening *)

Module Levels.

Import PyList.

(** [cumsum(axis=0)] of a vector. *)
Fixpoint cumsum_from (acc : nat) (l : list nat) : list nat :=
  match l with
  | [] => []
  | x :: l' => (acc + x) :: cumsum_from (acc + x) l'
  end.

Definition cumsum (l : list nat) : list nat := cumsum_from 0 l.

(** A feature map or a mask of one level, read at the pixel (i, j); a
    value stands for everything the tensor holds at that pixel (all the
    images of the batch and, for features, all the channels). *)
Record Map (X : Type) : Type := {
  height : nat;
  width : nat;
  pixel : nat -> nat -> X
}.

(** [src.flatten(2).transpose([0, 2, 1])] and [mask.flatten(1)]: the
    pixels row by row. *)
Definition flatten {X : Type} (m : Map X) : list X :=
  flat_map (fun i => map (pixel m i) (seq 0 (width m))) (seq 0 (height m)).

(** What [Transformer.prepare_for_deformable] computes from the shapes
    alone (lines 111-132): the flattened tokens and mask, the spatial
    shapes and the start index of every level. *)
Record Flattened (X M : Type) : Type := {
  src_flatten : list X;
  mask_flatten : list M;
  spatial_shapes : list (nat * nat);
  level_start_index : list nat
}.

(** Lines 115-132 of [transformer.py], without the position embeddings.
    The levels are the pairs of [zip(srcs, masks)]; with no level the
    concatenation of no tensor fails, which is [None]. *)
Definition prepare_for_deformable {X M : Type}
  (srcs : list (Map X)) (masks : list (Map M)) : option (Flattened X M) :=
  match combine srcs masks with
  | [] => None
  | levels =>
      let spatial_shapes :=
        map (fun sm => (height (fst sm), width (fst sm))) levels in
      Some {| src_flatten := concat (map (fun sm => flatten (fst sm)) levels);
              mask_flatten := concat (map (fun sm => flatten (snd sm)) levels);
              spatial_shapes := spatial_shapes;
              level_start_index :=
                0 :: drop_last
                       (cumsum (map (fun hw => fst hw * snd hw)
                                  spatial_shapes)) |}
  end.

(** The start index of levels of the given sizes: 0, then the running
    sums of all sizes but the last. *)
Definition starts (sizes : list nat) : list nat :=
  0 :: drop_last (cumsum sizes).

(** The masks have, level by level, the shapes of the feature maps. *)
Definition same_shapes {X M : Type} (srcs : list (Map X))
  (masks : list (Map M)) : Prop :=
  Forall2 (fun s m => height s = height m /\ width s = width m) srcs masks.

(** The number of pixels of a level. *)
Definition area {X : Type} (m : Map X) : nat := height m * width m.

End Levels.

(** ** The transformer head *)

Module Transformer.

Import PyList.

(** A Python dictionary with string keys, read by key. *)
Definition dict (V : Type) : Type := string -> option V.

Definition empty {V : Type} : dict V := fun _ => None.

(** [d.update(d')]: the entries of [d'] replace those of [d]. *)
Definition update {V : Type} (d d' : dict V) : dict V :=
  fun key =>
    match d' key with
    | Some v => Some v
    | None => d key
    end.

(** [get_valid_ratio] (lines 80-92) on a mask of shape (bs, H, W) with
    integer entries: per image, the ratios along the width and the height
    of the entries equal to 0 in the first row and in the first column.
    Division is exact division of rationals. *)
Section ValidRatio.

Variables bs H W : nat.
Variable mask : nat -> nat -> nat -> Z.

(** All the entries of the mask. *)
Definition entries : list Z :=
  flat_map (fun b =>
    flat_map (fun i => map (mask b i) (seq 0 W)) (seq 0 H)) (seq 0 bs).

(** [len(mask.unique())]. *)
Definition unique_count : nat := length (nodup Z.eq_dec entries).

Definition valid_H (b : nat) : Z :=
  fold_right Z.add 0%Z (map (fun i => (1 - mask b i 0)%Z) (seq 0 H)).

Definition valid_W (b : nat) : Z :=
  fold_right Z.add 0%Z (map (fun j => (1 - mask b 0 j)%Z) (seq 0 W)).

(** The result at image [b]: [(valid_ratio_w, valid_ratio_h)].  Reading
    column 0 or row 0 of a mask without columns or rows is an
    IndexError. *)
Definition get_valid_ratio
  : PromptIndicator.exn + (nat -> Q * Q) :=
  if negb (unique_count <=? 2) then inl PromptIndicator.AssertionError
  else if (W =? 0) || (H =? 0) then inl PromptIndicator.IndexError
  else inr (fun b =>
              (Qmake (valid_W b) (Pos.of_nat W),
               Qmake (valid_H b) (Pos.of_nat H))).

End ValidRatio.

Section Forward.

Context {logit Prompts Feat Src Msk Srcs Mask EncKw ClsKw ObjKw Ext L E
         : Type}.

(** The values of the [outputs] dictionary. *)
Inductive Value : Type :=
| VFeat (x : Feat)
| VLogits (x : @PromptIndicator.Logits logit)
| VIdx (x : list nat)
| VExt (x : Ext).

(** An exception of the prompt indicator, or one of a collaborator. *)
Inductive failure : Type :=
| Raised (e : PromptIndicator.exn)
| External (e : E).

Definition bindf {A B : Type} (m : failure + A) (k : A -> failure + B)
  : failure + B :=
  match m with
  | inl e => inl e
  | inr a => k a
  end.

(** [additional_object_inputs] (lines 64-69). *)
Record Additional : Type := {
  bs_idx : option (list nat);
  cls_idx : option (list nat);
  class_vector : Feat;
  previous_logits : @PromptIndicator.Logits logit
}.

(** The layer and its collaborators: the preparation of the inputs, the
    encoder and the object decoder are external and stand as fields;
    [None] is an absent component. *)
Record Model : Type := {
  prepare_for_deformable :
    list Src -> list Msk -> failure + (Srcs * Mask * EncKw * ClsKw * ObjKw);
  encoder : option (Srcs -> Mask -> EncKw -> failure + Srcs);
  prompt_indicator :
    option (@PromptIndicator.Layer logit Prompts Feat Srcs Mask ClsKw (dict L));
  object_decoder :
    option (Srcs -> Mask -> option (list PromptIndicator.Target.t) ->
            option Additional -> ObjKw -> failure + (dict Value * dict L))
}.

(** The outputs of the prompt indicator as a dictionary. *)
Definition to_dict
  (o : @PromptIndicator.Outputs logit Feat) : dict Value :=
  fun key =>
    if String.eqb key "tgt_class"
    then Some (VFeat (PromptIndicator.tgt_class o))
    else if String.eqb key "cls_label_logits"
    then Some (VLogits (PromptIndicator.cls_label_logits o))
    else if String.eqb key "cls_output_feats"
    then Some (VFeat (PromptIndicator.cls_output_feats o))
    else if String.eqb key "bs_idx"
    then option_map VIdx (PromptIndicator.bs_idx o)
    else if String.eqb key "cls_idx"
    then option_map VIdx (PromptIndicator.cls_idx o)
    else None.

(** Lines 64-69, read on the outputs of the prompt indicator, the only
    entries of [outputs] at that point. *)
Definition additional_object_inputs
  (o : @PromptIndicator.Outputs logit Feat) : Additional :=
  {| bs_idx := PromptIndicator.bs_idx o;
     cls_idx := PromptIndicator.cls_idx o;
     class_vector := PromptIndicator.tgt_class o;
     previous_logits := PromptIndicator.cls_label_logits o |}.

(** [Transformer.forward] (lines 50-78).  [srcs[0]] on an empty list is an
    IndexError; an absent prompt indicator leaves the additional inputs
    empty, which is [None]. *)
Definition forward (self : Model) (srcs : list Src) (masks : list Msk)
  (targets : option (list PromptIndicator.Target.t))
  : failure + (dict Value * dict L) :=
  bindf (match srcs with
         | [] => inl (Raised PromptIndicator.IndexError)
         | _ :: _ => inr tt
         end) (fun _ =>
  bindf (prepare_for_deformable self srcs masks) (fun prepared =>
  let '(srcs, mask, enc_kwargs, cls_kwargs, obj_kwargs) := prepared in
  bindf (match encoder self with
         | Some enc => enc srcs mask enc_kwargs
         | None => inr srcs
         end) (fun srcs =>
  bindf (match prompt_indicator self with
         | Some indicator =>
             match PromptIndicator.forward indicator srcs mask targets
                     cls_kwargs with
             | inl e => inl (Raised e)
             | inr (cls_outputs, cls_loss_dict) =>
                 inr (update empty (to_dict cls_outputs),
                      update empty cls_loss_dict,
                      Some (additional_object_inputs cls_outputs))
             end
         | None => inr (empty, empty, None)
         end) (fun state =>
  let '(outputs, loss_dict, additional) := state in
  match object_decoder self with
  | Some decoder =>
      bindf (decoder srcs mask targets additional obj_kwargs) (fun decoded =>
      let '(obj_outputs, obj_loss_dict) := decoded in
      inr (update outputs obj_outputs, update loss_dict obj_loss_dict))
  | None => inr (outputs, loss_dict)
  end)))).

End Forward.

End Transformer.

(** ** The residual backbone: how the network is assembled *)

Module ResNet.

(** The Python exceptions raised by [_resnet.py]. *)
Inductive exn : Type :=
| ValueError
| NotImplementedError
| IndexError.

Definition bind {A B : Type} (m : exn + A) (k : A -> exn + B) : exn + B :=
  match m with
  | inl e => inl e
  | inr a => k a
  end.

Notation "x <- m ;; k" := (bind m (fun x => k))
  (at level 61, m at next level, right associativity).

Definition raise {A : Type} (e : exn) : exn + A := inl e.
Definition ret {A : Type} (a : A) : exn + A := inr a.

(** A dictionary of keyword arguments with integer values, in insertion
    order. *)
Definition kwargs : Type := list (string * Z).

Fixpoint lookup (d : kwargs) (param : string) : option Z :=
  match d with
  | [] => None
  | (key, v) :: d' => if String.eqb key param then Some v else lookup d' param
  end.

(** [_ovewrite_named_param] (lines 81-86): the dictionary after the
    call. *)
Definition _ovewrite_named_param (d : kwargs) (param : string)
  (new_value : Z) : exn + kwargs :=
  match lookup d param with
  | Some v => if negb (v =? new_value)%Z then raise ValueError else ret d
  | None => ret (d ++ [(param, new_value)])
  end.

(** The arguments of an [nn.Conv2D].  The constructors of the framework
    ([nn.Conv2D], [nn.BatchNorm2D], [nn.Linear]) are taken to build the
    layer they are asked for: the record holds the arguments as given.
    The framework itself rejects sizes that are not positive and groups
    that do not divide the channels; statements about what is built keep
    to positive sizes. *)
Record Conv : Type := {
  in_channels : Z;
  out_channels : Z;
  kernel_size : Z;
  stride : Z;
  padding : Z;
  groups : Z;
  dilation : Z
}.

(** Lines 190-201. *)
Definition conv3x3 (in_planes out_planes stride groups dilation : Z) : Conv :=
  {| in_channels := in_planes; out_channels := out_planes;
     kernel_size := 3; stride := stride; padding := dilation;
     groups := groups; dilation := dilation |}.

(** Lines 204-206. *)
Definition conv1x1 (in_planes out_planes stride : Z) : Conv :=
  {| in_channels := in_planes; out_channels := out_planes;
     kernel_size := 1; stride := stride; padding := 0;
     groups := 1; dilation := 1 |}.

Inductive Kind : Type :=
| BasicBlock
| Bottleneck.

Definition expansion (block : Kind) : Z :=
  match block with
  | BasicBlock => 1
  | Bottleneck => 4
  end.

(** [nn.Sequential(conv1x1(...), norm_layer(...))] on the identity path:
    the convolution and the channels of the norm. *)
Record Downsample : Type := {
  ds_conv : Conv;
  ds_norm : Z
}.

(** A residual block: its convolutions in the order [forward] applies
    them, the channels of the norm after each, the downsample of the
    identity path and the [stride] attribute. *)
Record Block : Type := {
  kind : Kind;
  convs : list Conv;
  norms : list Z;
  downsample : option Downsample;
  block_stride : Z
}.

(** [BasicBlock.__init__] (lines 212-237). *)
Definition new_BasicBlock (inplanes planes stride : Z)
  (downsample : option Downsample) (groups base_width dilation : Z)
  : exn + Block :=
  if negb (groups =? 1)%Z || negb (base_width =? 64)%Z then raise ValueError
  else if (dilation >? 1)%Z then raise NotImplementedError
  else ret {| kind := BasicBlock;
              convs := [conv3x3 inplanes planes stride 1 1;
                        conv3x3 planes planes 1 1 1];
              norms := [planes; planes];
              downsample := downsample;
              block_stride := stride |}.

(** [Bottleneck.__init__] (lines 267-291).  [int(planes * (base_width /
    64.0))] divides by a power of two and truncates: it is the quotient of
    [planes * base_width] by 64, rounded towards zero, as long as the
    product is exact in double precision. *)
Definition new_Bottleneck (inplanes planes stride : Z)
  (downsample : option Downsample) (groups base_width dilation : Z)
  : exn + Block :=
  let width := (Z.quot (planes * base_width) 64 * groups)%Z in
  ret {| kind := Bottleneck;
         convs := [conv1x1 inplanes width 1;
                   conv3x3 width width stride groups dilation;
                   conv1x1 width (planes * 4) 1];
         norms := [width; width; (planes * 4)%Z];
         downsample := downsample;
         block_stride := stride |}.

Definition new_block (block : Kind) : Z -> Z -> Z -> option Downsample ->
                                      Z -> Z -> Z -> exn + Block :=
  match block with
  | BasicBlock => new_BasicBlock
  | Bottleneck => new_Bottleneck
  end.

(** The attributes of the network that [_make_layer] reads and updates. *)
Record State : Type := {
  s_inplanes : Z;
  s_dilation : Z;
  s_groups : Z;
  s_base_width : Z
}.

(** The loop of lines 403-413: [count] more blocks, all alike. *)
Fixpoint more_blocks (count : nat) (make : exn + Block) : exn + list Block :=
  match count with
  | O => ret []
  | S count' =>
      b <- make ;;
      rest <- more_blocks count' make ;;
      ret (b :: rest)
  end.

(** [ResNet._make_layer] (lines 376-415): the blocks of the stage and the
    updated attributes.  [range(1, blocks)] runs [blocks - 1] times, and
    not at all when [blocks <= 1]. *)
Definition _make_layer (self : State) (block : Kind) (planes blocks : Z)
  (stride : Z) (dilate : bool) : exn + (list Block * State) :=
  let previous_dilation := s_dilation self in
  let '(dilation, stride) :=
    if dilate then ((s_dilation self * stride)%Z, 1%Z)
    else (s_dilation self, stride) in
  let downsample :=
    if negb (stride =? 1)%Z
       || negb (s_inplanes self =? planes * expansion block)%Z
    then Some {| ds_conv := conv1x1 (s_inplanes self)
                              (planes * expansion block) stride;
                 ds_norm := (planes * expansion block)%Z |}
    else None in
  first <- new_block block (s_inplanes self) planes stride downsample
             (s_groups self) (s_base_width self) previous_dilation ;;
  let inplanes := (planes * expansion block)%Z in
  rest <- more_blocks (Z.to_nat (blocks - 1))
            (new_block block inplanes planes 1 None
               (s_groups self) (s_base_width self) dilation) ;;
  ret (first :: rest,
       {| s_inplanes := inplanes; s_dilation := dilation;
          s_groups := s_groups self; s_base_width := s_base_width self |}).

(** Python's [l[i]] on a list, for an index that is not negative. *)
Definition index {A : Type} (l : list A) (i : nat) : exn + A :=
  match nth_error l i with
  | Some a => ret a
  | None => raise IndexError
  end.

(** The assembled network: the stem convolution, the four stages, the
    input and output sizes of the classifier, and the final attributes. *)
Record Net : Type := {
  conv1 : Conv;
  bn1 : Z;
  layer1 : list Block;
  layer2 : list Block;
  layer3 : list Block;
  layer4 : list Block;
  fc : Z * Z;
  final : State
}.

(** [ResNet.__init__] (lines 317-374), without the values of the weights:
    the initialisation loops change no shape. *)
Definition new_ResNet (block : Kind) (layers : list Z) (num_classes : Z)
  (groups width_per_group : Z)
  (replace_stride_with_dilation : option (list bool)) : exn + Net :=
  let self := {| s_inplanes := 64; s_dilation := 1;
                 s_groups := groups; s_base_width := width_per_group |} in
  let replace_stride_with_dilation :=
    match replace_stride_with_dilation with
    | None => [false; false; false]
    | Some l => l
    end in
  if negb (length replace_stride_with_dilation =? 3) then raise ValueError
  else
    let conv1 := {| in_channels := 3; out_channels := s_inplanes self;
                    kernel_size := 7; stride := 2; padding := 3;
                    groups := 1; dilation := 1 |} in
    let bn1 := s_inplanes self in
    n0 <- index layers 0 ;;
    made <- _make_layer self block 64 n0 1 false ;;
    let '(layer1, self) := made in
    n1 <- index layers 1 ;;
    r0 <- index replace_stride_with_dilation 0 ;;
    made <- _make_layer self block 128 n1 2 r0 ;;
    let '(layer2, self) := made in
    n2 <- index layers 2 ;;
    r1 <- index replace_stride_with_dilation 1 ;;
    made <- _make_layer self block 256 n2 2 r1 ;;
    let '(layer3, self) := made in
    n3 <- index layers 3 ;;
    r2 <- index replace_stride_with_dilation 2 ;;
    made <- _make_layer self block 512 n3 2 r2 ;;
    let '(layer4, self) := made in
    ret {| conv1 := conv1; bn1 := bn1;
           layer1 := layer1; layer2 := layer2;
           layer3 := layer3; layer4 := layer4;
           fc := ((512 * expansion block)%Z, num_classes);
           final := self |}.

(** *** Vocabulary: shapes along the network *)

(** The channels a block reads and the channels it writes. *)
Definition block_in (b : Block) : Z :=
  match convs b with
  | c :: _ => in_channels c
  | [] => 0%Z
  end.

Definition block_out (b : Block) : Z :=
  last (map out_channels (convs b)) 0%Z.

(** The stride of the main path of a block, and of a stage. *)
Definition path_stride (b : Block) : Z :=
  fold_right Z.mul 1%Z (map stride (convs b)).

Definition stage_stride (blocks : list Block) : Z :=
  fold_right Z.mul 1%Z (map path_stride blocks).

(** Inside a block every convolution reads the channels the previous one
    writes, and every norm has the channels of its convolution. *)
Fixpoint convs_chained (cin : Z) (cs : list Conv) : Prop :=
  match cs with
  | [] => True
  | c :: cs' => in_channels c = cin /\ convs_chained (out_channels c) cs'
  end.

(** [out += identity] adds tensors of the same shape: the identity path
    has the channels and the stride of the main path. *)
Definition residual_fits (b : Block) : Prop :=
  match downsample b with
  | None => block_in b = block_out b /\ path_stride b = 1%Z
  | Some d =>
      in_channels (ds_conv d) = block_in b
      /\ out_channels (ds_conv d) = block_out b
      /\ ds_norm d = block_out b
      /\ stride (ds_conv d) = path_stride b
  end.

Definition block_fits (b : Block) : Prop :=
  convs_chained (block_in b) (convs b)
  /\ norms b = map out_channels (convs b)
  /\ residual_fits b.

(** The blocks of a sequence feed one another, from [cin] channels to
    [cout] channels. *)
Fixpoint chained (cin : Z) (blocks : list Block) (cout : Z) : Prop :=
  match blocks with
  | [] => cin = cout
  | b :: rest => block_in b = cin /\ chained (block_out b) rest cout
  end.

(** What the framework asks of the arguments of a convolution: positive
    channels, and positive groups that divide them. *)
Definition conv_accepted (c : Conv) : Prop :=
  (0 < in_channels c)%Z /\ (0 < out_channels c)%Z /\ (0 < groups c)%Z
  /\ (in_channels c mod groups c = 0)%Z
  /\ (out_channels c mod groups c = 0)%Z.

(** The flags of the three strided stages: the default when none is
    given. *)
Definition flags_of (replace_stride_with_dilation : option (list bool))
  : list bool :=
  match replace_stride_with_dilation with
  | None => [false; false; false]
  | Some l => l
  end.

(** The attributes of a network before its first stage. *)
Definition initial (groups width_per_group : Z) : State :=
  {| s_inplanes := 64; s_dilation := 1;
     s_groups := groups; s_base_width := width_per_group |}.

(** All the residual blocks of a network, in order. *)
Definition blocks_of (net : Net) : list Block :=
  layer1 net ++ layer2 net ++ layer3 net ++ layer4 net.

(** The number of [True] among the flags, as a power of two. *)
Definition dilation_of (flags : list bool) : Z :=
  fold_right (fun (f : bool) acc => if f then (2 * acc)%Z else acc) 1%Z flags.

End ResNet.

(** ** Further concrete inputs *)

Module Examples.

Import Levels.

(** Two feature levels, of shapes 1 x 2 and 2 x 1, whose pixels are
    numbered level by level, and their masks, which pad nothing. *)
Definition level0 : Map nat :=
  {| height := 1; width := 2; pixel := fun i j => 2 * i + j |}.

Definition level1 : Map nat :=
  {| height := 2; width := 1; pixel := fun i j => 10 + i + j |}.

Definition mask0 : Map bool :=
  {| height := 1; width := 2; pixel := fun _ _ => false |}.

Definition mask1 : Map bool :=
  {| height := 2; width := 1; pixel := fun _ _ => false |}.

Definition two_levels : list (Map nat) := [level0; level1].
Definition two_masks : list (Map bool) := [mask0; mask1].

(** The flattening of the two levels. *)
Definition two_flat : Flattened nat bool :=
  {| src_flatten := [0; 1; 10; 11];
     mask_flatten := [false; false; false; false];
     spatial_shapes := [(1, 2); (2, 1)];
     level_start_index := [0; 2] |}.

(** A prompt indicator as [Scenarios.toy_layer], whose criterion returns
    a dictionary with the number of auxiliary outputs under ["loss_ce"]. *)
Definition toy_indicator (mode : bool)
  (policy : option RetentionPolicy.Policy) (num_blocks : nat)
  : @PromptIndicator.Layer Q unit nat nat unit unit (Transformer.dict nat) :=
  {| PromptIndicator.training := mode;
     PromptIndicator.sigmoid := Scenarios.rational_sigmoid;
     PromptIndicator.K := 2;
     PromptIndicator.class_prompts_ := tt;
     PromptIndicator.convert_vector_ := None;
     PromptIndicator.vector_ln := fun p => p;
     PromptIndicator.tile := fun _ _ => 0;
     PromptIndicator.level_preserve := [];
     PromptIndicator.src_level_start_index := fun _ => None;
     PromptIndicator.tensor_has_device := false;
     PromptIndicator.slice_srcs := fun srcs _ _ => srcs;
     PromptIndicator.slice_mask := fun mask _ _ => mask;
     PromptIndicator.shape0 := fun srcs => srcs;
     PromptIndicator.prompt_blocks := repeat (fun x _ _ _ => S x) num_blocks;
     PromptIndicator.classifier_label :=
       fun lid _ _ => fun _ c => if c =? lid then 4%Q else (- (4))%Q;
     PromptIndicator.criterion :=
       fun _ aux _ => fun key =>
         if String.eqb key "loss_ce" then Some (length aux) else None;
     PromptIndicator.retention_policy := policy;
     PromptIndicator.gather := fun x _ _ => x |}.

(** A transformer head without encoder, with that prompt indicator and an
    object decoder that reports how many class vectors it was given. *)
Definition toy_model (mode : bool) (policy : option RetentionPolicy.Policy)
  (num_blocks : nat)
  : @Transformer.Model Q unit nat unit unit nat unit unit unit unit nat nat
      unit :=
  {| Transformer.prepare_for_deformable :=
       fun _ _ => inr (2, tt, tt, tt, tt);
     Transformer.encoder := None;
     Transformer.prompt_indicator :=
       Some (toy_indicator mode policy num_blocks);
     Transformer.object_decoder :=
       Some (fun _ _ _ info _ =>
               inr (fun key =>
                      if String.eqb key "num_queries" then
                        Some (Transformer.VExt
                                match info with
                                | Some a =>
                                    match Transformer.cls_idx a with
                                    | Some idx => length idx
                                    | None => 0
                                    end
                                | None => 0
                                end)
                      else None,
                    Transformer.empty)) |}.

(** [resnet50()] and [resnet18()] with their default arguments, and
    [resnet50(replace_stride_with_dilation=[False, True, True])]. *)
Definition resnet50 : ResNet.exn + ResNet.Net :=
  ResNet.new_ResNet ResNet.Bottleneck [3; 4; 6; 3]%Z 1000 1 64 None.


Definition resnet50_dilated : ResNet.exn + ResNet.Net :=
  ResNet.new_ResNet ResNet.Bottleneck [3; 4; 6; 3]%Z 1000 1 64
    (Some [false; true; true]).

(** The network of a construction that succeeded; a network without
    blocks otherwise. *)
Definition built (r : ResNet.exn + ResNet.Net) : ResNet.Net :=
  match r with
  | inr net => net
  | inl _ =>
      {| ResNet.conv1 := ResNet.conv1x1 0 0 0; ResNet.bn1 := 0;
         ResNet.layer1 := []; ResNet.layer2 := [];
         ResNet.layer3 := []; ResNet.layer4 := [];
         ResNet.fc := (0%Z, 0%Z);
         ResNet.final := ResNet.initial 0 0 |}
  end.

(** A mask of shape (1, 2, 3) whose last column is padded. *)
Definition padded_mask : nat -> nat -> nat -> Z :=
  fun _ _ j => if j =? 2 then 1%Z else 0%Z.

End Examples.

(** * Properties *)

(** ** Lists, slices and sorting *)

Module PyListFacts.

Import PyList.

Section SortFacts.

Variable A : Type.
Variable leb : A -> A -> bool.

Lemma insert_perm (x : A) (l : list A) : Permutation (insert leb x l) (x :: l).
Proof.
  induction l as [|y l IH]; simpl.
  - apply Permutation_refl.
  - destruct (leb x y).
    + apply Permutation_refl.
    + eapply perm_trans; [apply perm_skip, IH | apply perm_swap].
Qed.

Lemma sort_perm (l : list A) : Permutation (sort leb l) l.
Proof.
  induction l as [|x l IH]; simpl.
  - constructor.
  - eapply perm_trans; [apply insert_perm | apply perm_skip, IH].
Qed.

Lemma sort_length (l : list A) : length (sort leb l) = length l.
Proof. apply Permutation_length, sort_perm. Qed.

Lemma sort_In (l : list A) (x : A) : In x (sort leb l) <-> In x l.
Proof.
  split; apply Permutation_in;
    [apply sort_perm | apply Permutation_sym, sort_perm].
Qed.

(** On a domain [P] where [leb] is total and transitive, sorting gives a
    list in which every element is [leb]-before all the later ones. *)
Variable P : A -> Prop.
Hypothesis leb_total : forall x y, P x -> P y -> leb x y = false -> leb y x = true.
Hypothesis leb_trans :
  forall x y z, P x -> P y -> P z ->
    leb x y = true -> leb y z = true -> leb x z = true.

Let R (x y : A) : Prop := leb x y = true.

Lemma insert_sorted (x : A) (l : list A) :
  P x -> Forall P l ->
  StronglySorted R l -> StronglySorted R (insert leb x l).
Proof.
  intros Px Pl Hs.
  induction Hs as [|y l Hs IH Hy]; simpl.
  - repeat constructor.
  - inversion Pl as [|? ? Py Pl']; subst.
    destruct (leb x y) eqn:E.
    + constructor; [constructor; assumption|].
      constructor; [exact E|].
      rewrite Forall_forall in *. intros z Hz.
      apply (leb_trans (y := y)); auto. apply Hy, Hz.
    + constructor; [apply IH; assumption|].
      rewrite Forall_forall in *. intros z Hz.
      apply (Permutation_in _ (insert_perm x l)) in Hz.
      destruct Hz as [<-|Hz]; [apply leb_total; auto | apply Hy, Hz].
Qed.

Lemma sort_sorted (l : list A) : Forall P l -> StronglySorted R (sort leb l).
Proof.
  induction l as [|x l IH]; simpl; intros Pl.
  - constructor.
  - inversion Pl as [|? ? Px Pl']; subst.
    apply insert_sorted; [exact Px | | apply IH, Pl'].
    rewrite Forall_forall in *. intros z Hz. apply (proj1 (sort_In l z)) in Hz. auto.
Qed.

End SortFacts.

(** Sorting reads [leb] only on the elements of the list. *)
Lemma insert_ext_in (A : Type) (leb1 leb2 : A -> A -> bool) (x : A) (l : list A) :
  (forall y, In y l -> leb1 x y = leb2 x y) ->
  insert leb1 x l = insert leb2 x l.
Proof.
  induction l as [|y l IH]; simpl; intros H; [reflexivity|].
  rewrite (H y) by auto.
  destruct (leb2 x y); [reflexivity|].
  f_equal. apply IH. auto.
Qed.

Lemma sort_ext_in (A : Type) (leb1 leb2 : A -> A -> bool) (l : list A) :
  (forall x y, In x l -> In y l -> leb1 x y = leb2 x y) ->
  sort leb1 l = sort leb2 l.
Proof.
  induction l as [|x l IH]; simpl; intros H; [reflexivity|].
  rewrite IH by auto.
  apply insert_ext_in.
  intros y Hy. apply (proj1 (sort_In leb2 l y)) in Hy. auto.
Qed.

(** *** Strictly increasing lists of naturals *)

Lemma increasing_unique (l1 l2 : list nat) :
  StronglySorted lt l1 -> StronglySorted lt l2 ->
  (forall x, In x l1 <-> In x l2) -> l1 = l2.
Proof.
  intros H1. revert l2.
  induction H1 as [|a l1 H1 IH Ha]; intros l2 H2 Hin.
  - destruct l2 as [|b l2]; [reflexivity|].
    exfalso. apply (proj2 (Hin b)). left. reflexivity.
  - destruct H2 as [|b l2 H2 Hb].
    + exfalso. apply (proj1 (Hin a)). left. reflexivity.
    + rewrite Forall_forall in Ha, Hb.
      assert (a = b) as ->.
      { destruct (proj1 (Hin a) (or_introl eq_refl)) as [E|E]; [auto|].
        destruct (proj2 (Hin b) (or_introl eq_refl)) as [E'|E']; [auto|].
        apply Hb in E. apply Ha in E'. lia. }
      f_equal. apply IH; [assumption|].
      intros x. split; intros Hx.
      * destruct (proj1 (Hin x) (or_intror Hx)) as [E|E]; [|exact E].
        subst x. apply Ha in Hx. lia.
      * destruct (proj2 (Hin x) (or_intror Hx)) as [E|E]; [|exact E].
        subst x. apply Hb in Hx. lia.
Qed.

Lemma seq_increasing (s n : nat) : StronglySorted lt (seq s n).
Proof.
  revert s. induction n as [|n IH]; intros s; simpl; constructor.
  - apply IH.
  - rewrite Forall_forall. intros x Hx. apply in_seq in Hx. lia.
Qed.

Lemma sorted_le_NoDup_lt (l : list nat) :
  StronglySorted (fun x y => (x <=? y) = true) l -> NoDup l ->
  StronglySorted lt l.
Proof.
  induction 1 as [|a l Hs IH Ha]; intros Hnd; constructor.
  - apply IH. inversion Hnd; assumption.
  - inversion Hnd as [|? ? Hnotin _]; subst.
    rewrite Forall_forall in *. intros x Hx.
    specialize (Ha x Hx). apply Nat.leb_le in Ha.
    assert (a <> x) by (intros ->; contradiction). lia.
Qed.

Lemma sort_leb_sorted (l : list nat) :
  StronglySorted (fun x y => (x <=? y) = true) (sort Nat.leb l).
Proof.
  apply sort_sorted with (P := fun _ => True).
  - intros x y _ _ H. apply Nat.leb_gt in H. apply Nat.leb_le. lia.
  - intros x y z _ _ _ H1 H2. apply Nat.leb_le in H1, H2. apply Nat.leb_le. lia.
  - rewrite Forall_forall. auto.
Qed.

Lemma sort_leb_increasing (l : list nat) :
  NoDup l -> StronglySorted lt (sort Nat.leb l).
Proof.
  intros Hnd. apply sorted_le_NoDup_lt; [apply sort_leb_sorted|].
  apply (Permutation_NoDup (Permutation_sym (sort_perm Nat.leb l)) Hnd).
Qed.

(** *** Slices *)

Lemma firstn_NoDup (A : Type) (n : nat) (l : list A) :
  NoDup l -> NoDup (firstn n l).
Proof.
  intros H. rewrite <- (firstn_skipn n l) in H.
  apply NoDup_app_remove_r in H. exact H.
Qed.

Lemma firstn_In (A : Type) (n : nat) (l : list A) (x : A) :
  In x (firstn n l) -> In x l.
Proof.
  intros H. rewrite <- (firstn_skipn n l). apply in_or_app. left. exact H.
Qed.

Lemma slice_to_In (A : Type) (l : list A) (n : Z) (x : A) :
  In x (slice_to l n) -> In x l.
Proof. unfold slice_to. destruct (n <? 0)%Z; apply firstn_In. Qed.

Lemma slice_to_NoDup (A : Type) (l : list A) (n : Z) :
  NoDup l -> NoDup (slice_to l n).
Proof. unfold slice_to. destruct (n <? 0)%Z; apply firstn_NoDup. Qed.

(** A non-negative bound keeps [min n (len l)] elements. *)
Lemma slice_to_length (A : Type) (l : list A) (n : Z) :
  (0 <= n)%Z ->
  Z.of_nat (length (slice_to l n)) = Z.min n (Z.of_nat (length l)).
Proof.
  intros Hn. unfold slice_to.
  destruct (Z.ltb_spec n 0); [lia|].
  rewrite length_firstn. lia.
Qed.

Lemma slice_to_zero (A : Type) (l : list A) : slice_to l 0 = [].
Proof. reflexivity. Qed.

Lemma slice_to_all (A : Type) (l : list A) :
  slice_to l (Z.of_nat (length l)) = l.
Proof.
  unfold slice_to. destruct (Z.ltb_spec (Z.of_nat (length l)) 0); [lia|].
  rewrite Nat2Z.id. apply firstn_all.
Qed.

End PyListFacts.

(** ** The retention policy *)

Module RetentionPolicyFacts.

Import PyList PyListFacts RetentionPolicy Scenarios.

(** *** The ranking *)

Lemma ranked_before_spec (p : nat -> Q) (i j : nat) :
  ranked_before p i j = true <-> ranks_before p i j.
Proof.
  unfold ranked_before, ranks_before.
  rewrite orb_true_iff, andb_true_iff, negb_true_iff, Qeq_bool_iff, Nat.leb_le.
  split; (intros [H|H]; [left|right; exact H]).
  - apply Qnot_le_lt. intros Hle. apply Qle_bool_iff in Hle. congruence.
  - destruct (Qle_bool (p i) (p j)) eqn:E; [|reflexivity].
    apply Qle_bool_iff in E. lra.
Qed.

Lemma ranked_before_total (p : nat -> Q) (i j : nat) :
  ranked_before p i j = false -> ranked_before p j i = true.
Proof.
  intros H. apply ranked_before_spec.
  assert (Hn : ~ ranks_before p i j).
  { intros C. apply ranked_before_spec in C. congruence. }
  unfold ranks_before in *.
  destruct (Qlt_le_dec (p i) (p j)) as [Hlt|Hle]; [left; exact Hlt|].
  destruct (Qlt_le_dec (p j) (p i)) as [Hlt'|Hle']; [exfalso; auto|].
  right. split; [lra|].
  destruct (Nat.le_gt_cases i j) as [Hij|Hij]; [|lia].
  exfalso. apply Hn. right. split; [lra | exact Hij].
Qed.

Lemma ranked_before_trans (p : nat -> Q) (i j k : nat) :
  ranked_before p i j = true -> ranked_before p j k = true ->
  ranked_before p i k = true.
Proof.
  rewrite !ranked_before_spec. unfold ranks_before.
  intros [H1|[H1 H1']] [H2|[H2 H2']].
  - left. lra.
  - left. lra.
  - left. lra.
  - right. split; [lra | lia].
Qed.

Lemma argsort_perm (K : nat) (p : nat -> Q) :
  Permutation (argsort_descending K p) (seq 0 K).
Proof. apply sort_perm. Qed.

Lemma argsort_length (K : nat) (p : nat -> Q) :
  length (argsort_descending K p) = K.
Proof. unfold argsort_descending. rewrite sort_length. apply length_seq. Qed.

Lemma argsort_NoDup (K : nat) (p : nat -> Q) : NoDup (argsort_descending K p).
Proof.
  apply (Permutation_NoDup (Permutation_sym (argsort_perm K p))).
  apply seq_NoDup.
Qed.

Lemma argsort_In (K : nat) (p : nat -> Q) (c : nat) :
  In c (argsort_descending K p) <-> c < K.
Proof.
  unfold argsort_descending. rewrite sort_In, in_seq. lia.
Qed.

Lemma argsort_sorted (K : nat) (p : nat -> Q) :
  StronglySorted (ranks_before p) (argsort_descending K p).
Proof.
  assert (H : StronglySorted (fun i j => ranked_before p i j = true)
                (argsort_descending K p)).
  { apply sort_sorted with (P := fun _ => True).
    - intros x y _ _. apply ranked_before_total.
    - intros x y z _ _ _. apply ranked_before_trans.
    - rewrite Forall_forall. auto. }
  induction H as [|a l Hs IH Ha]; constructor; [exact IH|].
  rewrite Forall_forall in *. intros x Hx.
  apply ranked_before_spec, Ha, Hx.
Qed.

(** The ranking reads the row only on the classes [c < K], and only up to
    equality of rationals. *)
Lemma argsort_ext (K : nat) (p q : nat -> Q) :
  (forall c, c < K -> (p c == q c)%Q) ->
  argsort_descending K p = argsort_descending K q.
Proof.
  intros H. apply sort_ext_in.
  intros x y Hx Hy. apply in_seq in Hx, Hy.
  unfold ranked_before. rewrite (H x), (H y) by lia. reflexivity.
Qed.

(** *** The retain count *)

Section Count.

Context {logit : Type}.
Variable sigmoid : logit -> Q.
Variable self : Policy.
Variable K : nat.
Variable label_logits : nat -> nat -> logit.
Variable force_sample_probs : option (nat -> nat -> Q).
Variable num_classes : option (nat -> Z).

Local Abbreviation num_above_thr :=
  (num_above_thr sigmoid self K label_logits force_sample_probs).
Local Abbreviation num_train :=
  (num_train sigmoid self K label_logits force_sample_probs num_classes).
Local Abbreviation min_classes := (min_classes self num_classes).
Local Abbreviation max_classes := (max_classes self num_classes).

Lemma num_above_thr_range (b : nat) :
  (0 <= num_above_thr b <= Z.of_nat K)%Z.
Proof.
  unfold RetentionPolicy.num_above_thr. split; [lia|].
  apply inj_le.
  match goal with
  | |- length (filter ?f ?l) <= _ => pose proof (filter_length_le f l) as H
  end.
  rewrite length_seq in H. exact H.
Qed.

Lemma min_le_max_classes (b : nat) :
  (configured_min self <= configured_max self)%Z ->
  (min_classes b <= max_classes b)%Z.
Proof.
  unfold RetentionPolicy.min_classes, RetentionPolicy.max_classes.
  destruct num_classes; lia.
Qed.

(** Both branches of lines 45-50 compute the same clamp when the lower
    bound does not exceed the upper one. *)
Lemma num_train_clamp (b : nat) :
  (min_classes b <= max_classes b)%Z ->
  num_train b = Z.min (Z.max (num_above_thr b) (min_classes b)) (max_classes b).
Proof.
  intros H. unfold RetentionPolicy.num_train, where_, clip.
  destruct num_classes as [nc|]; [|reflexivity].
  set (n := num_above_thr b) in *.
  set (lo := RetentionPolicy.min_classes self (Some nc) b) in *.
  set (hi := RetentionPolicy.max_classes self (Some nc) b) in *.
  destruct (Z.gtb_spec n lo); destruct (Z.ltb_spec n hi); lia.
Qed.

Lemma num_train_bounds (b : nat) :
  (configured_min self <= configured_max self)%Z ->
  (min_classes b <= num_train b <= max_classes b)%Z.
Proof.
  intros H. apply (min_le_max_classes b) in H.
  rewrite (num_train_clamp b H). lia.
Qed.

(** With equal bounds the count is the bound, whatever the logits. *)
Lemma num_train_pinned (b : nat) (m : Z) :
  min_classes b = m -> max_classes b = m -> num_train b = m.
Proof.
  intros Hmin Hmax. rewrite num_train_clamp by lia. lia.
Qed.

End Count.

(** *** Flat index arrays *)

Lemma combine_app_same (A B : Type) (l1 l2 : list A) (m1 m2 : list B) :
  length l1 = length m1 ->
  combine (l1 ++ l2) (m1 ++ m2) = combine l1 m1 ++ combine l2 m2.
Proof.
  revert m1. induction l1 as [|a l1 IH]; intros [|b m1] H; simpl in *;
    try discriminate; [reflexivity|].
  f_equal. apply IH. lia.
Qed.

Lemma combine_full_like (v : list nat) (b : nat) :
  combine (full_like v b) v = map (pair b) v.
Proof.
  unfold full_like. induction v as [|c v IH]; simpl; [reflexivity|].
  f_equal. exact IH.
Qed.

Lemma combine_pieces (f : nat -> list nat) (l : list nat) :
  combine (concat (map (fun b => full_like (f b) b) l)) (concat (map f l)) =
  concat (map (fun b => map (pair b) (f b)) l).
Proof.
  induction l as [|b l IH]; simpl; [reflexivity|].
  rewrite combine_app_same by (unfold full_like; apply repeat_length).
  rewrite combine_full_like, IH. reflexivity.
Qed.

Lemma filter_piece (f : nat -> list nat) (b b' : nat) :
  map snd (filter (fun p => fst p =? b) (map (pair b') (f b'))) =
  if b' =? b then f b' else [].
Proof.
  induction (f b') as [|c v IH]; simpl.
  - destruct (b' =? b); reflexivity.
  - destruct (b' =? b); simpl; [f_equal|]; exact IH.
Qed.

Lemma filter_pieces (f : nat -> list nat) (b : nat) (l : list nat) :
  map snd (filter (fun p => fst p =? b)
             (concat (map (fun b' => map (pair b') (f b')) l))) =
  concat (map (fun b' => if b' =? b then f b' else []) l).
Proof.
  induction l as [|b' l IH]; simpl; [reflexivity|].
  rewrite filter_app, map_app, filter_piece, IH. reflexivity.
Qed.

Lemma pick_outside (f : nat -> list nat) (b : nat) (l : list nat) :
  ~ In b l -> concat (map (fun b' => if b' =? b then f b' else []) l) = [].
Proof.
  induction l as [|b' l IH]; simpl; intros H; [reflexivity|].
  destruct (Nat.eqb_spec b' b) as [->|_]; [exfalso; auto|].
  apply IH. auto.
Qed.

Lemma pick_seq (f : nat -> list nat) (b s n : nat) :
  s <= b < s + n ->
  concat (map (fun b' => if b' =? b then f b' else []) (seq s n)) = f b.
Proof.
  revert s. induction n as [|n IH]; intros s H; [lia|]. simpl.
  destruct (Nat.eqb_spec s b) as [->|Hne].
  - rewrite pick_outside; [apply app_nil_r|].
    rewrite in_seq. lia.
  - apply IH. lia.
Qed.

Lemma sorted_app (A : Type) (R : A -> A -> Prop) (l1 l2 : list A) :
  StronglySorted R l1 -> StronglySorted R l2 ->
  (forall x y, In x l1 -> In y l2 -> R x y) ->
  StronglySorted R (l1 ++ l2).
Proof.
  induction 1 as [|a l1 H1 IH Ha]; intros H2 H; simpl; [exact H2|].
  constructor.
  - apply IH; [exact H2|]. intros x y Hx. apply H. right. exact Hx.
  - rewrite Forall_forall in *. intros x Hx.
    apply in_app_or in Hx. destruct Hx as [Hx|Hx]; [apply Ha, Hx|].
    apply H; [left; reflexivity | exact Hx].
Qed.

Lemma repeat_sorted (b n : nat) : StronglySorted le (repeat b n).
Proof.
  induction n as [|n IH]; simpl; constructor; [exact IH|].
  rewrite Forall_forall. intros x Hx. apply repeat_spec in Hx. lia.
Qed.

(** The batch indices of a run of images: non-decreasing, image by image. *)
Lemma batch_index_sorted (n : nat -> nat) (s m : nat) :
  StronglySorted le (concat (map (fun b => repeat b (n b)) (seq s m))).
Proof.
  revert s. induction m as [|m IH]; intros s; simpl; [constructor|].
  apply sorted_app; [apply repeat_sorted | apply IH|].
  intros x y Hx Hy. apply repeat_spec in Hx. subst x.
  apply in_concat in Hy. destruct Hy as [v [Hv Hy]].
  apply in_map_iff in Hv. destruct Hv as [b' [<- Hb']].
  apply repeat_spec in Hy. apply in_seq in Hb'. lia.
Qed.

(** *** The selection *)

Section Select.

Context {logit : Type}.
Variable sigmoid : logit -> Q.
Variable self : Policy.
Variables bs K : nat.
Variable label_logits : nat -> nat -> logit.
Variable force_sample_probs : option (nat -> nat -> Q).
Variable num_classes : option (nat -> Z).

Local Abbreviation num_train :=
  (num_train sigmoid self K label_logits force_sample_probs num_classes).
Local Abbreviation sorted_idxs :=
  (sorted_idxs sigmoid self K label_logits force_sample_probs).
Local Abbreviation selected :=
  (selected sigmoid self K label_logits force_sample_probs num_classes).
Local Abbreviation forward :=
  (forward sigmoid self bs K label_logits force_sample_probs num_classes).

Lemma loop_fold (l : list nat) (bs_idx cls_idx : list (list nat)) :
  fold_left
    (loop_body sigmoid self K label_logits force_sample_probs num_classes)
    l (bs_idx, cls_idx) =
  (bs_idx ++ map (fun b => full_like (selected b) b) l,
   cls_idx ++ map selected l).
Proof.
  revert bs_idx cls_idx. induction l as [|b l IH]; intros bs_idx cls_idx; simpl.
  - rewrite !app_nil_r. reflexivity.
  - rewrite IH, <- !app_assoc. reflexivity.
Qed.

(** The loop of lines 52-57, image by image. *)
Lemma forward_pieces :
  forward =
  (concat (map (fun b => full_like (selected b) b) (seq 0 bs)),
   concat (map selected (seq 0 bs))).
Proof. unfold RetentionPolicy.forward. rewrite loop_fold. reflexivity. Qed.

Lemma classes_of_forward (b : nat) :
  b < bs -> classes_of b forward = selected b.
Proof.
  intros Hb. unfold classes_of. rewrite forward_pieces. simpl fst. simpl snd.
  rewrite combine_pieces, filter_pieces. apply pick_seq. lia.
Qed.

Lemma selected_perm (b : nat) :
  Permutation (selected b) (slice_to (sorted_idxs b) (num_train b)).
Proof. apply sort_perm. Qed.

Lemma selected_increasing (b : nat) : StronglySorted lt (selected b).
Proof. apply sort_leb_increasing, slice_to_NoDup, argsort_NoDup. Qed.

Lemma selected_In (b c : nat) : In c (selected b) -> c < K.
Proof.
  intros H. apply (Permutation_in _ (selected_perm b)) in H.
  apply slice_to_In in H. apply argsort_In in H. exact H.
Qed.

Lemma selected_length (b : nat) :
  (0 <= num_train b)%Z ->
  Z.of_nat (length (selected b)) = Z.min (num_train b) (Z.of_nat K).
Proof.
  intros H. unfold RetentionPolicy.selected, sort_ascending.
  rewrite sort_length, slice_to_length by exact H.
  unfold RetentionPolicy.sorted_idxs. rewrite argsort_length. reflexivity.
Qed.

Lemma selected_none (b : nat) : num_train b = 0%Z -> selected b = [].
Proof.
  intros H. unfold RetentionPolicy.selected. rewrite H. reflexivity.
Qed.

Lemma selected_all (b : nat) :
  num_train b = Z.of_nat K -> selected b = seq 0 K.
Proof.
  intros H. apply increasing_unique.
  - apply selected_increasing.
  - apply seq_increasing.
  - intros c. unfold RetentionPolicy.selected, sort_ascending.
    rewrite sort_In, H.
    replace (Z.of_nat K) with (Z.of_nat (length (sorted_idxs b)))
      by (unfold RetentionPolicy.sorted_idxs; rewrite argsort_length;
          reflexivity).
    rewrite slice_to_all. unfold RetentionPolicy.sorted_idxs.
    rewrite argsort_In, in_seq. lia.
Qed.

End Select.

(** The selection reads the probabilities only inside the shape (bs, K),
    and only up to equality of rationals. *)
Lemma forward_ext (logit1 logit2 : Type)
  (sigmoid1 : logit1 -> Q) (sigmoid2 : logit2 -> Q) (self : Policy)
  (bs K : nat) (l1 : nat -> nat -> logit1) (l2 : nat -> nat -> logit2)
  (f1 f2 : option (nat -> nat -> Q)) (nc : option (nat -> Z)) :
  (forall b c, b < bs -> c < K ->
     (label_prob sigmoid1 self l1 f1 b c ==
      label_prob sigmoid2 self l2 f2 b c)%Q) ->
  forward sigmoid1 self bs K l1 f1 nc = forward sigmoid2 self bs K l2 f2 nc.
Proof.
  intros H. rewrite !forward_pieces.
  assert (Hsel : forall b, In b (seq 0 bs) ->
            selected sigmoid1 self K l1 f1 nc b =
            selected sigmoid2 self K l2 f2 nc b).
  { intros b Hb. apply in_seq in Hb.
    unfold selected, sorted_idxs, num_train, num_above_thr.
    rewrite (@argsort_ext K (label_prob sigmoid1 self l1 f1 b)
               (label_prob sigmoid2 self l2 f2 b))
      by (intros c Hc; apply H; lia).
    rewrite (@filter_ext_in _
               (fun c => Qge_bool (label_prob sigmoid1 self l1 f1 b c)
                           (class_thr self))
               (fun c => Qge_bool (label_prob sigmoid2 self l2 f2 b c)
                           (class_thr self)))
      by (intros c Hc; apply in_seq in Hc; unfold Qge_bool;
          rewrite H by lia; reflexivity).
    reflexivity. }
  f_equal; f_equal; apply map_ext_in; intros b Hb;
    rewrite (Hsel b Hb); reflexivity.
Qed.

Section Flat.

Context {logit : Type}.
Variable sigmoid : logit -> Q.
Variable self : Policy.
Variables bs K : nat.
Variable label_logits : nat -> nat -> logit.
Variable force_sample_probs : option (nat -> nat -> Q).
Variable num_classes : option (nat -> Z).

Local Abbreviation num_train :=
  (num_train sigmoid self K label_logits force_sample_probs num_classes).
Local Abbreviation selected :=
  (selected sigmoid self K label_logits force_sample_probs num_classes).
Local Abbreviation forward :=
  (forward sigmoid self bs K label_logits force_sample_probs num_classes).

Lemma forward_lengths : length (fst forward) = length (snd forward).
Proof.
  rewrite forward_pieces. simpl.
  induction (seq 0 bs) as [|b l IH]; simpl; [reflexivity|].
  rewrite !length_app, IH. unfold full_like. rewrite repeat_length.
  reflexivity.
Qed.

Lemma forward_batch_index :
  fst forward =
  concat (map (fun b => repeat b (length (classes_of b forward))) (seq 0 bs)).
Proof.
  rewrite forward_pieces at 1. simpl. f_equal.
  apply map_ext_in. intros b Hb. apply in_seq in Hb.
  rewrite classes_of_forward by lia. reflexivity.
Qed.

Lemma forward_class_index :
  snd forward = concat (map (fun b => classes_of b forward) (seq 0 bs)).
Proof.
  rewrite forward_pieces at 1. simpl. f_equal.
  apply map_ext_in. intros b Hb. apply in_seq in Hb.
  rewrite classes_of_forward by lia. reflexivity.
Qed.

Lemma forward_batch_sorted : StronglySorted le (fst forward).
Proof. rewrite forward_batch_index. apply batch_index_sorted. Qed.

Lemma forward_total_length :
  (forall b, b < bs -> (0 <= num_train b)%Z) ->
  Z.of_nat (length (snd forward)) =
  total (fun b => Z.min (num_train b) (Z.of_nat K)) bs.
Proof.
  intros H. rewrite forward_pieces. simpl. unfold total.
  assert (Hl : forall b, In b (seq 0 bs) -> (0 <= num_train b)%Z).
  { intros b Hb. apply in_seq in Hb. apply H. lia. }
  induction (seq 0 bs) as [|b l IH]; simpl; [reflexivity|].
  rewrite length_app, Nat2Z.inj_add, IH by (intros; apply Hl; right; assumption).
  rewrite selected_length by (apply Hl; left; reflexivity).
  reflexivity.
Qed.

End Flat.

End RetentionPolicyFacts.

(** ** The prompt indicator *)

Module PromptIndicatorFacts.

Import PyList PromptIndicator.

(** *** Negative indices and slices on the list of per-layer logits *)

Lemma index_neg2_layers (A : Type) (f : nat -> A) (n : nat) :
  index_neg2 (map f (seq 0 n)) = if n <? 2 then None else Some (f (n - 2)).
Proof.
  unfold index_neg2.
  destruct n as [|[|m]]; [reflexivity .. |].
  replace (S (S m)) with (m + 2) by lia.
  rewrite seq_app, map_app, rev_app_distr. simpl.
  replace (m + 2 - 2) with m by lia.
  destruct (m + 2 <? 2) eqn:E; [apply Nat.ltb_lt in E; lia | reflexivity].
Qed.

Lemma aux_outputs_layers (logit : Type) (f : nat -> @Logits logit) (n : nat) :
  aux_outputs (map f (seq 0 n)) = map f (seq 0 (n - 1)).
Proof.
  unfold aux_outputs, drop_last. rewrite length_map, length_seq.
  destruct n as [|[|m]]; [reflexivity .. |].
  replace (1 <? S (S m)) with true by (symmetry; apply Nat.ltb_lt; lia).
  replace (S (S m) - 1) with (S m) by lia.
  rewrite (seq_S (S m)), map_app. simpl map at 2.
  apply removelast_last.
Qed.


(** *** The refinement loop *)

Section Loop.

Context {logit Prompts Feat Srcs Mask Kwargs Loss : Type}.
Variable self : @Layer logit Prompts Feat Srcs Mask Kwargs Loss.
Variable srcs : Srcs.
Variable mask : Mask.
Variable kwargs : Kwargs.
Variable origin : Feat.

Let step (x : Feat) (layer : Feat -> Srcs -> Mask -> Kwargs -> Feat) : Feat :=
  layer x srcs mask kwargs.

Let logits_at (lid : nat) : Logits :=
  classifier_label self lid
    (fold_left step (firstn (S lid) (prompt_blocks self)) origin) origin.

Lemma refine_fold (rest pre : list (Feat -> Srcs -> Mask -> Kwargs -> Feat))
  (st : LoopState) :
  prompt_blocks self = pre ++ rest ->
  ls_tgt_class st = fold_left step pre origin ->
  let st' :=
    fold_left (refine self srcs mask kwargs origin)
      (combine (seq (length pre) (length rest)) rest) st in
  ls_tgt_class st' = fold_left step (pre ++ rest) origin
  /\ output_label_logits st'
     = output_label_logits st ++ map logits_at (seq (length pre) (length rest))
  /\ ls_label_logits st'
     = match rest with
       | [] => ls_label_logits st
       | _ :: _ => Some (logits_at (length pre + length rest - 1))
       end.
Proof.
  revert pre st. induction rest as [|r rest IH]; intros pre st Hb Ht.
  - simpl. rewrite !app_nil_r. auto.
  - cbn [length seq combine fold_left].
    set (st1 := refine self srcs mask kwargs origin st (length pre, r)).
    assert (Hb1 : prompt_blocks self = (pre ++ [r]) ++ rest)
      by (rewrite <- app_assoc; exact Hb).
    assert (Hfirst : firstn (S (length pre)) (prompt_blocks self) = pre ++ [r]).
    { rewrite Hb1. replace (S (length pre)) with (length (pre ++ [r]) + 0)
        by (rewrite length_app; simpl; lia).
      rewrite firstn_app_2. simpl. apply app_nil_r. }
    assert (Ht1 : ls_tgt_class st1 = fold_left step (pre ++ [r]) origin).
    { unfold st1. simpl. rewrite Ht, fold_left_app. reflexivity. }
    assert (Hlen : length (pre ++ [r]) = S (length pre))
      by (rewrite length_app; simpl; lia).
    destruct (IH (pre ++ [r]) st1 Hb1 Ht1) as [H1 [H2 H3]].
    rewrite Hlen in H1, H2, H3.
    split; [|split].
    + rewrite H1, <- app_assoc. reflexivity.
    + rewrite H2. unfold st1 at 1. simpl.
      rewrite <- app_assoc. simpl. do 3 f_equal.
      unfold logits_at. rewrite Hfirst, Ht, fold_left_app. reflexivity.
    + rewrite H3. destruct rest as [|r' rest'].
      * unfold st1. simpl. f_equal. unfold logits_at.
        replace (length pre + 1 - 1) with (length pre) by lia.
        rewrite Hfirst, Ht, fold_left_app. reflexivity.
      * simpl. do 2 f_equal. lia.
Qed.

Lemma refinement_layers :
  let st := refinement self srcs mask kwargs origin in
  let n := length (prompt_blocks self) in
  output_label_logits st = map logits_at (seq 0 n)
  /\ ls_label_logits st
     = (if n =? 0 then None else Some (logits_at (n - 1)))
  /\ ls_tgt_class st = fold_left step (prompt_blocks self) origin.
Proof.
  unfold refinement, enumerate.
  destruct (refine_fold (prompt_blocks self) [] 
              {| ls_tgt_class := origin; ls_label_logits := None;
                 output_label_logits := []; output_feats := [] |}
              eq_refl eq_refl) as [H1 [H2 H3]].
  simpl in H1, H2, H3. cbv zeta.
  split; [exact H2|]. split; [|exact H1].
  rewrite H3. destruct (prompt_blocks self); simpl; [reflexivity|].
  rewrite Nat.sub_0_r. reflexivity.
Qed.

End Loop.

(** *** The slicing of the preserved levels *)

Section SlicingFacts.

Context {Srcs Mask : Type}.
Variable slice_srcs : Srcs -> nat -> option nat -> Srcs.
Variable slice_mask : Mask -> nat -> option nat -> Mask.
Variable start : list nat.
Variable srcs : Srcs.
Variable mask : Mask.

Lemma level_bounds_in (lvl : nat) :
  lvl < length start -> exists bounds, level_bounds start lvl = inr bounds.
Proof.
  intros H. unfold level_bounds.
  destruct (nth_error start lvl) as [a|] eqn:Ea;
    [|apply nth_error_None in Ea; lia].
  destruct (Nat.ltb_spec lvl (length start - 1)) as [Hlt|_];
    [|eexists; reflexivity].
  destruct (nth_error start (lvl + 1)) as [c|] eqn:Ec;
    [eexists; reflexivity|].
  apply nth_error_None in Ec. lia.
Qed.

Lemma level_bounds_out (lvl : nat) :
  length start <= lvl -> level_bounds start lvl = inl IndexError.
Proof.
  intros H. unfold level_bounds.
  destruct (Nat.ltb_spec lvl (length start - 1)) as [Hlt|_]; [lia|].
  replace (nth_error start lvl) with (@None nat)
    by (symmetry; apply nth_error_None; exact H).
  reflexivity.
Qed.

(** The loop stops with IndexError at the first listed level that is not
    below the number of levels, and completes when there is none. *)
Lemma preserve_loop_outcome (level_preserve : list nat)
  (new_srcs : list Srcs) (new_mask : list Mask) :
  if existsb (fun lvl => length start <=? lvl) level_preserve
  then preserve_loop slice_srcs slice_mask start srcs mask level_preserve
         new_srcs new_mask = inl IndexError
  else exists pieces,
         preserve_loop slice_srcs slice_mask start srcs mask level_preserve
           new_srcs new_mask = inr pieces.
Proof.
  revert new_srcs new_mask.
  induction level_preserve as [|lvl rest IH]; intros new_srcs new_mask.
  - simpl. eexists. reflexivity.
  - cbn [existsb preserve_loop]. unfold bind.
    destruct (Nat.leb_spec (length start) lvl) as [Hout|Hin]; cbn [orb].
    + rewrite (level_bounds_out Hout). reflexivity.
    + destruct (level_bounds_in Hin) as [bounds ->]. apply IH.
Qed.

(** The slicing never returns. *)
Lemma slice_levels_raises (R : Type) (tensor_has_device : bool)
  (level_preserve : list nat) :
  @slice_levels Srcs Mask slice_srcs slice_mask R tensor_has_device
    level_preserve srcs mask start
  = inl (if existsb (fun lvl => length start <=? lvl) level_preserve
         then IndexError
         else if tensor_has_device then TypeError else AttributeError).
Proof.
  unfold slice_levels, bind.
  pose proof (preserve_loop_outcome level_preserve [] []) as H.
  destruct (existsb (fun lvl => length start <=? lvl) level_preserve).
  - rewrite H. reflexivity.
  - destruct H as [pieces ->]. destruct tensor_has_device; reflexivity.
Qed.

End SlicingFacts.

Lemma existsb_Exists_out (start : list nat) (level_preserve : list nat) :
  existsb (fun lvl => length start <=? lvl) level_preserve = true
  <-> Exists (fun lvl => length start <= lvl) level_preserve.
Proof.
  rewrite existsb_exists, Exists_exists.
  split; intros [lvl [Hin H]]; exists lvl; split; try exact Hin.
  - apply Nat.leb_le, H.
  - apply Nat.leb_le, H.
Qed.

(** *** Tensors of the targets *)

Lemma along_batch_rows (A : Type) (bs : nat) (d : A) (rows : list A) :
  length rows = bs -> along_batch bs d rows = inr (fun b => nth b rows d).
Proof.
  intros H. unfold along_batch.
  replace (length rows =? bs) with true by (symmetry; apply Nat.eqb_eq, H).
  reflexivity.
Qed.

(** *** The assembled outputs *)

Section Organize.

Context {logit Prompts Feat Srcs Mask Kwargs Loss : Type}.
Variable self : @Layer logit Prompts Feat Srcs Mask Kwargs Loss.
Variable srcs : Srcs.
Variable mask : Mask.
Variable kwargs : Kwargs.

Local Abbreviation n := (length (prompt_blocks self)).
Local Abbreviation layer_logits := (layer_logits self srcs mask kwargs).
Local Abbreviation feats_after := (feats_after self srcs mask kwargs).

(** The slicing, skipped or entered. *)
Lemma level_inputs_skipped :
  slicing_skipped self kwargs ->
  level_inputs self srcs mask kwargs = inr (srcs, mask, kwargs).
Proof.
  unfold slicing_skipped, level_inputs. intros [H|H]; rewrite H.
  - reflexivity.
  - destruct (0 <? length (level_preserve self)); reflexivity.
Qed.

Lemma level_inputs_entered (start : list nat) :
  level_preserve self <> [] ->
  src_level_start_index self kwargs = Some start ->
  level_inputs self srcs mask kwargs = inl (slicing_error self start).
Proof.
  unfold level_inputs, slicing_error. intros Hne Hs. rewrite Hs.
  destruct (level_preserve self) as [|lvl rest] eqn:E; [contradiction|].
  cbn [length Nat.ltb Nat.leb]. apply slice_levels_raises.
Qed.

(** The slicing is skipped or entered, and nothing else. *)
Lemma slicing_cases :
  slicing_skipped self kwargs
  \/ exists start,
       level_preserve self <> []
       /\ src_level_start_index self kwargs = Some start.
Proof.
  unfold slicing_skipped.
  destruct (level_preserve self) as [|lvl rest]; [left; left; reflexivity|].
  destruct (src_level_start_index self kwargs) as [start|];
    [|left; right; reflexivity].
  right. exists start. split; [discriminate | reflexivity].
Qed.

Lemma slicing_skipped_not_entered (start : list nat) :
  slicing_skipped self kwargs ->
  level_preserve self <> [] ->
  src_level_start_index self kwargs = Some start -> False.
Proof. intros [H|H] Hne Hs; [contradiction | congruence]. Qed.

(** Once entered, the slicing decides the outcome. *)
Lemma organize_entered (targets : option (list Target.t)) (start : list nat) :
  level_preserve self <> [] ->
  src_level_start_index self kwargs = Some start ->
  organize self srcs mask targets kwargs = inl (slicing_error self start).
Proof.
  intros Hne Hs. unfold organize.
  rewrite (level_inputs_entered Hne Hs). reflexivity.
Qed.

Lemma forward_entered (targets : option (list Target.t)) (start : list nat) :
  level_preserve self <> [] ->
  src_level_start_index self kwargs = Some start ->
  forward self srcs mask targets kwargs = inl (slicing_error self start).
Proof.
  intros Hne Hs. unfold forward.
  rewrite (organize_entered targets Hne Hs). reflexivity.
Qed.

(** [organize] after the refinement loop, when the slicing is skipped. *)
Lemma organize_skipped (targets : option (list Target.t)) :
  slicing_skipped self kwargs ->
  organize self srcs mask targets kwargs =
  if n <? 2 then inl IndexError
  else
    let main := layer_logits (n - 2) in
    let final := feats_after n in
    let aux := map layer_logits (seq 0 (n - 1)) in
    match retention_policy self with
    | Some policy =>
        match targets with
        | Some ts =>
            force_sample_probs <-
              (if training self
               then rows <- stack_force_sample_probs ts ;; ret (Some rows)
               else ret None) ;;
            num_classes <- concat_num_classes ts ;;
            force_sample_probs <-
              match force_sample_probs with
              | Some rows =>
                  forced <- along_batch (shape0 self srcs) (fun _ => 0%Q)
                              rows ;;
                  ret (Some forced)
              | None => ret None
              end ;;
            num_classes <- along_batch (shape0 self srcs) 0%Z num_classes ;;
            let sel :=
              RetentionPolicy.forward (sigmoid self) policy
                (shape0 self srcs) (K self) (layer_logits (n - 1))
                force_sample_probs (Some num_classes) in
            ret ({| tgt_class := gather self final (fst sel) (snd sel);
                    cls_label_logits := main;
                    cls_output_feats := final;
                    bs_idx := Some (fst sel);
                    cls_idx := Some (snd sel) |}, aux)
        | None => inl TypeError
        end
    | None =>
        inr ({| tgt_class := final; cls_label_logits := main;
                cls_output_feats := final;
                bs_idx := None; cls_idx := None |}, aux)
    end.
Proof.
  intros Hskip.
  unfold organize, PromptIndicator.layer_logits, PromptIndicator.feats_after.
  rewrite (level_inputs_skipped Hskip). unfold bind at 1. cbv iota beta.
  destruct (refinement_layers self srcs mask kwargs
              (tiled_prompts self (shape0 self srcs))) as [H1 [H2 H3]].
  cbv zeta in H1, H2, H3. rewrite H1, H2, H3.
  rewrite index_neg2_layers, aux_outputs_layers.
  destruct (n <? 2) eqn:En; [reflexivity|].
  apply Nat.ltb_ge in En.
  replace (n =? 0) with false by (symmetry; apply Nat.eqb_neq; lia).
  rewrite firstn_all.
  replace (S (n - 1)) with n by lia. rewrite firstn_all.
  cbv zeta. unfold bind, ret, raise.
  destruct (retention_policy self) as [policy|]; [|reflexivity].
  destruct targets as [ts|]; [|reflexivity].
  destruct (if training self
            then match stack_force_sample_probs ts with
                 | inl e => inl e
                 | inr a => inr (Some a)
                 end
            else inr None) as [e|forced]; [reflexivity|].
  destruct (concat_num_classes ts) as [e|nc]; [reflexivity|].
  destruct (match forced with
            | Some rows =>
                match along_batch (shape0 self srcs) (fun _ => 0%Q) rows with
                | inl e => inl e
                | inr a => inr (Some a)
                end
            | None => inr None
            end) as [e|forced']; [reflexivity|].
  destruct (along_batch (shape0 self srcs) 0%Z nc) as [e|nc'];
    [reflexivity|].
  match goal with
  | |- context [RetentionPolicy.forward ?a ?b ?c ?d ?e ?f ?g] =>
      destruct (RetentionPolicy.forward a b c d e f g) as [bs_idxs cls_idxs]
  end.
  reflexivity.
Qed.

(** [organize], layer by layer, when classes are selected on targets with
    one record per image. *)
Lemma organize_selected (policy : RetentionPolicy.Policy)
  (ts : list Target.t) :
  slicing_skipped self kwargs ->
  2 <= n ->
  retention_policy self = Some policy ->
  one_record_per_image self srcs ts ->
  let sel := selection_from self srcs mask kwargs (n - 1) policy ts in
  organize self srcs mask (Some ts) kwargs
  = inr ({| tgt_class := gather self (feats_after n) (fst sel) (snd sel);
            cls_label_logits := layer_logits (n - 2);
            cls_output_feats := feats_after n;
            bs_idx := Some (fst sel);
            cls_idx := Some (snd sel) |},
         map layer_logits (seq 0 (n - 1))).
Proof.
  intros Hskip Hn Hp [Hne Hlen]. cbv zeta.
  rewrite (organize_skipped (Some ts) Hskip), Hp.
  replace (n <? 2) with false by (symmetry; apply Nat.ltb_ge; exact Hn).
  cbv zeta. unfold selection_from.
  unfold stack_force_sample_probs, concat_num_classes.
  destruct ts as [|t ts']; [contradiction|].
  unfold bind, ret.
  destruct (training self).
  - rewrite !along_batch_rows by (rewrite length_map; exact Hlen).
    reflexivity.
  - rewrite along_batch_rows by (rewrite length_map; exact Hlen).
    reflexivity.
Qed.

(** [organize] when no class is selected. *)
Lemma organize_unselected (targets : option (list Target.t)) :
  slicing_skipped self kwargs ->
  2 <= n ->
  retention_policy self = None ->
  organize self srcs mask targets kwargs
  = inr ({| tgt_class := feats_after n;
            cls_label_logits := layer_logits (n - 2);
            cls_output_feats := feats_after n;
            bs_idx := None; cls_idx := None |},
         map layer_logits (seq 0 (n - 1))).
Proof.
  intros Hskip Hn Hp. rewrite (organize_skipped targets Hskip), Hp.
  replace (n <? 2) with false by (symmetry; apply Nat.ltb_ge; exact Hn).
  reflexivity.
Qed.

(** [forward] without targets, when the slicing is skipped. *)
Lemma forward_without_targets :
  slicing_skipped self kwargs ->
  forward self srcs mask None kwargs =
  inl (if n <? 2 then IndexError
       else match retention_policy self with
            | Some _ => TypeError
            | None => AssertionError
            end).
Proof.
  intros Hskip. unfold forward. rewrite (organize_skipped None Hskip).
  destruct (n <? 2); [reflexivity|]. cbv zeta.
  destruct (retention_policy self); reflexivity.
Qed.

(** [forward] without targets never returns. *)
Lemma forward_without_targets_raises :
  exists e, forward self srcs mask None kwargs = inl e.
Proof.
  destruct slicing_cases as [Hskip|[start [Hne Hs]]].
  - rewrite (forward_without_targets Hskip). eexists. reflexivity.
  - rewrite (forward_entered None Hne Hs). eexists. reflexivity.
Qed.

End Organize.

(** *** Construction of the class prompts *)

Section InitFacts.

Variable np_load : string -> Matrix.
Variable normal_ : Matrix -> Matrix.
Variable d_model : nat.

Local Abbreviation init := (_init_class_prompts np_load normal_ d_model).

Lemma init_unrecognised_extension (args : CLASS_PROMPTS.args) (ext : string) :
  extension args = Some ext -> ext <> "pth"%string -> ext <> "npy"%string ->
  init args = inl KeyError.
Proof.
  unfold extension, _init_class_prompts. intros H Hpth Hnpy.
  destruct (truthy (CLASS_PROMPTS.init_vectors args)) as [path|];
    [|discriminate].
  simpl in H. injection H as <-.
  apply String.eqb_neq in Hpth, Hnpy. rewrite Hpth, Hnpy. reflexivity.
Qed.

Lemma init_fixed_without_vectors (args : CLASS_PROMPTS.args) :
  extension args = None -> CLASS_PROMPTS.fix_class_prompts args = true ->
  init args = inl AssertionError.
Proof.
  unfold extension, _init_class_prompts. intros H Hfix.
  destruct (truthy (CLASS_PROMPTS.init_vectors args)); [discriminate|].
  rewrite Hfix. reflexivity.
Qed.

Lemma init_pth (args : CLASS_PROMPTS.args) :
  extension args = Some "pth"%string -> init args = inl NameError.
Proof.
  unfold extension, _init_class_prompts. intros H.
  destruct (truthy (CLASS_PROMPTS.init_vectors args)) as [path|];
    [|discriminate].
  simpl in H. injection H as ->. reflexivity.
Qed.

Lemma init_npy (args : CLASS_PROMPTS.args) :
  extension args = Some "npy"%string -> exists store, init args = inr store.
Proof.
  unfold extension, _init_class_prompts. intros H.
  destruct (truthy (CLASS_PROMPTS.init_vectors args)) as [path|];
    [|discriminate].
  simpl in H. injection H as ->. simpl.
  destruct (CLASS_PROMPTS.fix_class_prompts args); simpl;
    match goal with |- context [negb ?c] => destruct c end; simpl; eauto.
Qed.

Lemma init_random (args : CLASS_PROMPTS.args) :
  extension args = None -> CLASS_PROMPTS.fix_class_prompts args = false ->
  init args =
  inr {| class_prompts :=
           Trainable (normal_ (zeros (CLASS_PROMPTS.num_classes args) d_model));
         convert_vector := None |}.
Proof.
  unfold extension, _init_class_prompts. intros H Hfix.
  destruct (truthy (CLASS_PROMPTS.init_vectors args)); [discriminate|].
  rewrite Hfix. simpl. rewrite Nat.eqb_refl. reflexivity.
Qed.

End InitFacts.

End PromptIndicatorFacts.

(** ** The retention policy: what is kept *)

Module SelectionFacts.

Import PyList PyListFacts RetentionPolicy RetentionPolicyFacts.

Lemma sorted_app_inv (A : Type) (R : A -> A -> Prop) (l1 l2 : list A) (x y : A) :
  StronglySorted R (l1 ++ l2) -> In x l1 -> In y l2 -> R x y.
Proof.
  induction l1 as [|a l1 IH]; simpl; intros Hs Hx Hy; [contradiction|].
  inversion Hs as [|? ? Hs' Ha]; subst.
  destruct Hx as [->|Hx]; [|apply IH; assumption].
  rewrite Forall_forall in Ha. apply Ha, in_or_app. right. exact Hy.
Qed.

Lemma slice_to_prefix (A : Type) (l : list A) (n : Z) :
  exists m, slice_to l n = firstn m l.
Proof. unfold slice_to. destruct (n <? 0)%Z; eexists; reflexivity. Qed.

Lemma filter_perm (A : Type) (f : A -> bool) (l l' : list A) :
  Permutation l l' -> Permutation (filter f l) (filter f l').
Proof.
  induction 1 as [|x l l' _ IH|x y l|l l' l'' _ IH1 _ IH2]; simpl.
  - constructor.
  - destruct (f x); [apply perm_skip|]; exact IH.
  - destruct (f x), (f y); try apply Permutation_refl. apply perm_swap.
  - eapply perm_trans; eassumption.
Qed.

Lemma filter_full (A : Type) (f : A -> bool) (l : list A) :
  length (filter f l) = length l -> filter f l = l.
Proof.
  induction l as [|x l IH]; simpl; [reflexivity|].
  destruct (f x); simpl; intros H.
  - f_equal. apply IH. lia.
  - pose proof (filter_length_le f l). lia.
Qed.

Lemma filter_none (A : Type) (f : A -> bool) (l : list A) :
  (forall x, In x l -> f x = false) -> filter f l = [].
Proof.
  induction l as [|x l IH]; simpl; intros H; [reflexivity|].
  rewrite (H x) by auto. apply IH. auto.
Qed.

Lemma filter_sorted (A : Type) (R : A -> A -> Prop) (f : A -> bool)
  (l : list A) :
  StronglySorted R l -> StronglySorted R (filter f l).
Proof.
  induction 1 as [|a l Hs IH Ha]; simpl; [constructor|].
  destruct (f a); [|exact IH]. constructor; [exact IH|].
  rewrite Forall_forall in *. intros x Hx.
  apply filter_In in Hx. apply Ha, Hx.
Qed.

Section Kept.

Context {logit : Type}.
Variable sigmoid : logit -> Q.
Variable self : Policy.
Variable K : nat.
Variable label_logits : nat -> nat -> logit.
Variable force_sample_probs : option (nat -> nat -> Q).
Variable num_classes : option (nat -> Z).
Variable b : nat.

Local Abbreviation prob :=
  (label_prob sigmoid self label_logits force_sample_probs b).
Local Abbreviation ranking :=
  (sorted_idxs sigmoid self K label_logits force_sample_probs b).
Local Abbreviation k :=
  (num_train sigmoid self K label_logits force_sample_probs num_classes b).
Local Abbreviation kept :=
  (selected sigmoid self K label_logits force_sample_probs num_classes b).
Local Abbreviation above :=
  (fun c => Qge_bool (prob c) (class_thr self)).

(** A kept class has a probability at least that of a class left out. *)
Lemma kept_dominates (c c' : nat) :
  In c kept -> c' < K -> ~ In c' kept -> (prob c' <= prob c)%Q.
Proof.
  intros Hc Hc' Hn.
  destruct (slice_to_prefix ranking k) as [m Hm].
  assert (Hin : forall x, In x kept <-> In x (firstn m ranking)).
  { intros x. unfold RetentionPolicy.selected, sort_ascending.
    rewrite sort_In, Hm. reflexivity. }
  apply Hin in Hc.
  assert (Hc2 : In c' (skipn m ranking)).
  { assert (Hr : In c' ranking) by (apply argsort_In; exact Hc').
    rewrite <- (firstn_skipn m ranking) in Hr.
    apply in_app_or in Hr. destruct Hr as [Hr|Hr]; [|exact Hr].
    exfalso. apply Hn, Hin, Hr. }
  pose proof (argsort_sorted K prob) as Hs.
  fold ranking in Hs. rewrite <- (firstn_skipn m ranking) in Hs.
  destruct (@sorted_app_inv _ _ _ _ _ _ Hs Hc Hc2) as [H|[H _]]; lra.
Qed.

(** When the number of classes at or above the threshold lies within the
    bounds, the classes kept are exactly those classes. *)
Lemma kept_is_threshold_set :
  (min_classes self num_classes b
   <= num_above_thr sigmoid self K label_logits force_sample_probs b
   <= max_classes self num_classes b)%Z ->
  kept = filter above (seq 0 K).
Proof.
  intros Hb.
  set (n := length (filter above (seq 0 K))).
  assert (Hk : k = Z.of_nat n).
  { rewrite num_train_clamp by lia.
    unfold RetentionPolicy.num_above_thr in *. fold n in Hb |- *. lia. }
  assert (HnK : n <= K).
  { unfold n. pose proof (filter_length_le above (seq 0 K)) as H.
    rewrite length_seq in H. exact H. }
  assert (Hslice : slice_to ranking k = firstn n ranking).
  { rewrite Hk. unfold slice_to.
    destruct (Z.ltb_spec (Z.of_nat n) 0); [lia|]. rewrite Nat2Z.id.
    reflexivity. }
  set (l1 := firstn n ranking). set (l2 := skipn n ranking).
  assert (Hsplit : ranking = l1 ++ l2)
    by (symmetry; apply firstn_skipn).
  assert (Hlen1 : length l1 = n).
  { unfold l1. rewrite length_firstn.
    unfold RetentionPolicy.sorted_idxs. rewrite argsort_length. lia. }
  assert (Hcount : length (filter above l1) + length (filter above l2) = n).
  { rewrite <- length_app, <- filter_app, <- Hsplit.
    apply Permutation_length, filter_perm, argsort_perm. }
  pose proof (argsort_sorted K prob) as Hs. fold ranking in Hs.
  rewrite Hsplit in Hs.
  assert (Hmono : forall x y, In x l1 -> In y l2 -> above y = true ->
                    above x = true).
  { intros x y Hx Hy Hay. unfold Qge_bool in *.
    apply Qle_bool_iff in Hay. apply Qle_bool_iff.
    destruct (@sorted_app_inv _ _ _ _ _ _ Hs Hx Hy) as [H|[H _]]; lra. }
  assert (H2 : filter above l2 = []).
  { apply filter_none. intros y Hy.
    destruct (above y) eqn:Hay; [exfalso|reflexivity].
    assert (Hall : filter above l1 = l1).
    { apply forallb_filter_id, forallb_forall.
      intros x Hx. apply (Hmono x y Hx Hy Hay). }
    assert (Hy' : In y (filter above l2)) by (apply filter_In; auto).
    rewrite Hall, Hlen1 in Hcount.
    destruct (filter above l2); [contradiction | simpl in Hcount; lia]. }
  assert (H1 : filter above l1 = l1).
  { apply filter_full. rewrite H2 in Hcount. simpl in Hcount. lia. }
  apply increasing_unique.
  - apply selected_increasing.
  - apply filter_sorted, seq_increasing.
  - intros x. unfold RetentionPolicy.selected, sort_ascending.
    rewrite sort_In, Hslice. fold l1.
    rewrite filter_In, in_seq. split.
    + intros Hx. split.
      * assert (In x ranking) by (rewrite Hsplit; apply in_or_app; auto).
        apply argsort_In in H. lia.
      * rewrite <- H1 in Hx. apply filter_In in Hx. apply Hx.
    + intros [HxK Hax].
      assert (Hr : In x ranking) by (apply argsort_In; lia).
      rewrite Hsplit in Hr. apply in_app_or in Hr.
      destruct Hr as [Hr|Hr]; [exact Hr|].
      assert (Hx' : In x (filter above l2)) by (apply filter_In; auto).
      rewrite H2 in Hx'. contradiction.
Qed.

End Kept.

End SelectionFacts.

(** * The statements of the specification *)

Import PyList PyListFacts RetentionPolicy Scenarios RetentionPolicyFacts.
Import SelectionFacts.

(** ** Retention policy *)

(** C1, as claimed, fails when the configured minimum exceeds the
    configured maximum: with [train_min_classes = 3],
    [train_max_classes = 1] and five classes allowed per image, image 0
    has bounds 3 and 1 and retain count 1, which is below its minimum. *)
Lemma retain_count_inverted_bounds :
  min_classes inverted_policy five_classes 0 = 3%Z /\
  max_classes inverted_policy five_classes 0 = 1%Z /\
  num_train rational_sigmoid inverted_policy 2 zero_logits None five_classes 0
    = 1%Z /\
  ~ (min_classes inverted_policy five_classes 0 <=
     num_train rational_sigmoid inverted_policy 2 zero_logits None
       five_classes 0 <=
     max_classes inverted_policy five_classes 0)%Z.
Proof.
  repeat split; try reflexivity.
  vm_compute. intros [H _]. apply H. reflexivity.
Qed.

(** C1 (amended): for every logit tensor, in training and in evaluation
    mode, with or without [num_classes], when the configured minimum of
    the mode does not exceed its configured maximum, the retain count of
    every image lies between the image's minimum and maximum, which are
    the configured scalars clipped to the image's [num_classes] when it is
    given. *)
Theorem retain_count_within_bounds
  (logit : Type) (sigmoid : logit -> Q) (self : Policy) (K : nat)
  (label_logits : nat -> nat -> logit)
  (force_sample_probs : option (nat -> nat -> Q))
  (num_classes : option (nat -> Z)) (b : nat) :
  (configured_min self <= configured_max self)%Z ->
  (min_classes self num_classes b <=
   num_train sigmoid self K label_logits force_sample_probs num_classes b <=
   max_classes self num_classes b)%Z
  /\ min_classes self num_classes b =
     match num_classes with
     | Some nc => Z.min (nc b) (configured_min self)
     | None => configured_min self
     end
  /\ max_classes self num_classes b =
     match num_classes with
     | Some nc => Z.min (nc b) (configured_max self)
     | None => configured_max self
     end.
Proof.
  intros H. split; [|split; reflexivity].
  apply num_train_bounds, H.
Qed.

Lemma retain_count_within_bounds_witness :
  (min_classes (scenario_policy true) five_classes 1 <=
   num_train rational_sigmoid (scenario_policy true) 5 scenario_logits None
     five_classes 1 <=
   max_classes (scenario_policy true) five_classes 1)%Z.
Proof.
  apply (@retain_count_within_bounds Q rational_sigmoid (scenario_policy true)
           5 scenario_logits None five_classes 1).
  vm_compute. discriminate.
Defined.

(** C2, as claimed, fails when a retain count exceeds the number of
    classes: with min = max = 3 and two classes, image 0 has retain count 3
    and two class indices. *)
Lemma selection_shorter_than_count :
  num_train rational_sigmoid (pinned_policy false 3) 2 zero_logits None None 0
    = 3%Z /\
  classes_of 0
    (forward rational_sigmoid (pinned_policy false 3) 1 2 zero_logits
       None None) = [0; 1] /\
  Z.of_nat
    (length
       (classes_of 0
          (forward rational_sigmoid (pinned_policy false 3) 1 2 zero_logits
             None None)))
  <> num_train rational_sigmoid (pinned_policy false 3) 2 zero_logits
       None None 0.
Proof.
  repeat split; try reflexivity.
  vm_compute. discriminate.
Qed.

(** C2 (amended): when every retain count [k_b] is non-negative, the flat
    arrays [(batch_index, class_index)] have the same length, which is the
    sum over the images of [min k_b K]; [batch_index] is non-decreasing and
    lists image 0, then image 1, and so on, each as many times as it has
    classes; [class_index] is the concatenation of the images' classes;
    and the classes of each image are strictly increasing, below [K], and
    [min k_b K] in number (so exactly [k_b] when [k_b <= K]). *)
Theorem selection_result_invariant
  (logit : Type) (sigmoid : logit -> Q) (self : Policy) (bs K : nat)
  (label_logits : nat -> nat -> logit)
  (force_sample_probs : option (nat -> nat -> Q))
  (num_classes : option (nat -> Z)) :
  let k := num_train sigmoid self K label_logits force_sample_probs
             num_classes in
  let result := forward sigmoid self bs K label_logits force_sample_probs
                  num_classes in
  (forall b, b < bs -> (0 <= k b)%Z) ->
  length (fst result) = length (snd result)
  /\ Z.of_nat (length (snd result))
     = total (fun b => Z.min (k b) (Z.of_nat K)) bs
  /\ StronglySorted le (fst result)
  /\ fst result
     = concat (map (fun b => repeat b (length (classes_of b result)))
                 (seq 0 bs))
  /\ snd result = concat (map (fun b => classes_of b result) (seq 0 bs))
  /\ forall b, b < bs ->
       StronglySorted lt (classes_of b result)
       /\ Forall (fun c => c < K) (classes_of b result)
       /\ Z.of_nat (length (classes_of b result)) = Z.min (k b) (Z.of_nat K).
Proof.
  intros k result Hk. subst k result.
  split; [apply forward_lengths|].
  split; [apply forward_total_length, Hk|].
  split; [apply forward_batch_sorted|].
  split; [apply forward_batch_index|].
  split; [apply forward_class_index|].
  intros b Hb. rewrite classes_of_forward by exact Hb.
  split; [apply selected_increasing|].
  split; [|apply selected_length, Hk, Hb].
  rewrite Forall_forall. intros c. apply selected_In.
Qed.

Lemma selection_result_invariant_witness :
  StronglySorted le
    (fst (forward rational_sigmoid (scenario_policy false) 2 5
            scenario_logits None None)).
Proof.
  apply (@selection_result_invariant Q rational_sigmoid
           (scenario_policy false) 2 5 scenario_logits None None).
  intros b Hb.
  destruct b as [|[|b]]; [vm_compute; discriminate .. | lia].
Defined.

(** C3: every image's ranking lists the [K] classes by decreasing
    probability, the smaller index first among equal probabilities; the
    classes kept for the image are the slice [[:k_b]] of the ranking (its
    first [k_b] entries for a non-negative [k_b]), sorted by increasing
    index; and in the end-to-end scenario (B = 2, C = 5,
    threshold 0.5, min 1, max 3, in either mode) the result is
    [batch_index = [0; 0; 1]] and [class_index = [0; 2; 0]]. *)
Theorem ranking_then_ascending_selection
  (logit : Type) (sigmoid : logit -> Q) (self : Policy) (bs K : nat)
  (label_logits : nat -> nat -> logit)
  (force_sample_probs : option (nat -> nat -> Q))
  (num_classes : option (nat -> Z)) :
  let prob := label_prob sigmoid self label_logits force_sample_probs in
  let ranking := sorted_idxs sigmoid self K label_logits force_sample_probs in
  let k := num_train sigmoid self K label_logits force_sample_probs
             num_classes in
  let result := forward sigmoid self bs K label_logits force_sample_probs
                  num_classes in
  (forall b,
     Permutation (ranking b) (seq 0 K)
     /\ StronglySorted (ranks_before (prob b)) (ranking b))
  /\ (forall b, b < bs ->
        Permutation (classes_of b result) (slice_to (ranking b) (k b))
        /\ StronglySorted lt (classes_of b result)
        /\ classes_of b result = sort_ascending (slice_to (ranking b) (k b))
        /\ ((0 <= k b)%Z ->
            slice_to (ranking b) (k b) = firstn (Z.to_nat (k b)) (ranking b)))
  /\ (forall mode : bool,
        (forall b c, b < 2 -> c < 5 ->
           (sigmoid (label_logits b c) == scenario_probs b c)%Q) ->
        forward sigmoid (scenario_policy mode) 2 5 label_logits None None
        = ([0; 0; 1], [0; 2; 0])).
Proof.
  intros prob ranking k result. subst prob ranking k result.
  split; [|split].
  - intros b. split; [apply argsort_perm | apply argsort_sorted].
  - intros b Hb. rewrite classes_of_forward by exact Hb.
    split; [apply selected_perm|].
    split; [apply selected_increasing|].
    split; [reflexivity|].
    intros Hk. unfold slice_to.
    destruct (Z.ltb_spec
                (num_train sigmoid self K label_logits force_sample_probs
                   num_classes b) 0); [lia | reflexivity].
  - intros mode H.
    rewrite (@forward_ext logit Q sigmoid (fun p => p) (scenario_policy mode)
               2 5 label_logits scenario_probs None None None).
    + destruct mode; vm_compute; reflexivity.
    + intros b c Hb Hc. unfold label_prob.
      destruct (training (scenario_policy mode)); apply H; assumption.
Qed.

Lemma ranking_then_ascending_selection_witness :
  forward rational_sigmoid (scenario_policy false) 2 5 scenario_logits
    None None
  = ([0; 0; 1], [0; 2; 0]).
Proof.
  apply (@ranking_then_ascending_selection Q rational_sigmoid
           (scenario_policy false) 2 5 scenario_logits None None).
  intros b c Hb Hc.
  destruct b as [|[|b]]; [| |lia];
    (destruct c as [|[|[|[|[|c]]]]]; [vm_compute; reflexivity .. | lia]).
Defined.

(** C4: in training mode, where the forced probability of image [b] and
    class [c] is at least 0 the policy works on that very value, and where
    it is negative the policy works on the sigmoid of the logit.  The
    policy uses this effective probability throughout: the count of the
    classes at or above the threshold is taken on it; every class kept for
    the image has an effective probability at least that of every class
    left out; and when that count lies within the bounds of the image, the
    classes kept are exactly the classes whose effective probability is at
    or above the threshold. *)
Theorem forced_probability_overrides
  (logit : Type) (sigmoid : logit -> Q) (self : Policy) (bs K : nat)
  (label_logits : nat -> nat -> logit) (forced : nat -> nat -> Q)
  (num_classes : option (nat -> Z)) (b : nat) :
  let effective := fun c =>
    if Qle_bool 0 (forced b c) then forced b c
    else sigmoid (label_logits b c) in
  let above :=
    filter (fun c => Qle_bool (train_class_thr self) (effective c))
      (seq 0 K) in
  let kept :=
    classes_of b (forward sigmoid self bs K label_logits (Some forced)
                    num_classes) in
  training self = true ->
  b < bs ->
  (forall c,
     ((0 <= forced b c)%Q ->
        label_prob sigmoid self label_logits (Some forced) b c = forced b c)
     /\ ((forced b c < 0)%Q ->
        label_prob sigmoid self label_logits (Some forced) b c
        = sigmoid (label_logits b c)))
  /\ num_above_thr sigmoid self K label_logits (Some forced) b
     = Z.of_nat (length above)
  /\ (forall c c', In c kept -> c' < K -> ~ In c' kept ->
        (effective c' <= effective c)%Q)
  /\ ((min_classes self num_classes b <= Z.of_nat (length above)
       <= max_classes self num_classes b)%Z ->
      kept = above).
Proof.
  intros effective above kept Ht Hb. subst kept.
  rewrite classes_of_forward by exact Hb.
  assert (Heff : forall c,
            label_prob sigmoid self label_logits (Some forced) b c
            = effective c).
  { intros c. unfold label_prob, where_, Qge_bool. rewrite Ht. reflexivity. }
  assert (Habove : filter
                     (fun c =>
                        Qge_bool
                          (label_prob sigmoid self label_logits (Some forced)
                             b c) (class_thr self)) (seq 0 K) = above).
  { unfold above. apply filter_ext. intros c.
    unfold Qge_bool, class_thr. rewrite Heff, Ht. reflexivity. }
  assert (Hcount : num_above_thr sigmoid self K label_logits (Some forced) b
                   = Z.of_nat (length above)).
  { unfold num_above_thr. rewrite Habove. reflexivity. }
  split; [|split; [exact Hcount|split]].
  - intros c. rewrite Heff. unfold effective.
    destruct (Qle_bool 0 (forced b c)) eqn:E.
    + split; [reflexivity|]. intros H. apply Qle_bool_iff in E. lra.
    + split; [|reflexivity]. intros H. apply Qle_bool_iff in H. congruence.
  - intros c c' Hc Hc' Hn. rewrite <- !Heff.
    apply (@kept_dominates _ sigmoid self K label_logits (Some forced)
             num_classes b c c' Hc Hc' Hn).
  - intros Hin. rewrite <- Habove.
    apply kept_is_threshold_set. rewrite Hcount. exact Hin.
Qed.

Lemma forced_probability_overrides_witness :
  classes_of 0
    (forward rational_sigmoid (scenario_policy true) 2 5 scenario_logits
       (Some force_swap) None) = [1; 2]
  /\ classes_of 0
       (forward rational_sigmoid (scenario_policy true) 2 5 scenario_logits
          None None) = [0; 2].
Proof.
  split; [|reflexivity].
  destruct (@forced_probability_overrides Q rational_sigmoid
              (scenario_policy true) 2 5 scenario_logits force_swap None 0
              eq_refl (le_n_S 0 1 (le_0_n 1)))
    as [_ [_ [_ H]]].
  rewrite H; [reflexivity|].
  vm_compute. split; discriminate.
Defined.

(** C6: an image whose effective minimum and maximum are both 0 gets no
    class index, and when this holds of every image both flat arrays are
    empty; an image whose effective minimum and maximum are both [K] gets
    the class indices [0, ..., K-1] in increasing order. *)
Theorem retention_extremes
  (logit : Type) (sigmoid : logit -> Q) (self : Policy) (bs K : nat)
  (label_logits : nat -> nat -> logit)
  (force_sample_probs : option (nat -> nat -> Q))
  (num_classes : option (nat -> Z)) :
  let result := forward sigmoid self bs K label_logits force_sample_probs
                  num_classes in
  (forall b, b < bs ->
     min_classes self num_classes b = 0%Z ->
     max_classes self num_classes b = 0%Z ->
     classes_of b result = [])
  /\ ((forall b, b < bs ->
         min_classes self num_classes b = 0%Z /\
         max_classes self num_classes b = 0%Z) ->
      result = ([], []))
  /\ (forall b, b < bs ->
        min_classes self num_classes b = Z.of_nat K ->
        max_classes self num_classes b = Z.of_nat K ->
        classes_of b result = seq 0 K).
Proof.
  intros result. subst result. split; [|split].
  - intros b Hb Hmin Hmax. rewrite classes_of_forward by exact Hb.
    apply selected_none, num_train_pinned; assumption.
  - intros H. rewrite forward_pieces.
    assert (Hl : forall b, In b (seq 0 bs) ->
              selected sigmoid self K label_logits force_sample_probs
                num_classes b = []).
    { intros b Hb. apply in_seq in Hb.
      apply selected_none, num_train_pinned; apply H; lia. }
    induction (seq 0 bs) as [|b l IH]; [reflexivity|]. simpl.
    rewrite (Hl b) by (left; reflexivity). simpl.
    apply IH. intros b' Hb'. apply Hl. right. exact Hb'.
  - intros b Hb Hmin Hmax. rewrite classes_of_forward by exact Hb.
    apply selected_all, num_train_pinned; assumption.
Qed.

Lemma retention_extremes_witness :
  classes_of 0
    (forward rational_sigmoid (pinned_policy false 0) 2 5 scenario_logits
       None None) = []
  /\ forward rational_sigmoid (pinned_policy true 0) 2 5 scenario_logits
       None five_classes = ([], [])
  /\ classes_of 1
       (forward rational_sigmoid (pinned_policy false 5) 2 5 scenario_logits
          None five_classes) = seq 0 5.
Proof.
  split; [|split].
  - apply (@retention_extremes Q rational_sigmoid (pinned_policy false 0)
             2 5 scenario_logits None None); [lia | reflexivity ..].
  - apply (@retention_extremes Q rational_sigmoid (pinned_policy true 0)
             2 5 scenario_logits None five_classes).
    intros b Hb. split; reflexivity.
  - apply (@retention_extremes Q rational_sigmoid (pinned_policy false 5)
             2 5 scenario_logits None five_classes); [lia | reflexivity ..].
Defined.

(** C9: in evaluation mode the result does not depend on
    [force_sample_probs], given or not. *)
Theorem eval_ignores_forced_probs
  (logit : Type) (sigmoid : logit -> Q) (self : Policy) (bs K : nat)
  (label_logits : nat -> nat -> logit)
  (forced1 forced2 : option (nat -> nat -> Q))
  (num_classes : option (nat -> Z)) :
  training self = false ->
  forward sigmoid self bs K label_logits forced1 num_classes
  = forward sigmoid self bs K label_logits forced2 num_classes.
Proof.
  intros Ht. apply forward_ext.
  intros b c _ _. unfold label_prob. rewrite Ht. reflexivity.
Qed.

Lemma eval_ignores_forced_probs_witness :
  forward rational_sigmoid (pinned_policy false 1) 2 2 zero_logits
    None five_classes
  = forward rational_sigmoid (pinned_policy false 1) 2 2 zero_logits
      (Some (force_class 1)) five_classes.
Proof.
  apply (@eval_ignores_forced_probs Q rational_sigmoid (pinned_policy false 1)
           2 2 zero_logits None (Some (force_class 1)) five_classes).
  reflexivity.
Defined.

(** In training mode the forced probabilities do decide the selection:
    forcing class 1 instead of class 0 changes the class kept. *)
Lemma training_follows_forced_probs :
  forward rational_sigmoid (pinned_policy true 1) 2 2 zero_logits
    (Some (force_class 0)) None = ([0; 1], [0; 0])
  /\ forward rational_sigmoid (pinned_policy true 1) 2 2 zero_logits
       (Some (force_class 1)) None = ([0; 1], [1; 1]).
Proof. split; vm_compute; reflexivity. Qed.

(** ** Prompt indicator *)

Import PromptIndicatorFacts.




(** C7: a path that ends in ["pth"], the first of the two recognised
    formats, does not load: construction stops on the unbound name
    [torch], whatever the other settings.  In general construction raises
    exactly when a file is named whose extension is not ["npy"], or when
    no file is named and the prompts are fixed. *)
Theorem pth_init_vectors_do_not_load
  (np_load : string -> PromptIndicator.Matrix)
  (normal_ : PromptIndicator.Matrix -> PromptIndicator.Matrix)
  (d_model : nat) (fixed : bool) (num_classes : nat)
  (args : PromptIndicator.CLASS_PROMPTS.args) :
  PromptIndicator._init_class_prompts np_load normal_ d_model
    (pth_args fixed num_classes)
  = inl PromptIndicator.NameError
  /\ ((exists e,
         PromptIndicator._init_class_prompts np_load normal_ d_model args
         = inl e)
      <-> (exists ext,
             PromptIndicator.extension args = Some ext
             /\ ext <> "npy"%string)
          \/ (PromptIndicator.extension args = None
              /\ PromptIndicator.CLASS_PROMPTS.fix_class_prompts args = true)).
Proof.
  split; [reflexivity|].
  destruct (PromptIndicator.extension args) as [ext|] eqn:E.
  - destruct (String.eqb_spec ext "npy") as [->|Hnpy].
    + destruct (init_npy np_load normal_ d_model args E) as [store Hs].
      rewrite Hs. split.
      * intros [e He]. discriminate He.
      * intros [[ext [Hext Hne]]|[Hnone _]]; [|discriminate Hnone].
        injection Hext as <-. contradiction.
    + split; [intros _; left; exists ext; auto|]. intros _.
      destruct (String.eqb_spec ext "pth") as [->|Hpth].
      * rewrite (init_pth np_load normal_ d_model args E). eauto.
      * rewrite (init_unrecognised_extension np_load normal_ d_model args
                   E Hpth Hnpy). eauto.
  - destruct (PromptIndicator.CLASS_PROMPTS.fix_class_prompts args) eqn:F.
    + rewrite (init_fixed_without_vectors np_load normal_ d_model args E F).
      split; [intros _; right; auto | eauto].
    + rewrite (init_random np_load normal_ d_model args E F). split.
      * intros [e He]. discriminate He.
      * intros [[ext [Hext _]]|[_ Hfix]]; discriminate.
Qed.

(** C8: without targets the forward pass raises and returns nothing,
    whatever the features, the mask and the layer.  When the slicing of
    the levels is skipped the exception is IndexError with fewer than two
    blocks, otherwise TypeError when classes are selected and
    AssertionError when they are not; when the slicing is entered the
    exception is the one of the slicing. *)
Theorem forward_requires_targets
  (logit Prompts Feat Srcs Mask Kwargs Loss : Type)
  (self : @PromptIndicator.Layer logit Prompts Feat Srcs Mask Kwargs Loss)
  (srcs : Srcs) (mask : Mask) (kwargs : Kwargs) :
  (exists e, PromptIndicator.forward self srcs mask None kwargs = inl e)
  /\ (forall outputs loss_dict,
        PromptIndicator.forward self srcs mask None kwargs
        <> inr (outputs, loss_dict))
  /\ (PromptIndicator.slicing_skipped self kwargs ->
      PromptIndicator.forward self srcs mask None kwargs
      = inl (if length (PromptIndicator.prompt_blocks self) <? 2
             then PromptIndicator.IndexError
             else match PromptIndicator.retention_policy self with
                  | Some _ => PromptIndicator.TypeError
                  | None => PromptIndicator.AssertionError
                  end))
  /\ (forall start,
        PromptIndicator.level_preserve self <> [] ->
        PromptIndicator.src_level_start_index self kwargs = Some start ->
        PromptIndicator.forward self srcs mask None kwargs
        = inl (PromptIndicator.slicing_error self start)).
Proof.
  destruct (forward_without_targets_raises self srcs mask kwargs) as [e He].
  split; [exists e; exact He|].
  split; [intros outputs loss_dict H; rewrite He in H; discriminate H|].
  split; [apply forward_without_targets|].
  intros start Hne Hs.
  apply (@forward_entered _ _ _ _ _ _ _ self srcs mask kwargs None start
           Hne Hs).
Qed.

(** C10: when classes are selected, with at least two refinement layers,
    the slicing of the levels skipped and targets that hold one record
    per image, the retention policy runs on the logits of the last layer
    while ['cls_label_logits'] holds the logits of the second-to-last
    layer. *)
Theorem selection_reads_last_layer
  (logit Prompts Feat Srcs Mask Kwargs Loss : Type)
  (self : @PromptIndicator.Layer logit Prompts Feat Srcs Mask Kwargs Loss)
  (srcs : Srcs) (mask : Mask) (kwargs : Kwargs)
  (policy : RetentionPolicy.Policy)
  (targets : list PromptIndicator.Target.t) :
  let n := length (PromptIndicator.prompt_blocks self) in
  PromptIndicator.retention_policy self = Some policy ->
  PromptIndicator.slicing_skipped self kwargs ->
  PromptIndicator.one_record_per_image self srcs targets ->
  2 <= n ->
  exists outputs loss_dict,
    PromptIndicator.forward self srcs mask (Some targets) kwargs
      = inr (outputs, loss_dict)
    /\ PromptIndicator.cls_label_logits outputs
       = PromptIndicator.layer_logits self srcs mask kwargs (n - 2)
    /\ PromptIndicator.bs_idx outputs
       = Some (fst (PromptIndicator.selection_from self srcs mask kwargs
                      (n - 1) policy targets))
    /\ PromptIndicator.cls_idx outputs
       = Some (snd (PromptIndicator.selection_from self srcs mask kwargs
                      (n - 1) policy targets)).
Proof.
  intros n Hp Hskip Hrec Hn. subst n.
  unfold PromptIndicator.forward.
  rewrite (@organize_selected _ _ _ _ _ _ _ self srcs mask kwargs policy
             targets Hskip Hn Hp Hrec).
  eexists; eexists.
  split; [reflexivity|]. split; [reflexivity|].
  split; reflexivity.
Qed.

Lemma selection_reads_last_layer_witness :
  exists outputs loss_dict,
    PromptIndicator.forward (toy_layer false (Some (pinned_policy false 1)) 2)
      2 tt (Some toy_targets) tt = inr (outputs, loss_dict)
    /\ PromptIndicator.cls_label_logits outputs
       = PromptIndicator.layer_logits
           (toy_layer false (Some (pinned_policy false 1)) 2) 2 tt tt 0
    /\ PromptIndicator.bs_idx outputs
       = Some (fst (PromptIndicator.selection_from
                      (toy_layer false (Some (pinned_policy false 1)) 2)
                      2 tt tt 1 (pinned_policy false 1) toy_targets))
    /\ PromptIndicator.cls_idx outputs
       = Some (snd (PromptIndicator.selection_from
                      (toy_layer false (Some (pinned_policy false 1)) 2)
                      2 tt tt 1 (pinned_policy false 1) toy_targets)).
Proof.
  apply (@selection_reads_last_layer Q unit nat nat unit unit nat
           (toy_layer false (Some (pinned_policy false 1)) 2) 2 tt tt
           (pinned_policy false 1) toy_targets).
  - reflexivity.
  - left. reflexivity.
  - split; [discriminate | reflexivity].
  - simpl. lia.
Defined.

(** On that layer the two tensors do lead apart: the policy, reading the
    last layer, keeps class 1 for both images, while on the logits of the
    main output it would keep class 0. *)
Lemma selection_and_main_output_differ :
  PromptIndicator.selection_from
    (toy_layer false (Some (pinned_policy false 1)) 2) 2 tt tt 1
    (pinned_policy false 1) toy_targets = ([0; 1], [1; 1])
  /\ PromptIndicator.selection_from
       (toy_layer false (Some (pinned_policy false 1)) 2) 2 tt tt 0
       (pinned_policy false 1) toy_targets = ([0; 1], [0; 0]).
Proof. split; vm_compute; reflexivity. Qed.

(** * Further properties of the code *)

(** ** Retention policy: what is kept *)

(** X1: the classes kept for an image are the best ones.  Whatever the
    bounds and the mode, a class kept for image [b] has an effective
    probability at least as large as any class of that image left out. *)
Theorem kept_classes_dominate
  (logit : Type) (sigmoid : logit -> Q) (self : Policy) (bs K : nat)
  (label_logits : nat -> nat -> logit)
  (force_sample_probs : option (nat -> nat -> Q))
  (num_classes : option (nat -> Z)) (b c c' : nat) :
  let result := forward sigmoid self bs K label_logits force_sample_probs
                  num_classes in
  let prob := label_prob sigmoid self label_logits force_sample_probs b in
  b < bs ->
  In c (classes_of b result) ->
  c' < K ->
  ~ In c' (classes_of b result) ->
  (prob c' <= prob c)%Q.
Proof.
  intros result prob Hb. subst result prob.
  rewrite classes_of_forward by exact Hb.
  apply kept_dominates.
Qed.

Lemma kept_classes_dominate_witness :
  (label_prob rational_sigmoid (scenario_policy false) scenario_logits None
     0 3
   <= label_prob rational_sigmoid (scenario_policy false) scenario_logits
        None 0 2)%Q.
Proof.
  apply (@kept_classes_dominate Q rational_sigmoid (scenario_policy false)
           2 5 scenario_logits None None 0 2 3).
  - lia.
  - vm_compute. auto.
  - lia.
  - vm_compute. intros [H|[H|[]]]; discriminate H.
Defined.

(** X2: when the number of classes of image [b] at or above the threshold
    lies between the image's minimum and maximum, the classes kept for the
    image are exactly the classes at or above the threshold, in increasing
    order. *)
Theorem kept_classes_are_threshold_set
  (logit : Type) (sigmoid : logit -> Q) (self : Policy) (bs K : nat)
  (label_logits : nat -> nat -> logit)
  (force_sample_probs : option (nat -> nat -> Q))
  (num_classes : option (nat -> Z)) (b : nat) :
  let result := forward sigmoid self bs K label_logits force_sample_probs
                  num_classes in
  let prob := label_prob sigmoid self label_logits force_sample_probs b in
  b < bs ->
  (min_classes self num_classes b
   <= num_above_thr sigmoid self K label_logits force_sample_probs b
   <= max_classes self num_classes b)%Z ->
  classes_of b result
  = filter (fun c => Qle_bool (class_thr self) (prob c)) (seq 0 K).
Proof.
  intros result prob Hb Hn. subst result prob.
  rewrite classes_of_forward by exact Hb.
  apply kept_is_threshold_set, Hn.
Qed.

Lemma kept_classes_are_threshold_set_witness :
  classes_of 0
    (forward rational_sigmoid (scenario_policy true) 2 5 scenario_logits
       None five_classes)
  = filter
      (fun c =>
         Qle_bool (class_thr (scenario_policy true))
           (label_prob rational_sigmoid (scenario_policy true)
              scenario_logits None 0 c))
      (seq 0 5).
Proof.
  apply (@kept_classes_are_threshold_set Q rational_sigmoid
           (scenario_policy true) 2 5 scenario_logits None five_classes 0).
  - lia.
  - vm_compute. split; discriminate.
Defined.

(** X3: images are selected independently.  The classes kept for image
    [b] depend only on row [b] of the logits, of the forced probabilities
    and of [num_classes]: two batches, of any sizes, that agree on that row
    keep the same classes for it. *)
Theorem selection_is_per_image
  (logit : Type) (sigmoid : logit -> Q) (self : Policy) (bs1 bs2 K : nat)
  (logits1 logits2 : nat -> nat -> logit)
  (forced1 forced2 : option (nat -> nat -> Q))
  (nc1 nc2 : option (nat -> Z)) (b : nat) :
  b < bs1 -> b < bs2 ->
  map (logits1 b) (seq 0 K) = map (logits2 b) (seq 0 K) ->
  option_map (fun f => map (f b) (seq 0 K)) forced1
  = option_map (fun f => map (f b) (seq 0 K)) forced2 ->
  option_map (fun n : nat -> Z => n b) nc1
  = option_map (fun n : nat -> Z => n b) nc2 ->
  classes_of b (forward sigmoid self bs1 K logits1 forced1 nc1)
  = classes_of b (forward sigmoid self bs2 K logits2 forced2 nc2).
Proof.
  intros Hb1 Hb2 Hl Hf Hn.
  rewrite !classes_of_forward by assumption.
  assert (Hrow : forall (A : Type) (f g : nat -> A),
            map f (seq 0 K) = map g (seq 0 K) ->
            forall c, c < K -> f c = g c).
  { intros A f g H c Hc.
    apply (ext_in_map H). apply in_seq. lia. }
  assert (Hp : forall c, c < K ->
            label_prob sigmoid self logits1 forced1 b c
            = label_prob sigmoid self logits2 forced2 b c).
  { intros c Hc. unfold label_prob.
    pose proof (Hrow _ _ _ Hl c Hc) as Hlc.
    destruct (training self); [|cbv beta zeta; rewrite Hlc; reflexivity].
    destruct forced1 as [f1|], forced2 as [f2|]; try discriminate;
      cbv beta zeta; rewrite Hlc; [|reflexivity].
    simpl in Hf. injection Hf as Hf. rewrite (Hrow _ _ _ Hf c Hc).
    reflexivity. }
  assert (Hmin : min_classes self nc1 b = min_classes self nc2 b).
  { unfold min_classes. destruct nc1, nc2; try discriminate; [|reflexivity].
    simpl in Hn. injection Hn as ->. reflexivity. }
  assert (Hmax : max_classes self nc1 b = max_classes self nc2 b).
  { unfold max_classes. destruct nc1, nc2; try discriminate; [|reflexivity].
    simpl in Hn. injection Hn as ->. reflexivity. }
  assert (Habove : num_above_thr sigmoid self K logits1 forced1 b
                   = num_above_thr sigmoid self K logits2 forced2 b).
  { unfold num_above_thr. do 2 f_equal. apply filter_ext_in.
    intros c Hc. apply in_seq in Hc. rewrite Hp by lia. reflexivity. }
  unfold selected, sorted_idxs. f_equal. f_equal.
  - apply argsort_ext. intros c Hc. rewrite Hp by exact Hc. reflexivity.
  - unfold num_train. rewrite Hmin, Hmax, Habove.
    destruct nc1, nc2; try discriminate; reflexivity.
Qed.

Lemma selection_is_per_image_witness :
  classes_of 0
    (forward rational_sigmoid (scenario_policy false) 2 5 scenario_logits
       None None)
  = classes_of 0
      (forward rational_sigmoid (scenario_policy false) 1 5
         (fun b c => if b =? 0 then scenario_logits 0 c else 0%Q)
         None None).
Proof.
  apply (@selection_is_per_image Q rational_sigmoid (scenario_policy false)
           2 1 5 scenario_logits
           (fun b c => if b =? 0 then scenario_logits 0 c else 0%Q)
           None None None None 0);
    [lia | lia | reflexivity ..].
Defined.

(** X4: with consistent bounds (0 <= max and min <= max) and a
    non-negative [num_classes] for the image, the number of classes kept
    for image [b] is at most [num_classes[b]] and at most the configured
    maximum, and it is at least the smaller of the image's minimum and
    [K]. *)
Theorem kept_count_bounds
  (logit : Type) (sigmoid : logit -> Q) (self : Policy) (bs K : nat)
  (label_logits : nat -> nat -> logit)
  (force_sample_probs : option (nat -> nat -> Q))
  (nc : nat -> Z) (b : nat) :
  let result := forward sigmoid self bs K label_logits force_sample_probs
                  (Some nc) in
  let kept := Z.of_nat (length (classes_of b result)) in
  b < bs ->
  (configured_min self <= configured_max self)%Z ->
  (0 <= configured_max self)%Z ->
  (0 <= nc b)%Z ->
  (kept <= nc b)%Z
  /\ (kept <= configured_max self)%Z
  /\ (Z.min (Z.min (nc b) (configured_min self)) (Z.of_nat K) <= kept)%Z.
Proof.
  intros result kept Hb Hmm Hmax Hnc. subst result kept.
  rewrite classes_of_forward by exact Hb.
  pose proof (num_train_bounds sigmoid self K label_logits force_sample_probs
                (Some nc) b Hmm) as Hk.
  pose proof (num_train_clamp sigmoid self K label_logits force_sample_probs
                (Some nc) b (min_le_max_classes self (Some nc) b Hmm)) as Hc.
  pose proof (num_above_thr_range sigmoid self K label_logits
                force_sample_probs b) as Hn.
  unfold min_classes, max_classes in Hk, Hc.
  rewrite selected_length by lia. lia.
Qed.

Lemma kept_count_bounds_witness :
  (Z.of_nat
     (length
        (classes_of 1
           (forward rational_sigmoid (scenario_policy true) 2 5
              scenario_logits None five_classes)))
   <= 5)%Z.
Proof.
  apply (@kept_count_bounds Q rational_sigmoid (scenario_policy true) 2 5
           scenario_logits None (fun _ => 5%Z) 1);
    [lia | vm_compute; discriminate ..].
Defined.

(** ** Prompt indicator: when the forward pass completes *)

(** X5: when the forward pass of the prompt indicator completes.  For
    targets that hold one record per image when classes are selected, the
    forward pass returns exactly when the slicing of the levels is
    skipped, the layer has at least two refinement blocks and targets are
    given.  With the slicing skipped and fewer than two blocks it raises
    IndexError on every input, with or without targets, because of the
    index [-2] into the per-layer logits. *)
Theorem forward_completes_iff
  (logit Prompts Feat Srcs Mask Kwargs Loss : Type)
  (self : @PromptIndicator.Layer logit Prompts Feat Srcs Mask Kwargs Loss)
  (srcs : Srcs) (mask : Mask) (kwargs : Kwargs)
  (targets : option (list PromptIndicator.Target.t)) :
  let n := length (PromptIndicator.prompt_blocks self) in
  (forall ts, targets = Some ts ->
     PromptIndicator.retention_policy self <> None ->
     PromptIndicator.one_record_per_image self srcs ts) ->
  ((exists result,
      PromptIndicator.forward self srcs mask targets kwargs = inr result)
   <-> PromptIndicator.slicing_skipped self kwargs
       /\ 2 <= n /\ targets <> None)
  /\ (PromptIndicator.slicing_skipped self kwargs -> n < 2 ->
      PromptIndicator.forward self srcs mask targets kwargs
      = inl PromptIndicator.IndexError).
Proof.
  intros n Hrec. subst n.
  assert (Hshort : PromptIndicator.slicing_skipped self kwargs ->
            length (PromptIndicator.prompt_blocks self) < 2 ->
            PromptIndicator.forward self srcs mask targets kwargs
            = inl PromptIndicator.IndexError).
  { intros Hskip Hlt. unfold PromptIndicator.forward.
    rewrite (@organize_skipped _ _ _ _ _ _ _ self srcs mask kwargs targets
               Hskip).
    replace (length (PromptIndicator.prompt_blocks self) <? 2) with true
      by (symmetry; apply Nat.ltb_lt; exact Hlt).
    reflexivity. }
  split; [|exact Hshort].
  destruct (slicing_cases self kwargs) as [Hskip|[start [Hne Hs]]].
  - destruct (Nat.lt_ge_cases (length (PromptIndicator.prompt_blocks self)) 2)
      as [Hlt|Hge].
    + rewrite (Hshort Hskip Hlt). split.
      * intros [r Hr]. discriminate Hr.
      * intros [_ [H _]]. lia.
    + destruct targets as [ts|].
      * split; [intros _; split; [exact Hskip|split; [exact Hge|discriminate]]|].
        intros _. unfold PromptIndicator.forward.
        destruct (PromptIndicator.retention_policy self) as [policy|] eqn:Hp.
        -- rewrite (@organize_selected _ _ _ _ _ _ _ self srcs mask kwargs
                      policy ts Hskip Hge Hp
                      (Hrec ts eq_refl ltac:(discriminate))).
           eexists. reflexivity.
        -- rewrite (@organize_unselected _ _ _ _ _ _ _ self srcs mask kwargs
                      (Some ts) Hskip Hge Hp).
           eexists. reflexivity.
      * rewrite (@forward_without_targets _ _ _ _ _ _ _ self srcs mask kwargs
                   Hskip).
        split; [intros [r Hr]; discriminate Hr|].
        intros [_ [_ H]]. contradiction.
  - rewrite (@forward_entered _ _ _ _ _ _ _ self srcs mask kwargs targets
               start Hne Hs).
    split; [intros [r Hr]; discriminate Hr|].
    intros [Hskip _]. exfalso.
    apply (@slicing_skipped_not_entered _ _ _ _ _ _ _ self kwargs start
             Hskip Hne Hs).
Qed.

Lemma forward_completes_iff_witness :
  PromptIndicator.forward (toy_layer false None 1) 2 tt (Some toy_targets) tt
  = inl PromptIndicator.IndexError
  /\ exists result,
       PromptIndicator.forward (toy_layer false None 2) 2 tt
         (Some toy_targets) tt = inr result.
Proof.
  split.
  - apply (@forward_completes_iff Q unit nat nat unit unit nat
             (toy_layer false None 1) 2 tt tt (Some toy_targets)).
    + intros ts _ H. exfalso. apply H. reflexivity.
    + left. reflexivity.
    + simpl. lia.
  - apply (@forward_completes_iff Q unit nat nat unit unit nat
             (toy_layer false None 2) 2 tt tt (Some toy_targets)).
    + intros ts _ H. exfalso. apply H. reflexivity.
    + split; [left; reflexivity|]. split; [simpl; lia | discriminate].
Defined.

(** X6: what the outputs hold.  With the slicing of the levels skipped,
    at least two blocks and targets given (one record per image when
    classes are selected), ['cls_output_feats'] is always the class
    vectors produced by the last block, for the whole batch.  Without a
    retention policy ['tgt_class'] is the same tensor and no index array
    is returned; with one, ['tgt_class'] is that tensor gathered at the
    selected (image, class) pairs, and the index arrays are the
    selection. *)
Theorem outputs_hold_refined_vectors
  (logit Prompts Feat Srcs Mask Kwargs Loss : Type)
  (self : @PromptIndicator.Layer logit Prompts Feat Srcs Mask Kwargs Loss)
  (srcs : Srcs) (mask : Mask) (kwargs : Kwargs)
  (targets : list PromptIndicator.Target.t) :
  let n := length (PromptIndicator.prompt_blocks self) in
  let final := PromptIndicator.feats_after self srcs mask kwargs n in
  PromptIndicator.slicing_skipped self kwargs ->
  (PromptIndicator.retention_policy self <> None ->
   PromptIndicator.one_record_per_image self srcs targets) ->
  2 <= n ->
  exists outputs loss_dict,
    PromptIndicator.forward self srcs mask (Some targets) kwargs
    = inr (outputs, loss_dict)
    /\ PromptIndicator.cls_output_feats outputs = final
    /\ match PromptIndicator.retention_policy self with
       | None =>
           PromptIndicator.tgt_class outputs = final
           /\ PromptIndicator.bs_idx outputs = None
           /\ PromptIndicator.cls_idx outputs = None
       | Some policy =>
           let sel := PromptIndicator.selection_from self srcs mask kwargs
                        (n - 1) policy targets in
           PromptIndicator.tgt_class outputs
           = PromptIndicator.gather self final (fst sel) (snd sel)
           /\ PromptIndicator.bs_idx outputs = Some (fst sel)
           /\ PromptIndicator.cls_idx outputs = Some (snd sel)
       end.
Proof.
  intros n final Hskip Hrec Hn. subst n final.
  unfold PromptIndicator.forward.
  destruct (PromptIndicator.retention_policy self) as [policy|] eqn:Hp.
  - rewrite (@organize_selected _ _ _ _ _ _ _ self srcs mask kwargs policy
               targets Hskip Hn Hp (Hrec ltac:(discriminate))).
    eexists; eexists.
    split; [reflexivity|]. split; [reflexivity|].
    split; [reflexivity|]. split; reflexivity.
  - rewrite (@organize_unselected _ _ _ _ _ _ _ self srcs mask kwargs
               (Some targets) Hskip Hn Hp).
    eexists; eexists.
    split; [reflexivity|]. split; [reflexivity|].
    split; [reflexivity|]. split; reflexivity.
Qed.

Lemma outputs_hold_refined_vectors_witness :
  exists outputs loss_dict,
    PromptIndicator.forward (toy_layer false None 2) 2 tt (Some toy_targets) tt
    = inr (outputs, loss_dict)
    /\ PromptIndicator.cls_output_feats outputs = 2
    /\ PromptIndicator.tgt_class outputs = 2
       /\ PromptIndicator.bs_idx outputs = None
       /\ PromptIndicator.cls_idx outputs = None.
Proof.
  apply (@outputs_hold_refined_vectors Q unit nat nat unit unit nat
           (toy_layer false None 2) 2 tt tt toy_targets).
  - left. reflexivity.
  - intros H. exfalso. apply H. reflexivity.
  - simpl. lia.
Defined.

(** X9: preserved levels stop the forward pass.  When levels are listed
    in [level_preserve] and the start index is among the keyword
    arguments, the forward pass never returns, on any input, with or
    without targets and whatever the blocks and the retention policy are.
    It raises IndexError exactly when a listed level is not below the
    number of entries of the start index; when all are below, it raises
    at line 133, before the start index is rebuilt: TypeError for the
    keyword [device] that [paddle.to_tensor] does not have, or
    AttributeError when the tensors have no attribute [device]. *)
Theorem preserved_levels_always_raise
  (logit Prompts Feat Srcs Mask Kwargs Loss : Type)
  (self : @PromptIndicator.Layer logit Prompts Feat Srcs Mask Kwargs Loss)
  (srcs : Srcs) (mask : Mask) (kwargs : Kwargs)
  (targets : option (list PromptIndicator.Target.t)) (start : list nat) :
  PromptIndicator.level_preserve self <> [] ->
  PromptIndicator.src_level_start_index self kwargs = Some start ->
  (forall result,
     PromptIndicator.forward self srcs mask targets kwargs <> inr result)
  /\ (PromptIndicator.forward self srcs mask targets kwargs
      = inl PromptIndicator.IndexError
      <-> Exists (fun lvl => length start <= lvl)
            (PromptIndicator.level_preserve self))
  /\ (Forall (fun lvl => lvl < length start)
        (PromptIndicator.level_preserve self) ->
      PromptIndicator.forward self srcs mask targets kwargs
      = inl (if PromptIndicator.tensor_has_device self
             then PromptIndicator.TypeError
             else PromptIndicator.AttributeError)).
Proof.
  intros Hne Hs.
  rewrite (@forward_entered _ _ _ _ _ _ _ self srcs mask kwargs targets
             start Hne Hs).
  unfold PromptIndicator.slicing_error.
  destruct (existsb (fun lvl => length start <=? lvl)
              (PromptIndicator.level_preserve self)) eqn:E.
  - apply existsb_Exists_out in E.
    split; [intros r H; discriminate H|].
    split; [split; [intros _; exact E | reflexivity]|].
    intros Hall. exfalso.
    apply Exists_exists in E. destruct E as [lvl [Hin Hout]].
    rewrite Forall_forall in Hall. specialize (Hall lvl Hin). lia.
  - split; [intros r H; discriminate H|].
    split.
    + split.
      * intros H. destruct (PromptIndicator.tensor_has_device self);
          discriminate H.
      * intros H. apply existsb_Exists_out in H. congruence.
    + intros _. reflexivity.
Qed.

Lemma preserved_levels_always_raise_witness :
  PromptIndicator.forward (level_layer [0] false 2) 2 tt (Some toy_targets)
    (Some [0; 4])
  = inl PromptIndicator.AttributeError
  /\ PromptIndicator.forward (level_layer [0; 2] true 2) 2 tt
       (Some toy_targets) (Some [0; 4])
     = inl PromptIndicator.IndexError.
Proof.
  split.
  - apply (@preserved_levels_always_raise Q unit nat nat unit
             (option (list nat)) nat (level_layer [0] false 2) 2 tt
             (Some [0; 4]) (Some toy_targets) [0; 4]).
    + discriminate.
    + reflexivity.
    + constructor; [simpl; lia | constructor].
  - apply (@preserved_levels_always_raise Q unit nat nat unit
             (option (list nat)) nat (level_layer [0; 2] true 2) 2 tt
             (Some [0; 4]) (Some toy_targets) [0; 4]).
    + discriminate.
    + reflexivity.
    + apply Exists_cons_tl, Exists_cons_hd. simpl. lia.
Defined.

(** ** Multi-scale levels *)

Module LevelsFacts.

Import PyList Levels.

Lemma cumsum_from_length (acc : nat) (l : list nat) :
  length (cumsum_from acc l) = length l.
Proof.
  revert acc. induction l as [|x l IH]; intros acc; simpl; [reflexivity|].
  rewrite IH. reflexivity.
Qed.

Lemma cumsum_from_nth (acc : nat) (l : list nat) (i : nat) :
  i < length l ->
  nth_error (cumsum_from acc l) i = Some (acc + list_sum (firstn (S i) l)).
Proof.
  revert acc i. induction l as [|x l IH]; intros acc i Hi; simpl in Hi; [lia|].
  destruct i as [|i].
  - simpl. f_equal. destruct l; simpl; lia.
  - cbn [cumsum_from nth_error]. rewrite IH by lia.
    f_equal. cbn [firstn]. unfold list_sum. cbn [fold_right]. lia.
Qed.

Lemma cumsum_from_drop_last (acc : nat) (l : list nat) :
  drop_last (cumsum_from acc l) = cumsum_from acc (drop_last l).
Proof.
  unfold drop_last. revert acc.
  induction l as [|x l IH]; intros acc; [reflexivity|].
  destruct l as [|y l]; [reflexivity|].
  change (removelast (x :: y :: l)) with (x :: removelast (y :: l)).
  cbn [cumsum_from]. rewrite <- IH. reflexivity.
Qed.

Lemma drop_last_length (A : Type) (l : list A) :
  length (drop_last l) = length l - 1.
Proof.
  unfold drop_last. induction l as [|x l IH]; [reflexivity|].
  destruct l as [|y l]; [reflexivity|].
  change (removelast (x :: y :: l)) with (x :: removelast (y :: l)).
  cbn [length] in *. lia.
Qed.

Lemma starts_length (sizes : list nat) :
  sizes <> [] -> length (starts sizes) = length sizes.
Proof.
  intros H. unfold starts, cumsum. cbn [length].
  rewrite drop_last_length, cumsum_from_length.
  destruct sizes; [contradiction | simpl; lia].
Qed.

Lemma starts_nth (sizes : list nat) (lvl : nat) :
  lvl < length sizes ->
  nth_error (starts sizes) lvl = Some (list_sum (firstn lvl sizes)).
Proof.
  intros H. unfold starts. destruct lvl as [|lvl]; [reflexivity|].
  cbn [nth_error]. unfold cumsum. rewrite cumsum_from_drop_last.
  rewrite cumsum_from_nth.
  - f_equal. rewrite Nat.add_0_l.
    assert (Hd : forall (l : list nat) k, k < length l ->
              firstn k (drop_last l) = firstn k l).
    { unfold drop_last. induction l as [|x l IH]; intros k Hk; [reflexivity|].
      destruct l as [|y l]; [simpl in Hk; destruct k; [reflexivity | lia]|].
      change (removelast (x :: y :: l)) with (x :: removelast (y :: l)).
      destruct k as [|k]; [reflexivity|]. cbn [firstn]. f_equal.
      apply IH. cbn [length] in *. lia. }
    rewrite Hd by exact H. reflexivity.
  - rewrite drop_last_length. lia.
Qed.

Lemma concat_length_sum (Y : Type) (l : list (list Y)) :
  length (concat l) = list_sum (map (@length Y) l).
Proof.
  induction l as [|x l IH]; simpl; [reflexivity|].
  rewrite length_app, IH. reflexivity.
Qed.

(** *** Flattened feature maps *)

Lemma flatten_length (Y : Type) (m : Map Y) :
  length (flatten m) = height m * width m.
Proof.
  unfold flatten. induction (height m) as [|h IH]; [reflexivity|].
  rewrite seq_S, flat_map_app, length_app, IH. simpl.
  rewrite app_nil_r, length_map, length_seq. lia.
Qed.

Lemma combine_fst (A B : Type) (l : list A) (l' : list B) :
  length l = length l' -> map fst (combine l l') = l.
Proof.
  revert l'. induction l as [|a l IH]; intros [|b l'] H; simpl in *;
    try discriminate; [reflexivity|].
  f_equal. apply IH. lia.
Qed.

Lemma combine_snd (A B : Type) (l : list A) (l' : list B) :
  length l = length l' -> map snd (combine l l') = l'.
Proof.
  revert l'. induction l as [|a l IH]; intros [|b l'] H; simpl in *;
    try discriminate; [reflexivity|].
  f_equal. apply IH. lia.
Qed.

Lemma same_shapes_length (X M : Type) (srcs : list (Map X))
  (masks : list (Map M)) :
  same_shapes srcs masks -> length srcs = length masks.
Proof. induction 1; simpl; congruence. Qed.

Lemma same_shapes_areas (X M : Type) (srcs : list (Map X))
  (masks : list (Map M)) :
  same_shapes srcs masks ->
  map (@length X) (map flatten srcs) = map (@length M) (map flatten masks).
Proof.
  induction 1 as [|s m srcs masks [Hh Hw] _ IH]; simpl; [reflexivity|].
  rewrite !flatten_length, Hh, Hw, IH. reflexivity.
Qed.

Lemma areas_lengths (X : Type) (srcs : list (Map X)) :
  map area srcs = map (@length X) (map flatten srcs).
Proof.
  rewrite map_map. apply map_ext. intros m. symmetry. apply flatten_length.
Qed.

(** [prepare_for_deformable] on levels of matching shapes. *)
Lemma prepare_levels (X M : Type) (srcs : list (Map X))
  (masks : list (Map M)) :
  same_shapes srcs masks -> srcs <> [] ->
  prepare_for_deformable srcs masks
  = Some {| src_flatten := concat (map flatten srcs);
            mask_flatten := concat (map flatten masks);
            spatial_shapes := map (fun s => (height s, width s)) srcs;
            level_start_index := starts (map area srcs) |}.
Proof.
  intros Hs Hne. pose proof (same_shapes_length Hs) as Hl.
  unfold prepare_for_deformable.
  destruct (combine srcs masks) as [|sm levels] eqn:E.
  - destruct srcs; [contradiction|]. destruct masks; discriminate.
  - rewrite <- E. f_equal. f_equal.
    + rewrite <- (map_map fst flatten), combine_fst by exact Hl. reflexivity.
    + rewrite <- (map_map snd flatten), combine_snd by exact Hl. reflexivity.
    + rewrite <- (map_map fst (fun s => (height s, width s))),
        combine_fst by exact Hl.
      reflexivity.
    + unfold starts. rewrite map_map. cbn [fst snd].
      rewrite <- (map_map fst (fun s : Map X => height s * width s)),
        combine_fst by exact Hl.
      reflexivity.
Qed.

End LevelsFacts.

Import LevelsFacts.

(** X11: the flattening lays the levels one after the other.  For maps
    and masks of matching shapes, [prepare_for_deformable] returns tokens
    and a mask of the same length, the total number of pixels; one
    spatial shape and one start per level; and the start of a level is
    the number of pixels of the levels before it. *)
Theorem flattening_lays_levels_in_order
  (X M : Type) (srcs : list (Levels.Map X)) (masks : list (Levels.Map M))
  (flat : Levels.Flattened X M) :
  Levels.same_shapes srcs masks ->
  Levels.prepare_for_deformable srcs masks = Some flat ->
  length (Levels.src_flatten flat) = list_sum (map Levels.area srcs)
  /\ length (Levels.mask_flatten flat) = list_sum (map Levels.area srcs)
  /\ length (Levels.spatial_shapes flat) = length srcs
  /\ length (Levels.level_start_index flat) = length srcs
  /\ forall lvl, lvl < length srcs ->
       nth_error (Levels.level_start_index flat) lvl
       = Some (list_sum (map Levels.area (firstn lvl srcs))).
Proof.
  intros Hs Hflat.
  assert (Hsrcs : srcs <> []).
  { intros ->. discriminate Hflat. }
  rewrite (prepare_levels Hs Hsrcs) in Hflat. injection Hflat as <-.
  cbn [Levels.src_flatten Levels.mask_flatten Levels.spatial_shapes
       Levels.level_start_index].
  split; [|split; [|split; [|split]]].
  - rewrite concat_length_sum, areas_lengths. reflexivity.
  - rewrite concat_length_sum, areas_lengths, (same_shapes_areas Hs).
    reflexivity.
  - apply length_map.
  - rewrite starts_length; [apply length_map|].
    destruct srcs; [contradiction | discriminate].
  - intros lvl Hlvl. rewrite starts_nth by (rewrite length_map; exact Hlvl).
    rewrite firstn_map. reflexivity.
Qed.

Lemma flattening_lays_levels_in_order_witness :
  length (Levels.src_flatten Examples.two_flat)
  = list_sum (map Levels.area Examples.two_levels).
Proof.
  apply (@flattening_lays_levels_in_order nat bool Examples.two_levels
           Examples.two_masks Examples.two_flat).
  - repeat constructor.
  - reflexivity.
Defined.

(** ** The transformer head *)

Module TransformerFacts.

Import Transformer.

Lemma pos_of_nat_Z (n : nat) : 0 < n -> Zpos (Pos.of_nat n) = Z.of_nat n.
Proof.
  intros H. destruct n as [|n]; [lia|].
  rewrite <- Pos.of_nat_succ, Zpos_P_of_succ_nat. lia.
Qed.

(** A sum of terms that are 0 or 1. *)
Lemma sum_of_bits (l : list Z) :
  Forall (fun z => z = 0%Z \/ z = 1%Z) l ->
  (0 <= fold_right Z.add 0 l <= Z.of_nat (length l))%Z
  /\ (fold_right Z.add 0%Z l = Z.of_nat (length l)
      <-> Forall (fun z => z = 1%Z) l).
Proof.
  induction 1 as [|z l Hz _ [IH1 IH2]]; cbn [fold_right length].
  - split; [lia|]. split; constructor.
  - split; [destruct Hz; lia|]. split.
    + intros Hsum. assert (z = 1%Z) by (destruct Hz; lia).
      constructor; [assumption|]. apply IH2. lia.
    + intros Hall. inversion Hall as [|? ? Hz1 Hl]; subst.
      apply IH2 in Hl. lia.
Qed.

Section Binary.

Variables bs H W : nat.
Variable mask : nat -> nat -> nat -> Z.
Hypothesis binary :
  forall b i j, b < bs -> i < H -> j < W ->
    mask b i j = 0%Z \/ mask b i j = 1%Z.

Lemma entries_binary (z : Z) :
  In z (entries bs H W mask) -> z = 0%Z \/ z = 1%Z.
Proof.
  unfold entries. intros Hz.
  apply in_flat_map in Hz. destruct Hz as [b [Hb Hz]].
  apply in_flat_map in Hz. destruct Hz as [i [Hi Hz]].
  apply in_map_iff in Hz. destruct Hz as [j [<- Hj]].
  apply in_seq in Hb, Hi, Hj. apply binary; lia.
Qed.

Lemma binary_unique_count : unique_count bs H W mask <= 2.
Proof.
  unfold unique_count.
  change 2 with (length [0%Z; 1%Z]).
  apply NoDup_incl_length; [apply NoDup_nodup|].
  intros z Hz. apply nodup_In in Hz. apply entries_binary in Hz.
  destruct Hz as [->| ->]; simpl; auto.
Qed.

Lemma valid_H_bits (b : nat) :
  b < bs -> 0 < W ->
  (0 <= valid_H H mask b <= Z.of_nat H)%Z
  /\ (valid_H H mask b = Z.of_nat H <-> forall i, i < H -> mask b i 0 = 0%Z).
Proof.
  intros Hb HW. unfold valid_H.
  assert (Hbits : Forall (fun z => z = 0%Z \/ z = 1%Z)
                    (map (fun i => (1 - mask b i 0)%Z) (seq 0 H))).
  { rewrite Forall_forall. intros z Hz. apply in_map_iff in Hz.
    destruct Hz as [i [<- Hi]]. apply in_seq in Hi.
    assert (Hm : mask b i 0 = 0%Z \/ mask b i 0 = 1%Z)
      by (apply binary; lia).
    destruct Hm as [-> | ->]; [right | left]; reflexivity. }
  destruct (sum_of_bits Hbits) as [Hr Hall].
  rewrite length_map, length_seq in Hr, Hall.
  split; [exact Hr|]. rewrite Hall, Forall_forall. split.
  - intros Hone i Hi.
    assert ((1 - mask b i 0)%Z = 1%Z); [|lia].
    apply Hone, in_map_iff. exists i. split; [reflexivity|].
    apply in_seq. lia.
  - intros Hzero z Hz. apply in_map_iff in Hz.
    destruct Hz as [i [<- Hi]]. apply in_seq in Hi.
    rewrite Hzero by lia. reflexivity.
Qed.

Lemma valid_W_bits (b : nat) :
  b < bs -> 0 < H ->
  (0 <= valid_W W mask b <= Z.of_nat W)%Z
  /\ (valid_W W mask b = Z.of_nat W <-> forall j, j < W -> mask b 0 j = 0%Z).
Proof.
  intros Hb HH. unfold valid_W.
  assert (Hbits : Forall (fun z => z = 0%Z \/ z = 1%Z)
                    (map (fun j => (1 - mask b 0 j)%Z) (seq 0 W))).
  { rewrite Forall_forall. intros z Hz. apply in_map_iff in Hz.
    destruct Hz as [j [<- Hj]]. apply in_seq in Hj.
    assert (Hm : mask b 0 j = 0%Z \/ mask b 0 j = 1%Z)
      by (apply binary; lia).
    destruct Hm as [-> | ->]; [right | left]; reflexivity. }
  destruct (sum_of_bits Hbits) as [Hr Hall].
  rewrite length_map, length_seq in Hr, Hall.
  split; [exact Hr|]. rewrite Hall, Forall_forall. split.
  - intros Hone j Hj.
    assert ((1 - mask b 0 j)%Z = 1%Z); [|lia].
    apply Hone, in_map_iff. exists j. split; [reflexivity|].
    apply in_seq. lia.
  - intros Hzero z Hz. apply in_map_iff in Hz.
    destruct Hz as [j [<- Hj]]. apply in_seq in Hj.
    rewrite Hzero by lia. reflexivity.
Qed.

End Binary.

Lemma ratio_bounds (z : Z) (n : nat) :
  0 < n -> (0 <= z <= Z.of_nat n)%Z ->
  (0 <= Qmake z (Pos.of_nat n) <= 1)%Q
  /\ ((Qmake z (Pos.of_nat n) == 1)%Q <-> z = Z.of_nat n).
Proof.
  intros Hn Hz. unfold Qle, Qeq. cbn [Qnum Qden].
  rewrite (pos_of_nat_Z Hn). lia.
Qed.

End TransformerFacts.

Import TransformerFacts.

(** X12: valid ratios of a binary mask.  For a mask of shape (bs, H, W)
    with H, W > 0 whose entries are all 0 or 1, [get_valid_ratio] passes
    its assertion and returns, for every image, two ratios between 0 and
    1; the height ratio is 1 exactly when column 0 of the image has no
    padded entry, and the width ratio is 1 exactly when row 0 has none. *)
Theorem valid_ratios_of_binary_mask
  (bs H W : nat) (mask : nat -> nat -> nat -> Z) :
  0 < H -> 0 < W ->
  (forall b i j, b < bs -> i < H -> j < W ->
     mask b i j = 0%Z \/ mask b i j = 1%Z) ->
  exists ratio,
    Transformer.get_valid_ratio bs H W mask = inr ratio
    /\ forall b, b < bs ->
         (0 <= fst (ratio b) <= 1)%Q /\ (0 <= snd (ratio b) <= 1)%Q
         /\ ((fst (ratio b) == 1)%Q
             <-> forall j, j < W -> mask b 0 j = 0%Z)
         /\ ((snd (ratio b) == 1)%Q
             <-> forall i, i < H -> mask b i 0 = 0%Z).
Proof.
  intros HH HW Hbin. unfold Transformer.get_valid_ratio.
  replace (Transformer.unique_count bs H W mask <=? 2) with true
    by (symmetry; apply Nat.leb_le, binary_unique_count; exact Hbin).
  replace (W =? 0) with false by (symmetry; apply Nat.eqb_neq; lia).
  replace (H =? 0) with false by (symmetry; apply Nat.eqb_neq; lia).
  cbn [negb orb]. eexists. split; [reflexivity|].
  intros b Hb. cbn [fst snd].
  destruct (@valid_H_bits bs H W mask Hbin b Hb HW) as [Hh Hh1].
  destruct (@valid_W_bits bs H W mask Hbin b Hb HH) as [Hw Hw1].
  destruct (@ratio_bounds _ W HW Hw) as [Hwb Hwe].
  destruct (@ratio_bounds _ H HH Hh) as [Hhb Hhe].
  split; [exact Hwb|]. split; [exact Hhb|].
  split; [rewrite Hwe; exact Hw1 | rewrite Hhe; exact Hh1].
Qed.

Lemma valid_ratios_of_binary_mask_witness :
  exists ratio,
    Transformer.get_valid_ratio 1 2 3 Examples.padded_mask = inr ratio
    /\ forall b, b < 1 ->
         (0 <= fst (ratio b) <= 1)%Q /\ (0 <= snd (ratio b) <= 1)%Q
         /\ ((fst (ratio b) == 1)%Q
             <-> forall j, j < 3 -> Examples.padded_mask b 0 j = 0%Z)
         /\ ((snd (ratio b) == 1)%Q
             <-> forall i, i < 2 -> Examples.padded_mask b i 0 = 0%Z).
Proof.
  apply (@valid_ratios_of_binary_mask 1 2 3 Examples.padded_mask);
    [lia | lia |].
  intros b i j _ _ _. unfold Examples.padded_mask.
  destruct (j =? 2); auto.
Defined.

(** X13: with a prompt indicator, the transformer head cannot run without
    targets.  [Transformer.forward] with [targets = None] never returns
    outputs, whatever the encoder and the object decoder are.  Once the
    inputs are prepared and encoded, the exception is the prompt
    indicator's, raised before the object decoder is reached: when the
    slicing of the levels is skipped, IndexError with fewer than two
    blocks, otherwise TypeError when classes are selected and
    AssertionError when they are not; and when levels are listed and the
    keyword arguments of the prompt indicator hold the start index, as
    those built on line 139 do, the exception of the slicing, with or
    without targets. *)
Theorem head_requires_targets
  (logit Prompts Feat Src Msk Srcs Mask EncKw ClsKw ObjKw Ext L E : Type)
  (self : @Transformer.Model logit Prompts Feat Src Msk Srcs Mask EncKw
            ClsKw ObjKw Ext L E)
  (indicator : @PromptIndicator.Layer logit Prompts Feat Srcs Mask ClsKw
                 (Transformer.dict L))
  (srcs : list Src) (masks : list Msk) :
  Transformer.prompt_indicator self = Some indicator ->
  (forall result, Transformer.forward self srcs masks None <> inr result)
  /\ (forall s m enc_kwargs cls_kwargs obj_kwargs s',
        srcs <> [] ->
        Transformer.prepare_for_deformable self srcs masks
        = inr (s, m, enc_kwargs, cls_kwargs, obj_kwargs) ->
        match Transformer.encoder self with
        | Some enc => enc s m enc_kwargs
        | None => inr s
        end = inr s' ->
        (PromptIndicator.slicing_skipped indicator cls_kwargs ->
         Transformer.forward self srcs masks None
         = inl (Transformer.Raised
                  (if length (PromptIndicator.prompt_blocks indicator) <? 2
                   then PromptIndicator.IndexError
                   else match PromptIndicator.retention_policy indicator with
                        | Some _ => PromptIndicator.TypeError
                        | None => PromptIndicator.AssertionError
                        end)))
        /\ (forall targets start,
              PromptIndicator.level_preserve indicator <> [] ->
              PromptIndicator.src_level_start_index indicator cls_kwargs
              = Some start ->
              Transformer.forward self srcs masks targets
              = inl (Transformer.Raised
                       (PromptIndicator.slicing_error indicator start)))).
Proof.
  intros Hind. unfold Transformer.forward, Transformer.bindf. split.
  - intros result. destruct srcs as [|src srcs']; [discriminate|].
    destruct (Transformer.prepare_for_deformable self (src :: srcs') masks)
      as [e|[[[[s m] ekw] ckw] okw]]; [discriminate|].
    destruct (match Transformer.encoder self with
              | Some enc => enc s m ekw
              | None => inr s
              end) as [e|s']; [discriminate|].
    rewrite Hind.
    destruct (forward_without_targets_raises indicator s' m ckw) as [e ->].
    discriminate.
  - intros s m ekw ckw okw s' Hne Hprep Henc.
    destruct srcs as [|src srcs']; [contradiction|].
    rewrite Hprep, Henc, Hind. split.
    + intros Hskip.
      rewrite (@forward_without_targets _ _ _ _ _ _ _ indicator s' m ckw
                 Hskip).
      reflexivity.
    + intros targets start Hlp Hs.
      rewrite (@forward_entered _ _ _ _ _ _ _ indicator s' m ckw targets
                 start Hlp Hs).
      reflexivity.
Qed.

Lemma head_requires_targets_witness :
  Transformer.forward (Examples.toy_model false None 2) [tt] [tt] None
  = inl (Transformer.Raised PromptIndicator.AssertionError).
Proof.
  apply (proj2 (@head_requires_targets Q unit nat unit unit nat unit unit
                  unit unit nat nat unit
                  (Examples.toy_model false None 2)
                  (Examples.toy_indicator false None 2) [tt] [tt] eq_refl)
           2 tt tt tt tt 2);
    [discriminate | reflexivity | reflexivity | left; reflexivity].
Defined.

(** X14: what the object decoder is given.  With the slicing of the
    levels skipped, at least two refinement blocks, a retention policy and
    targets that hold one record per image, the object decoder is called
    on the encoded sources with the targets and with additional inputs
    whose [previous_logits] are the logits of the second-to-last layer,
    whose [bs_idx] and [cls_idx] are the selection made on the logits of
    the last layer, and whose [class_vector] is the last block's output
    gathered at that selection.  Its outputs and losses are merged over
    the prompt indicator's, entry by entry. *)
Theorem object_decoder_inputs
  (logit Prompts Feat Src Msk Srcs Mask EncKw ClsKw ObjKw Ext L E : Type)
  (self : @Transformer.Model logit Prompts Feat Src Msk Srcs Mask EncKw
            ClsKw ObjKw Ext L E)
  (indicator : @PromptIndicator.Layer logit Prompts Feat Srcs Mask ClsKw
                 (Transformer.dict L))
  (decoder : Srcs -> Mask -> option (list PromptIndicator.Target.t) ->
             option (@Transformer.Additional logit Feat) -> ObjKw ->
             @Transformer.failure E
             + (Transformer.dict (@Transformer.Value logit Feat Ext)
                * Transformer.dict L))
  (policy : RetentionPolicy.Policy)
  (srcs : list Src) (masks : list Msk)
  (targets : list PromptIndicator.Target.t)
  (s s' : Srcs) (m : Mask) (enc_kwargs : EncKw) (cls_kwargs : ClsKw)
  (obj_kwargs : ObjKw) :
  let n := length (PromptIndicator.prompt_blocks indicator) in
  let sel := PromptIndicator.selection_from indicator s' m cls_kwargs
               (n - 1) policy targets in
  let info :=
    {| Transformer.bs_idx := Some (fst sel);
       Transformer.cls_idx := Some (snd sel);
       Transformer.class_vector :=
         PromptIndicator.gather indicator
           (PromptIndicator.feats_after indicator s' m cls_kwargs n)
           (fst sel) (snd sel);
       Transformer.previous_logits :=
         PromptIndicator.layer_logits indicator s' m cls_kwargs (n - 2) |} in
  Transformer.prompt_indicator self = Some indicator ->
  Transformer.object_decoder self = Some decoder ->
  PromptIndicator.retention_policy indicator = Some policy ->
  2 <= n ->
  srcs <> [] ->
  Transformer.prepare_for_deformable self srcs masks
  = inr (s, m, enc_kwargs, cls_kwargs, obj_kwargs) ->
  match Transformer.encoder self with
  | Some enc => enc s m enc_kwargs
  | None => inr s
  end = inr s' ->
  PromptIndicator.slicing_skipped indicator cls_kwargs ->
  PromptIndicator.one_record_per_image indicator s' targets ->
  exists cls_outputs cls_loss_dict,
    PromptIndicator.forward indicator s' m (Some targets) cls_kwargs
    = inr (cls_outputs, cls_loss_dict)
    /\ Transformer.forward self srcs masks (Some targets)
       = match decoder s' m (Some targets) (Some info) obj_kwargs with
         | inl e => inl e
         | inr (obj_outputs, obj_loss_dict) =>
             inr (Transformer.update
                    (Transformer.update Transformer.empty
                       (Transformer.to_dict cls_outputs)) obj_outputs,
                  Transformer.update
                    (Transformer.update Transformer.empty cls_loss_dict)
                    obj_loss_dict)
         end.
Proof.
  intros n sel info Hind Hdec Hpol Hn Hne Hprep Henc Hskip Hrec.
  subst n sel info.
  unfold Transformer.forward, Transformer.bindf.
  destruct srcs as [|src srcs']; [contradiction|].
  rewrite Hprep, Henc, Hind, Hdec.
  unfold PromptIndicator.forward.
  rewrite (@organize_selected _ _ _ _ _ _ _ indicator s' m cls_kwargs policy
             targets Hskip Hn Hpol Hrec).
  cbv zeta. unfold PromptIndicator.bind, PromptIndicator.ret.
  eexists; eexists. split; [reflexivity|].
  unfold Transformer.additional_object_inputs. cbn.
  destruct (decoder s' m (Some targets) _ obj_kwargs) as [e|[o l]];
    reflexivity.
Qed.

Lemma object_decoder_inputs_witness :
  exists outputs loss_dict,
    Transformer.forward
      (Examples.toy_model false (Some (pinned_policy false 1)) 2)
      [tt] [tt] (Some toy_targets) = inr (outputs, loss_dict)
    /\ outputs "num_queries"%string = Some (Transformer.VExt 2)
    /\ outputs "bs_idx"%string = Some (Transformer.VIdx [0; 1])
    /\ outputs "cls_idx"%string = Some (Transformer.VIdx [1; 1])
    /\ loss_dict "loss_ce"%string = Some 1.
Proof.
  destruct (@object_decoder_inputs Q unit nat unit unit nat unit unit
              unit unit nat nat unit
              (Examples.toy_model false (Some (pinned_policy false 1)) 2)
              (Examples.toy_indicator false (Some (pinned_policy false 1)) 2)
              (fun _ _ _ info _ =>
                 inr (fun key =>
                        if String.eqb key "num_queries" then
                          Some (Transformer.VExt
                                  match info with
                                  | Some a =>
                                      match Transformer.cls_idx a with
                                      | Some idx => length idx
                                      | None => 0
                                      end
                                  | None => 0
                                  end)
                        else None,
                      Transformer.empty))
              (pinned_policy false 1) [tt] [tt] toy_targets 2 2 tt tt tt tt
              eq_refl eq_refl eq_refl
              (le_n 2)
              (fun H : [tt] = [] => eq_ind [tt]
                 (fun l => match l with [] => False | _ :: _ => True end)
                 I [] H)
              eq_refl eq_refl
              (or_introl eq_refl)
              ltac:(split; [discriminate | reflexivity]))
    as [cls_outputs [cls_loss [Hcls Hfwd]]].
  eexists; eexists. split; [exact Hfwd|].
  injection Hcls as <- <-.
  repeat split; vm_compute; reflexivity.
Defined.

(** ** The residual backbone *)

Module ResNetFacts.

Import ResNet.

Lemma lookup_app (d : kwargs) (param key : string) (v : Z) :
  lookup (d ++ [(param, v)]) key
  = match lookup d key with
    | Some x => Some x
    | None => if String.eqb param key then Some v else None
    end.
Proof.
  induction d as [|[k x] d IH]; simpl; [reflexivity|].
  destruct (String.eqb k key); [reflexivity | exact IH].
Qed.

(** What a new block looks like, whatever its kind. *)
Lemma new_block_shape (block : Kind) (cin planes s : Z)
  (ds : option Downsample) (g w d : Z) (b : Block) :
  new_block block cin planes s ds g w d = inr b ->
  kind b = block
  /\ block_in b = cin
  /\ block_out b = (planes * expansion block)%Z
  /\ path_stride b = s
  /\ convs_chained cin (convs b)
  /\ norms b = map out_channels (convs b)
  /\ downsample b = ds.
Proof.
  destruct block; unfold new_block, new_BasicBlock, new_Bottleneck, ret, raise.
  - destruct (negb (g =? 1)%Z || negb (w =? 64)%Z); [discriminate|].
    destruct (d >? 1)%Z; [discriminate|].
    intros [= <-]. unfold block_in, block_out, path_stride.
    cbn -[Z.mul Z.quot]. repeat split; lia.
  - intros [= <-]. unfold block_in, block_out, path_stride.
    cbn -[Z.mul Z.quot]. repeat split; lia.
Qed.

Lemma more_blocks_some (count : nat) (b : Block) :
  more_blocks count (inr b) = inr (repeat b count).
Proof.
  induction count as [|count IH]; [reflexivity|].
  cbn [more_blocks repeat]. unfold bind. rewrite IH. reflexivity.
Qed.

Lemma more_blocks_fail (count : nat) (e : exn) :
  more_blocks count (inl e) = if count =? 0 then inr [] else inl e.
Proof. destruct count; reflexivity. Qed.

Lemma chained_app (a b c : Z) (l1 l2 : list Block) :
  chained a l1 b -> chained b l2 c -> chained a (l1 ++ l2) c.
Proof.
  revert a. induction l1 as [|x l1 IH]; simpl; intros a H1 H2.
  - subst. exact H2.
  - destruct H1 as [Hin H1]. split; [exact Hin|]. apply IH; assumption.
Qed.

Lemma chained_repeat (b : Block) (count : nat) :
  block_in b = block_out b -> chained (block_out b) (repeat b count)
                                (block_out b).
Proof.
  intros H. induction count as [|count IH]; simpl; [reflexivity|].
  split; [exact H | exact IH].
Qed.

Lemma stage_stride_app (l1 l2 : list Block) :
  stage_stride (l1 ++ l2) = (stage_stride l1 * stage_stride l2)%Z.
Proof.
  unfold stage_stride. induction l1 as [|b l1 IH]; simpl.
  - destruct (fold_right Z.mul 1%Z (map path_stride l2)); reflexivity.
  - rewrite IH. lia.
Qed.

Lemma stage_stride_repeat (b : Block) (count : nat) :
  path_stride b = 1%Z -> stage_stride (repeat b count) = 1%Z.
Proof.
  intros H. unfold stage_stride.
  induction count as [|count IH]; simpl; [reflexivity|].
  rewrite H, IH. reflexivity.
Qed.

(** One stage, when it is built. *)
Lemma make_layer_built (self self' : State) (block : Kind)
  (planes blocks s : Z) (dilate : bool) (bl : list Block) :
  _make_layer self block planes blocks s dilate = inr (bl, self') ->
  s_inplanes self' = (planes * expansion block)%Z
  /\ s_dilation self'
     = (if dilate then (s_dilation self * s)%Z else s_dilation self)
  /\ s_groups self' = s_groups self
  /\ s_base_width self' = s_base_width self
  /\ length bl = S (Z.to_nat (blocks - 1))
  /\ chained (s_inplanes self) bl (planes * expansion block)
  /\ Forall block_fits bl
  /\ Forall (fun b => kind b = block) bl
  /\ stage_stride bl = (if dilate then 1%Z else s).
Proof.
  unfold _make_layer.
  set (s' := if dilate then 1%Z else s).
  set (d' := if dilate then (s_dilation self * s)%Z else s_dilation self).
  replace (if dilate then ((s_dilation self * s)%Z, 1%Z)
           else (s_dilation self, s)) with (d', s')
    by (unfold d', s'; destruct dilate; reflexivity).
  cbv iota beta.
  set (ds := if negb (s' =? 1)%Z
                || negb (s_inplanes self =? planes * expansion block)%Z
             then Some {| ds_conv := conv1x1 (s_inplanes self)
                                       (planes * expansion block) s';
                          ds_norm := (planes * expansion block)%Z |}
             else None).
  unfold bind.
  destruct (new_block block (s_inplanes self) planes s' ds (s_groups self)
              (s_base_width self) (s_dilation self)) as [e|first] eqn:Ef;
    [discriminate|].
  destruct (new_block_shape _ _ _ _ _ _ _ _ Ef)
    as [Hk [Hin [Hout [Hst [Hch [Hn Hds]]]]]].
  destruct (new_block block (planes * expansion block) planes 1 None
              (s_groups self) (s_base_width self) d') as [e|next] eqn:En.
  - rewrite more_blocks_fail.
    destruct (Z.to_nat (blocks - 1)) as [|count] eqn:Ec; [|discriminate].
    simpl. intros [= <- <-]. cbn [s_inplanes s_dilation s_groups s_base_width].
    do 4 (split; [reflexivity|]).
    split; [reflexivity|].
    split; [simpl; split; [exact Hin | exact Hout]|].
    split; [|split].
    + constructor; [|constructor].
      unfold block_fits, residual_fits. rewrite Hin, Hn, Hds.
      split; [exact Hch|]. split; [reflexivity|]. unfold ds.
      destruct (Z.eqb_spec s' 1) as [Hs1|Hs1];
        destruct (Z.eqb_spec (s_inplanes self) (planes * expansion block))
          as [Hi|Hi]; simpl; repeat split; lia.
    + constructor; [exact Hk | constructor].
    + unfold stage_stride. simpl. lia.
  - destruct (new_block_shape _ _ _ _ _ _ _ _ En)
      as [Hk' [Hin' [Hout' [Hst' [Hch' [Hn' Hds']]]]]].
    rewrite more_blocks_some. unfold ret.
    intros [= <- <-]. cbn [s_inplanes s_dilation s_groups s_base_width].
    do 4 (split; [reflexivity|]).
    split; [simpl; rewrite repeat_length; reflexivity|].
    split.
    { simpl. split; [exact Hin|]. rewrite Hout, <- Hout'.
      apply chained_repeat. lia. }
    split; [|split].
    + constructor.
      * unfold block_fits, residual_fits. rewrite Hin, Hn, Hds.
        split; [exact Hch|]. split; [reflexivity|]. unfold ds.
        destruct (Z.eqb_spec s' 1) as [Hs1|Hs1];
          destruct (Z.eqb_spec (s_inplanes self) (planes * expansion block))
            as [Hi|Hi]; simpl; repeat split; lia.
      * apply Forall_forall. intros b Hb. apply repeat_spec in Hb. subst b.
        unfold block_fits, residual_fits. rewrite Hin', Hn', Hds'.
        split; [exact Hch'|]. split; [reflexivity|].
        split; [lia | exact Hst'].
    + constructor; [exact Hk|].
      apply Forall_forall. intros b Hb. apply repeat_spec in Hb. subst b.
      exact Hk'.
    + change (first :: repeat next (Z.to_nat (blocks - 1)))
        with ([first] ++ repeat next (Z.to_nat (blocks - 1))).
      rewrite stage_stride_app, (stage_stride_repeat _ _ Hst').
      unfold stage_stride. simpl. lia.
Qed.

(** The four stages of a network that was built. *)
Lemma resnet_built (block : Kind) (layers : list Z) (num_classes g w : Z)
  (replace : option (list bool)) (net : Net) :
  new_ResNet block layers num_classes g w replace = inr net ->
  exists n0 n1 n2 n3 r0 r1 r2 st1 st2 st3,
    nth_error layers 0 = Some n0 /\ nth_error layers 1 = Some n1
    /\ nth_error layers 2 = Some n2 /\ nth_error layers 3 = Some n3
    /\ flags_of replace = [r0; r1; r2]
    /\ _make_layer (initial g w) block 64 n0 1 false = inr (layer1 net, st1)
    /\ _make_layer st1 block 128 n1 2 r0 = inr (layer2 net, st2)
    /\ _make_layer st2 block 256 n2 2 r1 = inr (layer3 net, st3)
    /\ _make_layer st3 block 512 n3 2 r2 = inr (layer4 net, final net)
    /\ fc net = ((512 * expansion block)%Z, num_classes)
    /\ out_channels (conv1 net) = 64%Z /\ bn1 net = 64%Z.
Proof.
  unfold new_ResNet. fold (flags_of replace). fold (initial g w).
  destruct (flags_of replace) as [|r0 [|r1 [|r2 [|r3 rest]]]];
    try discriminate.
  cbn [length Nat.eqb negb]. unfold index, bind, ret, raise.
  cbn [nth_error].
  destruct layers as [|n0 [|n1 [|n2 [|n3 more]]]]; cbn [nth_error].
  - discriminate.
  - destruct (_make_layer (initial g w) block 64 n0 1 false) as [e|[l1 s1]];
      discriminate.
  - destruct (_make_layer (initial g w) block 64 n0 1 false) as [e|[l1 s1]];
      [discriminate|].
    destruct (_make_layer s1 block 128 n1 2 r0) as [e|[l2 s2]]; discriminate.
  - destruct (_make_layer (initial g w) block 64 n0 1 false) as [e|[l1 s1]];
      [discriminate|].
    destruct (_make_layer s1 block 128 n1 2 r0) as [e|[l2 s2]];
      [discriminate|].
    destruct (_make_layer s2 block 256 n2 2 r1) as [e|[l3 s3]]; discriminate.
  - destruct (_make_layer (initial g w) block 64 n0 1 false)
      as [e|[l1 s1]] eqn:E1; [discriminate|].
    destruct (_make_layer s1 block 128 n1 2 r0) as [e|[l2 s2]] eqn:E2;
      [discriminate|].
    destruct (_make_layer s2 block 256 n2 2 r1) as [e|[l3 s3]] eqn:E3;
      [discriminate|].
    destruct (_make_layer s3 block 512 n3 2 r2) as [e|[l4 s4]] eqn:E4;
      [discriminate|].
    intros [= <-].
    cbn [layer1 layer2 layer3 layer4 final fc conv1 bn1 out_channels
         s_inplanes initial].
    exists n0, n1, n2, n3, r0, r1, r2, s1, s2, s3.
    repeat (split; [first [reflexivity | assumption]|]). reflexivity.
Qed.

(** A stage of bottlenecks is always built. *)
Lemma make_layer_bottleneck (self : State) (planes blocks s : Z)
  (dilate : bool) :
  exists bl self',
    _make_layer self Bottleneck planes blocks s dilate = inr (bl, self').
Proof.
  unfold _make_layer. destruct dilate; cbv iota beta;
    unfold new_block, new_Bottleneck, bind, ret;
    rewrite more_blocks_some; eexists; eexists; reflexivity.
Qed.





(** The convolutions of a bottleneck, for positive sizes. *)
Lemma bottleneck_sizes (cin planes s : Z) (ds : option Downsample)
  (g w d : Z) (b : Block) :
  new_block Bottleneck cin planes s ds g w d = inr b ->
  (0 < cin)%Z -> (0 < g)%Z -> (0 < w)%Z -> (64 <= planes)%Z ->
  Forall conv_accepted (convs b).
Proof.
  unfold new_block, new_Bottleneck, ret. intros [= <-] Hc Hg Hw Hp.
  cbn [convs].
  assert (Hq : (1 <= Z.quot (planes * w) 64)%Z).
  { apply Z.quot_le_lower_bound; nia. }
  set (q := Z.quot (planes * w) 64) in *.
  assert (Hwidth : (0 < q * g)%Z) by nia.
  assert (Hmod : ((q * g) mod g = 0)%Z) by (apply Z_mod_mult).
  unfold conv_accepted, conv1x1, conv3x3.
  repeat constructor;
    cbn [in_channels out_channels groups];
    try lia; try exact Hmod; apply Z.mod_1_r.
Qed.

Lemma bottleneck_stage_sizes (self self' : State) (planes blocks s : Z)
  (dilate : bool) (bl : list Block) :
  _make_layer self Bottleneck planes blocks s dilate = inr (bl, self') ->
  (0 < s_inplanes self)%Z -> (0 < s_groups self)%Z ->
  (0 < s_base_width self)%Z -> (64 <= planes)%Z ->
  Forall (fun b => Forall conv_accepted (convs b)) bl.
Proof.
  unfold _make_layer. intros H Hi Hg Hw Hp.
  destruct (if dilate then ((s_dilation self * s)%Z, 1%Z)
            else (s_dilation self, s)) as [d' s'].
  unfold bind in H.
  match type of H with
  | context [new_block Bottleneck ?a ?b ?c ?d ?e ?f ?g] =>
      destruct (new_block Bottleneck a b c d e f g) as [e1|first] eqn:Ef;
        [discriminate|]
  end.
  match type of H with
  | context [more_blocks ?k (new_block Bottleneck ?a ?b ?c ?d ?e ?f ?g)] =>
      destruct (new_block Bottleneck a b c d e f g) as [e2|next] eqn:En;
        [discriminate En|]
  end.
  rewrite more_blocks_some in H. unfold ret in H. injection H as <- _.
  constructor.
  - apply (bottleneck_sizes Ef); assumption.
  - apply Forall_forall. intros b Hb. apply repeat_spec in Hb. subst b.
    apply (bottleneck_sizes En); cbn [expansion]; try assumption; lia.
Qed.

(** A network of bottlenecks: every stage is built. *)
Ltac bottleneck_stage :=
  match goal with
  | |- context [_make_layer ?st Bottleneck ?p ?n ?s ?d] =>
      let bl := fresh "bl" in
      let st' := fresh "st" in
      let H := fresh "Hstage" in
      destruct (make_layer_bottleneck st p n s d) as [bl [st' H]];
      rewrite H; cbv iota beta
  end.

End ResNetFacts.

Import ResNet ResNetFacts.

(** X15: the shapes of a residual network fit.  Whenever [ResNet(block,
    layers, ...)] is constructed without an exception, the blocks of its
    four stages feed one another from the channels of the stem convolution
    to the input size of the classifier; inside every block each
    convolution reads the channels the previous one writes, each norm has
    the channels of its convolution, and the identity path (with its
    downsample when there is one) has the channels and the stride of the
    main path, so that [out += identity] adds equal shapes; every block is
    of the requested kind, and the classifier has [num_classes] outputs. *)
Theorem network_shapes_fit (block : Kind) (layers : list Z)
  (num_classes g w : Z) (replace : option (list bool)) (net : Net) :
  new_ResNet block layers num_classes g w replace = inr net ->
  chained (out_channels (conv1 net)) (blocks_of net) (fst (fc net))
  /\ Forall block_fits (blocks_of net)
  /\ Forall (fun b => kind b = block) (blocks_of net)
  /\ bn1 net = out_channels (conv1 net)
  /\ snd (fc net) = num_classes.
Proof.
  intros H.
  destruct (resnet_built _ _ _ _ _ _ H)
    as (n0 & n1 & n2 & n3 & r0 & r1 & r2 & st1 & st2 & st3
        & _ & _ & _ & _ & _ & E1 & E2 & E3 & E4 & Hfc & Hc & Hb).
  destruct (make_layer_built _ _ _ _ _ _ E1)
    as (I1 & _ & _ & _ & _ & C1 & F1 & K1 & _).
  destruct (make_layer_built _ _ _ _ _ _ E2)
    as (I2 & _ & _ & _ & _ & C2 & F2 & K2 & _).
  destruct (make_layer_built _ _ _ _ _ _ E3)
    as (I3 & _ & _ & _ & _ & C3 & F3 & K3 & _).
  destruct (make_layer_built _ _ _ _ _ _ E4)
    as (I4 & _ & _ & _ & _ & C4 & F4 & K4 & _).
  rewrite I1 in C2. rewrite I2 in C3. rewrite I3 in C4.
  unfold blocks_of. rewrite Hfc, Hc, Hb. cbn [fst snd].
  split; [|split; [|split; [|split; reflexivity]]].
  - eapply chained_app; [exact C1|].
    eapply chained_app; [exact C2|].
    eapply chained_app; [exact C3 | exact C4].
  - repeat (apply Forall_app; split); assumption.
  - repeat (apply Forall_app; split); assumption.
Qed.

Lemma network_shapes_fit_witness :
  chained 64 (blocks_of (Examples.built Examples.resnet50)) 2048
  /\ Forall block_fits (blocks_of (Examples.built Examples.resnet50))
  /\ length (blocks_of (Examples.built Examples.resnet50)) = 16.
Proof.
  destruct (@network_shapes_fit Bottleneck [3; 4; 6; 3]%Z 1000 1 64 None
              (Examples.built Examples.resnet50) eq_refl)
    as [Hc [Hf _]].
  split; [exact Hc|]. split; [exact Hf | reflexivity].
Defined.

(** X16: the stages of a residual network.  Whenever the construction
    succeeds, [layers] has at least four entries and three flags are in
    force (all [False] when none is given); stage [k] has [layers[k]]
    blocks, and one block when [layers[k]] is below 1; the first stage
    keeps the resolution, each later stage divides it by 2 unless its
    flag replaces the stride with dilation; the final dilation is 2 to
    the number of flags set; and the stride of the four stages times the
    final dilation is always 8. *)
Theorem network_stages (block : Kind) (layers : list Z)
  (num_classes g w : Z) (replace : option (list bool)) (net : Net) :
  new_ResNet block layers num_classes g w replace = inr net ->
  exists n0 n1 n2 n3 r0 r1 r2,
    firstn 4 layers = [n0; n1; n2; n3]
    /\ flags_of replace = [r0; r1; r2]
    /\ length (layer1 net) = Z.to_nat (Z.max 1 n0)
    /\ length (layer2 net) = Z.to_nat (Z.max 1 n1)
    /\ length (layer3 net) = Z.to_nat (Z.max 1 n2)
    /\ length (layer4 net) = Z.to_nat (Z.max 1 n3)
    /\ stage_stride (layer1 net) = 1%Z
    /\ stage_stride (layer2 net) = (if r0 then 1 else 2)%Z
    /\ stage_stride (layer3 net) = (if r1 then 1 else 2)%Z
    /\ stage_stride (layer4 net) = (if r2 then 1 else 2)%Z
    /\ s_dilation (final net) = dilation_of (flags_of replace)
    /\ (stage_stride (blocks_of net) * s_dilation (final net) = 8)%Z.
Proof.
  intros H.
  destruct (resnet_built _ _ _ _ _ _ H)
    as (n0 & n1 & n2 & n3 & r0 & r1 & r2 & st1 & st2 & st3
        & N0 & N1 & N2 & N3 & Hfl & E1 & E2 & E3 & E4 & _).
  destruct (make_layer_built _ _ _ _ _ _ E1)
    as (_ & D1 & _ & _ & L1 & _ & _ & _ & S1).
  destruct (make_layer_built _ _ _ _ _ _ E2)
    as (_ & D2 & _ & _ & L2 & _ & _ & _ & S2).
  destruct (make_layer_built _ _ _ _ _ _ E3)
    as (_ & D3 & _ & _ & L3 & _ & _ & _ & S3).
  destruct (make_layer_built _ _ _ _ _ _ E4)
    as (_ & D4 & _ & _ & L4 & _ & _ & _ & S4).
  exists n0, n1, n2, n3, r0, r1, r2.
  split.
  { destruct layers as [|a0 [|a1 [|a2 [|a3 more]]]]; try discriminate.
    cbn in N0, N1, N2, N3. cbn [firstn]. congruence. }
  split; [exact Hfl|].
  do 4 (split; [lia|]).
  do 4 (split; [assumption|]).
  cbn [initial s_dilation] in D1.
  assert (Hd : s_dilation (final net) = dilation_of [r0; r1; r2]).
  { rewrite D4, D3, D2, D1. unfold dilation_of. cbn [fold_right].
    destruct r0, r1, r2; reflexivity. }
  split; [rewrite Hfl; exact Hd|].
  unfold blocks_of. rewrite !stage_stride_app, S1, S2, S3, S4, Hd.
  destruct r0, r1, r2; reflexivity.
Qed.

Lemma network_stages_witness :
  map (@length Block)
    [layer1 (Examples.built Examples.resnet50_dilated);
     layer2 (Examples.built Examples.resnet50_dilated);
     layer3 (Examples.built Examples.resnet50_dilated);
     layer4 (Examples.built Examples.resnet50_dilated)] = [3; 4; 6; 3]
  /\ stage_stride (blocks_of (Examples.built Examples.resnet50_dilated)) = 2%Z
  /\ s_dilation (final (Examples.built Examples.resnet50_dilated)) = 4%Z.
Proof.
  destruct (@network_stages Bottleneck [3; 4; 6; 3]%Z 1000 1 64
              (Some [false; true; true])
              (Examples.built Examples.resnet50_dilated) eq_refl)
    as (n0 & n1 & n2 & n3 & r0 & r1 & r2 & Hl & Hf & L1 & L2 & L3 & L4
        & _ & _ & _ & _ & Hd & Hs).
  injection Hl as <- <- <- <-. cbn [flags_of] in Hd.
  split; [cbn [map]; rewrite L1, L2, L3, L4; reflexivity|].
  split; [|exact Hd].
  rewrite Hd in Hs. vm_compute dilation_of in Hs. lia.
Defined.



(** X18: which networks of bottlenecks can be built.  For positive
    [num_classes], [groups] and [width_per_group], [ResNet(Bottleneck,
    layers, ...)] raises [ValueError] exactly when the flags given are not
    three, [IndexError] exactly when the flags are three (or none is
    given) and [layers] has fewer than four entries, and is built in every
    other case, whatever the entries of [layers]; it never raises
    [NotImplementedError].  In the network built every convolution of a
    bottleneck has positive channels, which its groups divide. *)
Theorem bottleneck_network_outcome (layers : list Z) (nc g w : Z)
  (replace : option (list bool)) :
  (0 < nc)%Z -> (0 < g)%Z -> (0 < w)%Z ->
  match new_ResNet Bottleneck layers nc g w replace with
  | inl ValueError => length (flags_of replace) <> 3
  | inl IndexError => length (flags_of replace) = 3 /\ length layers < 4
  | inl NotImplementedError => False
  | inr net =>
      length (flags_of replace) = 3 /\ 4 <= length layers
      /\ Forall (fun b => Forall conv_accepted (convs b)) (blocks_of net)
  end.
Proof.
  intros Hnc Hg Hw.
  destruct (new_ResNet Bottleneck layers nc g w replace) as [e|net] eqn:E.
  - revert E. unfold new_ResNet. fold (flags_of replace).
    destruct (Nat.eqb_spec (length (flags_of replace)) 3) as [Hl|Hl];
      cbn [negb]; [|intros [= <-]; exact Hl].
    destruct (flags_of replace) as [|r0 [|r1 [|r2 [|r3 more]]]];
      try discriminate.
    unfold index, bind, ret, raise. cbn [nth_error].
    destruct layers as [|n0 [|n1 [|n2 [|n3 rest]]]]; cbn [nth_error length];
      repeat bottleneck_stage; intros [= <-];
      split; solve [reflexivity | lia].
  - destruct (resnet_built _ _ _ _ _ _ E)
      as (n0 & n1 & n2 & n3 & r0 & r1 & r2 & st1 & st2 & st3
          & N0 & N1 & N2 & N3 & Hfl & E1 & E2 & E3 & E4 & _).
    split; [rewrite Hfl; reflexivity|].
    split.
    { destruct layers as [|a0 [|a1 [|a2 [|a3 more]]]]; try discriminate.
      simpl. lia. }
    destruct (make_layer_built _ _ _ _ _ _ E1) as (I1 & _ & G1 & W1 & _).
    destruct (make_layer_built _ _ _ _ _ _ E2) as (I2 & _ & G2 & W2 & _).
    destruct (make_layer_built _ _ _ _ _ _ E3) as (I3 & _ & G3 & W3 & _).
    cbn [initial s_groups s_base_width] in G1, W1.
    rewrite G1 in G2. rewrite G2 in G3. rewrite W1 in W2. rewrite W2 in W3.
    cbn [expansion] in I1, I2, I3.
    unfold blocks_of.
    repeat (apply Forall_app; split).
    + apply (@bottleneck_stage_sizes _ _ _ _ _ _ _ E1);
        cbn [initial s_groups s_base_width s_inplanes]; lia.
    + apply (@bottleneck_stage_sizes _ _ _ _ _ _ _ E2); lia.
    + apply (@bottleneck_stage_sizes _ _ _ _ _ _ _ E3); lia.
    + apply (@bottleneck_stage_sizes _ _ _ _ _ _ _ E4); lia.
Qed.

Lemma bottleneck_network_outcome_witness :
  exists net, Examples.resnet50 = inr net.
Proof.
  pose proof (@bottleneck_network_outcome [3; 4; 6; 3]%Z 1000 1 64 None
                eq_refl eq_refl eq_refl) as H.
  unfold Examples.resnet50.
  destruct (new_ResNet Bottleneck [3; 4; 6; 3]%Z 1000 1 64 None)
    as [e|net]; [|exists net; reflexivity].
  destruct e; [exfalso; apply H; reflexivity | contradiction
              | destruct H as [_ H]; simpl in H; lia].
Defined.

(** X19: [_ovewrite_named_param] never changes a value that is there.
    The call raises [ValueError] exactly when the dictionary holds the
    parameter with a value other than the new one.  Otherwise the
    dictionary then holds the new value under the parameter, every other
    key is as before, a dictionary that already held the parameter is
    unchanged, and a second call with the same arguments changes nothing. *)
Theorem overwrite_named_param_outcome (d : kwargs) (param : string) (v : Z) :
  match _ovewrite_named_param d param v with
  | inl e =>
      e = ValueError /\ exists x, lookup d param = Some x /\ x <> v
  | inr d' =>
      (lookup d param = None \/ lookup d param = Some v)
      /\ lookup d' param = Some v
      /\ (forall key, key <> param -> lookup d' key = lookup d key)
      /\ (lookup d param <> None -> d' = d)
      /\ _ovewrite_named_param d' param v = inr d'
  end.
Proof.
  unfold _ovewrite_named_param at 1.
  destruct (lookup d param) as [x|] eqn:Hx.
  - destruct (Z.eqb_spec x v) as [Hv|Hv]; cbn [negb]; unfold raise, ret.
    + subst x. split; [right; reflexivity|]. split; [exact Hx|].
      split; [reflexivity|]. split; [reflexivity|].
      unfold _ovewrite_named_param. rewrite Hx, Z.eqb_refl. reflexivity.
    + split; [reflexivity|]. exists x. split; [reflexivity | exact Hv].
  - unfold ret. split; [left; reflexivity|].
    assert (Hnew : lookup (d ++ [(param, v)]) param = Some v).
    { rewrite lookup_app, Hx, String.eqb_refl. reflexivity. }
    split; [exact Hnew|]. split; [|split].
    + intros key Hk. rewrite lookup_app.
      destruct (lookup d key); [reflexivity|].
      destruct (String.eqb_spec param key) as [E|E]; [|reflexivity].
      exfalso. apply Hk. symmetry. exact E.
    + intros Hn. exfalso. apply Hn. reflexivity.
    + unfold _ovewrite_named_param. rewrite Hnew, Z.eqb_refl. reflexivity.
Qed.
